(** * APIRecorder: the capture pipeline (event handler, recording manager,
      data filters) as a shallow embedding, with the properties of its
      specification.

    The JavaScript sources embedded here are
      - [src/core/data-filters.js]          (class DataFilters),
      - [src/managers/recording-manager.js] (class RecordingManager),
      - [src/core/event-handler.js]         (class EventHandler),
    each method under its own name, in a module named after its class.

    JavaScript objects live in a heap of cells addressed by references, so
    that sharing and in-place mutation are modelled as the code performs
    them.  Handlers are computations in a state-and-exception monad. *)

From Stdlib Require Import ZArith Lia Ascii DecimalString.
From stdpp Require Import base list strings.

Open Scope string_scope.
Open Scope list_scope.

(** ** JavaScript values *)

Abbreviation loc := nat (only parsing).

(** Numbers are modelled as integers: the code never computes with a
    number, it only copies them and tests them for truthiness. *)
Inductive value : Type :=
| VUndefined
| VNull
| VBool (b : bool)
| VNum (n : Z)
| VStr (s : string)
| VRef (l : loc).

#[global] Instance value_eq_dec : EqDecision value.
Proof. solve_decision. Defined.

(** A heap cell is a plain object (its own properties, in insertion order)
    or an array. *)
Inductive cell : Type :=
| Obj (fields : list (string * value))
| Arr (items : list value).

Abbreviation heap := (list cell) (only parsing).

(** [!v] is [negb (truthy v)]. *)
Definition truthy (v : value) : bool :=
  match v with
  | VUndefined | VNull => false
  | VBool b => b
  | VNum n => negb (n =? 0)%Z
  | VStr s => negb (String.eqb s "")
  | VRef _ => true
  end.

(** [a || b] *)
Definition js_or (a b : value) : value := if truthy a then a else b.

(** Own-property lookup and assignment on a field list. *)
Fixpoint assoc (k : string) (fs : list (string * value)) : option value :=
  match fs with
  | [] => None
  | (k', v) :: r => if String.eqb k k' then Some v else assoc k r
  end.

Fixpoint set_field (k : string) (v : value) (fs : list (string * value))
  : list (string * value) :=
  match fs with
  | [] => [(k, v)]
  | (k', v') :: r =>
      if String.eqb k k' then (k', v) :: r else (k', v') :: set_field k v r
  end.

Definition keys (fs : list (string * value)) : list string := map fst fs.

(** ** Exceptions and the monad of handlers *)

Inductive exn : Type := TypeError | SyntaxError.

Inductive outcome (A : Type) : Type :=
| Ret (a : A)
| Throw (e : exn).
Arguments Ret {A} a.
Arguments Throw {A} e.

(** A computation over a state [S]: it always yields the state it stopped
    in, also when it throws (mutations made before a [throw] persist). *)
Definition M (S A : Type) : Type := S -> outcome A * S.

Definition ret {S A} (a : A) : M S A := fun s => (Ret a, s).
Definition throw {S A} (e : exn) : M S A := fun s => (Throw e, s).
Definition bind {S A B} (m : M S A) (k : A -> M S B) : M S B :=
  fun s => match m s with
           | (Ret a, s') => k a s'
           | (Throw e, s') => (Throw e, s')
           end.
Definition try_catch {S A} (m : M S A) (handler : exn -> M S A) : M S A :=
  fun s => match m s with
           | (Ret a, s') => (Ret a, s')
           | (Throw e, s') => handler e s'
           end.
Definition get_state {S} : M S S := fun s => (Ret s, s).
Definition modify {S} (f : S -> S) : M S unit := fun s => (Ret tt, f s).

Declare Scope js_scope.
Delimit Scope js_scope with js.
Notation "x <- m ;; k" := (bind m (fun x => k))
  (at level 100, m at next level, right associativity) : js_scope.
Notation "m ;;; k" := (bind m (fun _ => k))
  (at level 100, right associativity) : js_scope.
Open Scope js_scope.

(** ** Heap operations *)

(** A fresh cell: object and array literals. *)
Definition alloc (c : cell) : M heap value :=
  fun h => (Ret (VRef (length h)), h ++ [c]).

(** [v.k] for the property names this code reads.  Reading a property of
    [undefined] or [null] throws; primitives and arrays have none of the
    names read here; a missing own property reads as [undefined]. *)
Definition getprop (v : value) (k : string) : M heap value :=
  fun h =>
    match v with
    | VUndefined | VNull => (Throw TypeError, h)
    | VRef l =>
        match h !! l with
        | Some (Obj fs) => (Ret (default VUndefined (assoc k fs)), h)
        | _ => (Ret VUndefined, h)
        end
    | _ => (Ret VUndefined, h)
    end.

(** [v?.k] *)
Definition getprop_opt (v : value) (k : string) : M heap value :=
  match v with
  | VUndefined | VNull => ret VUndefined
  | _ => getprop v k
  end.

(** [v.k = x] (strict mode: assigning to a property of a primitive or of
    [undefined]/[null] throws).  The code assigns named properties to plain
    objects only; on an array the assignment is modelled as a no-op. *)
Definition setprop (v : value) (k : string) (x : value) : M heap unit :=
  fun h =>
    match v with
    | VRef l =>
        match h !! l with
        | Some (Obj fs) => (Ret tt, <[l := Obj (set_field k x fs)]> h)
        | _ => (Ret tt, h)
        end
    | _ => (Throw TypeError, h)
    end.

(** ** The JavaScript runtime the code calls

    [JSON.parse] yields a tree, which [alloc_json] materialises as fresh
    heap cells.  The library functions themselves are not code of this
    repository; the model is parametric in them. *)

#[local] Unset Elimination Schemes.
Inductive json : Type :=
| JNull
| JBool (b : bool)
| JNum (n : Z)
| JStr (s : string)
| JArr (items : list json)
| JObj (members : list (string * json)).
#[local] Set Elimination Schemes.

Fixpoint alloc_json (j : json) : M heap value :=
  match j with
  | JNull => ret VNull
  | JBool b => ret (VBool b)
  | JNum n => ret (VNum n)
  | JStr s => ret (VStr s)
  | JArr items =>
      vs <- (fix go (l : list json) : M heap (list value) :=
               match l with
               | [] => ret []
               | x :: r => v <- alloc_json x ;; vs <- go r ;; ret (v :: vs)
               end) items ;;
      alloc (Arr vs)
  | JObj members =>
      fs <- (fix go (l : list (string * json)) (acc : list (string * value))
               : M heap (list (string * value)) :=
               match l with
               | [] => ret acc
               | (k, x) :: r => v <- alloc_json x ;; go r (set_field k v acc)
               end) members [] ;;
      alloc (Obj fs)
  end.

Record runtime : Type := {
  (** [JSON.parse(v)]; [None] when it throws a SyntaxError. *)
  JSON_parse : heap -> value -> option json;
  (** [JSON.stringify(v, null, 2)] of a parsed structure. *)
  JSON_stringify : heap -> value -> string;
  (** [Buffer.from(v, 'base64').toString('utf-8')]; [None] when it throws. *)
  Buffer_from_base64 : heap -> value -> option string;
  (** [new URL(v).search]; [None] when the constructor throws. *)
  URL_search : heap -> value -> option string
}.

(** The calls into the runtime, as computations. *)
Definition js_base64_decode (rt : runtime) (v : value) : M heap value :=
  fun h => match Buffer_from_base64 rt h v with
           | Some s => (Ret (VStr s), h)
           | None => (Throw TypeError, h)
           end.

Definition js_JSON_parse (rt : runtime) (v : value) : M heap json :=
  fun h => match JSON_parse rt h v with
           | Some j => (Ret j, h)
           | None => (Throw SyntaxError, h)
           end.

Definition js_JSON_stringify (rt : runtime) (v : value) : M heap value :=
  fun h => (Ret (VStr (JSON_stringify rt h v)), h).

Definition js_URL_search (rt : runtime) (v : value) : M heap string :=
  fun h => match URL_search rt h v with
           | Some s => (Ret s, h)
           | None => (Throw TypeError, h)
           end.

(** [s.includes(sub)] on strings. *)
Fixpoint str_includes (s sub : string) : bool :=
  String.prefix sub s ||
  match s with
  | EmptyString => false
  | String _ r => str_includes r sub
  end.

(** [v.includes(x)]: strings and arrays have the method; calling it on
    anything else is a TypeError. *)
Definition js_includes (v : value) (x : string) : M heap bool :=
  fun h =>
    match v with
    | VStr s => (Ret (str_includes s x), h)
    | VRef l =>
        match h !! l with
        | Some (Arr items) => (Ret (bool_decide (VStr x ∈ items)), h)
        | _ => (Throw TypeError, h)
        end
    | _ => (Throw TypeError, h)
    end.

(** The property names of the indices [0 .. n-1]. *)
Definition index_names (n : nat) : list string :=
  map (fun i => NilEmpty.string_of_uint (Nat.to_uint i)) (seq 0 n).

(** [Object.keys(v)]: the own enumerable property names, in insertion
    order for the names of a plain object; the indices of an array or of a
    string; none for a number or a boolean; a TypeError for [undefined] and
    [null]. *)
Definition js_Object_keys (v : value) : M heap (list string) :=
  fun h =>
    match v with
    | VUndefined | VNull => (Throw TypeError, h)
    | VBool _ | VNum _ => (Ret [], h)
    | VStr s => (Ret (index_names (String.length s)), h)
    | VRef l =>
        match h !! l with
        | Some (Obj fs) => (Ret (keys fs), h)
        | Some (Arr items) => (Ret (index_names (length items)), h)
        | None => (Ret [], h)
        end
    end.

(** ** src/core/data-filters.js *)

Module DataFilters.

(** [this.filters] *)
Record t : Type := {
  headers : value;
  payload : value;
  preview : value;
  response : value
}.

(** [options.k !== undefined ? options.k : true] *)
Definition option_or_true (options : value) (k : string) : M heap value :=
  v <- getprop options k ;;
  ret (if decide (v = VUndefined) then VBool true else v).

(** [constructor(options = {})] *)
Definition constructor (options : value) : M heap t :=
  options <- (if decide (options = VUndefined) then alloc (Obj []) else ret options) ;;
  h <- option_or_true options "headers" ;;
  p <- option_or_true options "payload" ;;
  v <- option_or_true options "preview" ;;
  r <- option_or_true options "response" ;;
  ret {| headers := h; payload := p; preview := v; response := r |}.

(** [new DataFilters()] *)
Definition default : t :=
  {| headers := VBool true; payload := VBool true;
     preview := VBool true; response := VBool true |}.

Definition applyToRequest (this : t) (request : value) : M heap value :=
  if negb (truthy request) then ret VNull else
  requestId <- getprop request "requestId" ;;
  url <- getprop request "url" ;;
  method <- getprop request "method" ;;
  resourceType <- getprop request "resourceType" ;;
  referrer <- getprop request "referrer" ;;
  queryString <- getprop request "queryString" ;;
  initiator <- getprop request "initiator" ;;
  frameId <- getprop request "frameId" ;;
  timestamp <- getprop request "timestamp" ;;
  filtered <- alloc (Obj [("requestId", requestId); ("url", url);
                          ("method", method); ("resourceType", resourceType);
                          ("referrer", referrer); ("queryString", queryString);
                          ("initiator", initiator); ("frameId", frameId);
                          ("timestamp", timestamp)]) ;;
  (if truthy (headers this) then
     hd <- getprop request "headers" ;;
     (if truthy hd then setprop filtered "headers" hd
      else e <- alloc (Obj []) ;; setprop filtered "headers" e)
   else e <- alloc (Obj []) ;; setprop filtered "headers" e) ;;;
  (if truthy (payload this) then
     pd <- getprop request "postData" ;;
     setprop filtered "postData" (js_or pd VNull)
   else setprop filtered "postData" VNull) ;;;
  ret filtered.

(** The result of the [try] block of [generatePreview]: the function
    returns early, or control falls through to [return preview]. *)
Inductive completion : Type :=
| Return (v : value)
| Normal.

Section WithRuntime.
Variable rt : runtime.

Definition generatePreview (response : value) : M heap value :=
  if negb (truthy response) then ret VNull else
  b <- getprop response "body" ;;
  if negb (truthy b) then ret VNull else
  preview <- alloc (Obj [("formatted", VNull); ("parsed", VNull);
                         ("type", VStr "text")]) ;;
  c <- try_catch
         (mt <- getprop response "mimeType" ;;
          let mimeType := js_or mt (VStr "") in
          body <- getprop response "body" ;;
          enc <- getprop response "base64Encoded" ;;
          d <- (if truthy enc then
                  try_catch
                    (s <- js_base64_decode rt body ;; ret (inr s))
                    (fun _ => ret (inl VNull))
                else ret (inr body)) ;;
          match d with
          | inl v => ret (Return v)
          | inr decodedBody =>
              is_json <- (i <- js_includes mimeType "json" ;;
                          if i then ret true
                          else js_includes mimeType "application/json") ;;
              if is_json then
                try_catch
                  (j <- js_JSON_parse rt decodedBody ;;
                   parsed <- alloc_json j ;;
                   setprop preview "parsed" parsed ;;;
                   parsed <- getprop preview "parsed" ;;
                   s <- js_JSON_stringify rt parsed ;;
                   setprop preview "formatted" s ;;;
                   setprop preview "type" (VStr "json"))
                  (fun _ =>
                     setprop preview "formatted" decodedBody ;;;
                     setprop preview "type" (VStr "text")) ;;;
                ret Normal
              else
                is_xml <- js_includes mimeType "xml" ;;
                if is_xml then
                  setprop preview "formatted" decodedBody ;;;
                  setprop preview "type" (VStr "xml") ;;;
                  ret Normal
                else
                is_html <- js_includes mimeType "html" ;;
                if is_html then
                  setprop preview "formatted" decodedBody ;;;
                  setprop preview "type" (VStr "html") ;;;
                  ret Normal
                else
                is_css <- js_includes mimeType "css" ;;
                if is_css then
                  setprop preview "formatted" decodedBody ;;;
                  setprop preview "type" (VStr "css") ;;;
                  ret Normal
                else
                is_js <- (i <- js_includes mimeType "javascript" ;;
                          if i then ret true
                          else js_includes mimeType "ecmascript") ;;
                if is_js then
                  setprop preview "formatted" decodedBody ;;;
                  setprop preview "type" (VStr "javascript") ;;;
                  ret Normal
                else
                  setprop preview "formatted" decodedBody ;;;
                  setprop preview "type" (VStr "text") ;;;
                  ret Normal
          end)
         (fun _ => ret (Return VNull)) ;;
  match c with
  | Return v => ret v
  | Normal => ret preview
  end.

Definition applyToResponse (this : t) (response : value) : M heap value :=
  if negb (truthy response) then ret VNull else
  status <- getprop response "status" ;;
  statusText <- getprop response "statusText" ;;
  mimeType <- getprop response "mimeType" ;;
  fromCache <- getprop response "fromCache" ;;
  fromServiceWorker <- getprop response "fromServiceWorker" ;;
  protocol <- getprop response "protocol" ;;
  remoteIPAddress <- getprop response "remoteIPAddress" ;;
  remotePort <- getprop response "remotePort" ;;
  timestamp <- getprop response "timestamp" ;;
  filtered <- alloc (Obj [("status", status); ("statusText", statusText);
                          ("mimeType", mimeType); ("fromCache", fromCache);
                          ("fromServiceWorker", fromServiceWorker);
                          ("protocol", protocol);
                          ("remoteIPAddress", remoteIPAddress);
                          ("remotePort", remotePort);
                          ("timestamp", timestamp)]) ;;
  (if truthy (headers this) then
     hd <- getprop response "headers" ;;
     (if truthy hd then setprop filtered "headers" hd
      else e <- alloc (Obj []) ;; setprop filtered "headers" e)
   else e <- alloc (Obj []) ;; setprop filtered "headers" e) ;;;
  (if truthy (DataFilters.response this) then
     b <- getprop response "body" ;;
     setprop filtered "body" (js_or b VNull) ;;;
     e <- getprop response "base64Encoded" ;;
     setprop filtered "base64Encoded" (js_or e (VBool false)) ;;;
     z <- getprop response "bodySize" ;;
     setprop filtered "bodySize" (js_or z (VNum 0))
   else
     setprop filtered "body" VNull ;;;
     setprop filtered "base64Encoded" (VBool false) ;;;
     setprop filtered "bodySize" (VNum 0)) ;;;
  (if truthy (preview this) then
     p <- generatePreview response ;;
     setprop filtered "preview" p
   else setprop filtered "preview" VNull) ;;;
  ret filtered.

End WithRuntime.

(** [throw new Error(`Invalid filter name: ${filterName}`)] *)
Inductive error : Type :=
| InvalidFilterName (filterName : value).

(** [isValidFilter(filterName)]: [includes] on the array literal compares
    by SameValueZero, so only the four strings pass. *)
Definition isValidFilter (filterName : value) : bool :=
  bool_decide (filterName ∈ [VStr "headers"; VStr "payload";
                             VStr "preview"; VStr "response"]).

(** [this.filters[filterName]] and [this.filters[filterName] = v].  Every
    method guards them with [isValidFilter], so they are only reached with
    one of the four names. *)
Definition get (filterName : value) (this : t) : value :=
  if decide (filterName = VStr "headers") then headers this
  else if decide (filterName = VStr "payload") then payload this
  else if decide (filterName = VStr "preview") then preview this
  else if decide (filterName = VStr "response") then response this
  else VUndefined.

Definition set (filterName : value) (v : value) (this : t) : t :=
  if decide (filterName = VStr "headers")
  then {| headers := v; payload := payload this;
          preview := preview this; response := response this |}
  else if decide (filterName = VStr "payload")
  then {| headers := headers this; payload := v;
          preview := preview this; response := response this |}
  else if decide (filterName = VStr "preview")
  then {| headers := headers this; payload := payload this;
          preview := v; response := response this |}
  else if decide (filterName = VStr "response")
  then {| headers := headers this; payload := payload this;
          preview := preview this; response := v |}
  else this.

(** [enable(filterName)], [disable(filterName)], [toggle(filterName)]:
    the new [this.filters], or the error thrown. *)
Definition enable (filterName : value) (this : t) : error + t :=
  if isValidFilter filterName then inr (set filterName (VBool true) this)
  else inl (InvalidFilterName filterName).

Definition disable (filterName : value) (this : t) : error + t :=
  if isValidFilter filterName then inr (set filterName (VBool false) this)
  else inl (InvalidFilterName filterName).

Definition toggle (filterName : value) (this : t) : error + t :=
  if isValidFilter filterName
  then inr (set filterName (VBool (negb (truthy (get filterName this)))) this)
  else inl (InvalidFilterName filterName).

(** [isEnabled(filterName)] *)
Definition isEnabled (filterName : value) (this : t) : value :=
  if isValidFilter filterName then get filterName this else VBool false.

(** [getFilters()] and [toJSON()]: [{ ...this.filters }], a fresh copy. *)
Definition getFilters (this : t) : M heap value :=
  alloc (Obj [("headers", headers this); ("payload", payload this);
              ("preview", preview this); ("response", response this)]).

Definition toJSON (this : t) : M heap value :=
  alloc (Obj [("headers", headers this); ("payload", payload this);
              ("preview", preview this); ("response", response this)]).

(** [setFilters(filters)]: the body of the [forEach] callback, key by
    key. *)
Fixpoint setFilters_each (filters : value) (ks : list string) (this : t)
  : M heap t :=
  match ks with
  | [] => ret this
  | key :: rest =>
      if isValidFilter (VStr key)
      then v <- getprop filters key ;;
           setFilters_each filters rest (set (VStr key) v this)
      else setFilters_each filters rest this
  end.

Definition setFilters (filters : value) (this : t) : M heap t :=
  ks <- js_Object_keys filters ;;
  setFilters_each filters ks this.

(** [static fromJSON(json)] *)
Definition fromJSON (json : value) : M heap t := constructor json.

End DataFilters.

(** ** The state of one pipeline

    One heap is shared by the event handler, the recording manager and the
    storage collaborator.  [saved] is the log of
    [storageManager.saveRequestResponse(record)] calls: the argument of each
    call together with the heap at the moment of the call (what the
    collaborator is handed). *)

Record world : Type := {
  mem : heap;
  saved : list (value * heap);
  (* RecordingManager *)
  currentSessionId : value;
  requestMap : list (value * value);
  filters : DataFilters.t;
  (* EventHandler *)
  pendingRequests : list (value * value)
}.

Definition set_mem (h : heap) (w : world) : world :=
  {| mem := h; saved := saved w; currentSessionId := currentSessionId w;
     requestMap := requestMap w; filters := filters w;
     pendingRequests := pendingRequests w |}.
Definition set_saved (s : list (value * heap)) (w : world) : world :=
  {| mem := mem w; saved := s; currentSessionId := currentSessionId w;
     requestMap := requestMap w; filters := filters w;
     pendingRequests := pendingRequests w |}.
Definition set_currentSessionId (v : value) (w : world) : world :=
  {| mem := mem w; saved := saved w; currentSessionId := v;
     requestMap := requestMap w; filters := filters w;
     pendingRequests := pendingRequests w |}.
Definition set_requestMap (m : list (value * value)) (w : world) : world :=
  {| mem := mem w; saved := saved w; currentSessionId := currentSessionId w;
     requestMap := m; filters := filters w;
     pendingRequests := pendingRequests w |}.
Definition set_filters (f : DataFilters.t) (w : world) : world :=
  {| mem := mem w; saved := saved w; currentSessionId := currentSessionId w;
     requestMap := requestMap w; filters := f;
     pendingRequests := pendingRequests w |}.
Definition set_pendingRequests (m : list (value * value)) (w : world) : world :=
  {| mem := mem w; saved := saved w; currentSessionId := currentSessionId w;
     requestMap := requestMap w; filters := filters w;
     pendingRequests := m |}.

(** Run a heap computation inside a pipeline. *)
Definition lift {A} (m : M heap A) : M world A :=
  fun w => let '(o, h) := m (mem w) in (o, set_mem h w).

(** A JavaScript [Map]: entries in insertion order, keys compared by
    SameValueZero (equality of [value]s). *)
Fixpoint map_get (k : value) (m : list (value * value)) : value :=
  match m with
  | [] => VUndefined
  | (k', v) :: r => if decide (k = k') then v else map_get k r
  end.

Fixpoint map_set (k v : value) (m : list (value * value)) : list (value * value) :=
  match m with
  | [] => [(k, v)]
  | (k', v') :: r =>
      if decide (k = k') then (k', v) :: r else (k', v') :: map_set k v r
  end.

(** ** src/managers/recording-manager.js *)

Module RecordingManager.

(** [constructor(storageManager)], with the empty heap and a storage
    collaborator that has been handed nothing yet. *)
Definition constructor : world :=
  {| mem := []; saved := []; currentSessionId := VNull; requestMap := [];
     filters := DataFilters.default; pendingRequests := [] |}.

(** [setSession(sessionId, filterOptions = null)] *)
Definition setSession (sessionId filterOptions : value) : M world unit :=
  modify (set_currentSessionId sessionId) ;;;
  modify (set_requestMap []) ;;;
  if truthy (if decide (filterOptions = VUndefined) then VNull else filterOptions)
  then f <- lift (DataFilters.constructor filterOptions) ;;
       modify (set_filters f)
  else ret tt.

(** [setFilters(filters)]: a [DataFilters] instance is installed as it
    is, anything else goes through the constructor. *)
Definition setFilters (arg : DataFilters.t + value) : M world unit :=
  match arg with
  | inl f => modify (set_filters f)
  | inr options =>
      f <- lift (DataFilters.constructor options) ;;
      modify (set_filters f)
  end.

Definition getFilters : M world DataFilters.t :=
  w <- get_state ;; ret (filters w).

(** [await this.storageManager.saveRequestResponse(record)] *)
Definition saveRequestResponse (record : value) : M world unit :=
  modify (fun w => set_saved (saved w ++ [(record, mem w)]) w).

(** [handleRequest(request)]; [uuid] is the result of [uuidv4()] and
    [createdAt] that of [new Date().toISOString()]. *)
Definition handleRequest (uuid createdAt : string) (request : value)
  : M world unit :=
  w <- get_state ;;
  if negb (truthy (currentSessionId w)) then ret tt else
  filteredRequest <- lift (DataFilters.applyToRequest (filters w) request) ;;
  key <- lift (getprop request "requestId") ;;
  requestId <- lift (getprop request "requestId") ;;
  record <- lift (alloc (Obj [("id", VStr uuid);
                              ("sessionId", currentSessionId w);
                              ("requestId", requestId);
                              ("request", filteredRequest);
                              ("response", VNull);
                              ("timing", VNull);
                              ("error", VNull);
                              ("status", VStr "pending");
                              ("createdAt", VStr createdAt)])) ;;
  modify (fun w => set_requestMap (map_set key record (requestMap w)) w).

Section WithRuntime.
Variable rt : runtime.

Definition handleResponse (requestId response : value) : M world unit :=
  w <- get_state ;;
  let record := map_get requestId (requestMap w) in
  if negb (truthy record) then ret tt else
  filteredResponse <- lift (DataFilters.applyToResponse rt (filters w) response) ;;
  lift (setprop record "response" filteredResponse) ;;;
  lift (setprop record "status" (VStr "response_received")).

Definition handleRequestComplete (requestId bodyData : value) : M world unit :=
  w <- get_state ;;
  let record := map_get requestId (requestMap w) in
  if negb (truthy record) then ret tt else
  r <- lift (getprop record "response") ;;
  (if truthy r then
     target <- lift (getprop record "response") ;;
     body <- lift (getprop bodyData "body") ;;
     lift (setprop target "body" body) ;;;
     target <- lift (getprop record "response") ;;
     base64Encoded <- lift (getprop bodyData "base64Encoded") ;;
     lift (setprop target "base64Encoded" base64Encoded) ;;;
     target <- lift (getprop record "response") ;;
     bodySize <- lift (getprop bodyData "bodySize") ;;
     lift (setprop target "bodySize" bodySize) ;;;
     current <- lift (getprop record "response") ;;
     refiltered <- lift (DataFilters.applyToResponse rt (filters w) current) ;;
     lift (setprop record "response" refiltered)
   else ret tt) ;;;
  lift (setprop record "status" (VStr "completed")) ;;;
  saveRequestResponse record.

End WithRuntime.

Definition handleRequestFailed (requestId error : value) : M world unit :=
  w <- get_state ;;
  let record := map_get requestId (requestMap w) in
  if negb (truthy record) then ret tt else
  lift (setprop record "error" error) ;;;
  lift (setprop record "status" (VStr "failed")) ;;;
  saveRequestResponse record.

Definition getResponseBody (requestId : value) : M world value := ret VNull.

Definition getRequest (requestId : value) : M world value :=
  w <- get_state ;; ret (js_or (map_get requestId (requestMap w)) VNull).

Definition getAllRequests : M world (list value) :=
  w <- get_state ;; ret (map snd (requestMap w)).

Definition clear : M world unit := modify (set_requestMap []).

End RecordingManager.

(** ** src/core/event-handler.js *)

(** Position of the first ['?'] of a string, as [indexOf('?')] finds it. *)
Fixpoint str_indexOf_question (s : string) : option nat :=
  match s with
  | EmptyString => None
  | String c r =>
      if Ascii.eqb c "?"%char then Some 0
      else option_map S (str_indexOf_question r)
  end.

(** [s.substring(n)] *)
Fixpoint str_substring_from (n : nat) (s : string) : string :=
  match n, s with
  | 0, _ => s
  | S n', String _ r => str_substring_from n' r
  | S _, EmptyString => EmptyString
  end.

(** [v.indexOf('?')]; [None] stands for [-1].  Strings and arrays have the
    method. *)
Definition js_indexOf_question (v : value) : M heap (option nat) :=
  fun h =>
    match v with
    | VStr s => (Ret (str_indexOf_question s), h)
    | VRef l =>
        match h !! l with
        | Some (Arr items) =>
            (Ret (fst <$> list_find (fun x => x = VStr "?") items), h)
        | _ => (Throw TypeError, h)
        end
    | _ => (Throw TypeError, h)
    end.

(** [v.substring(n)]: only strings have the method. *)
Definition js_substring_from (v : value) (n : nat) : M heap value :=
  match v with
  | VStr s => ret (VStr (str_substring_from n s))
  | _ => throw TypeError
  end.

(** [a.includes(x)] and [a.push(x)] on the [redirectChain] arrays, which
    are only ever the array literal created by [handleRequestWillBeSent];
    on anything else the call is modelled as a TypeError. *)
Definition array_includes (a x : value) : M heap bool :=
  fun h =>
    match a with
    | VRef l =>
        match h !! l with
        | Some (Arr items) => (Ret (bool_decide (x ∈ items)), h)
        | _ => (Throw TypeError, h)
        end
    | _ => (Throw TypeError, h)
    end.

Definition array_push (a x : value) : M heap unit :=
  fun h =>
    match a with
    | VRef l =>
        match h !! l with
        | Some (Arr items) => (Ret tt, <[l := Arr (items ++ [x])]> h)
        | _ => (Throw TypeError, h)
        end
    | _ => (Throw TypeError, h)
    end.

Module EventHandler.

(** [constructor(recordingManager)], on a recording manager in state [w]. *)
Definition constructor (w : world) : world := set_pendingRequests [] w.

(** [findOriginalRequest(requestId)]: the loop over
    [this.pendingRequests.entries()]. *)
Fixpoint findOriginalRequest_loop (requestId : value)
    (entries : list (value * value)) : M heap value :=
  match entries with
  | [] => ret VNull
  | (id, pending) :: rest =>
      request <- getprop pending "request" ;;
      chain <- getprop request "redirectChain" ;;
      found <- array_includes chain requestId ;;
      if found then getprop pending "request"
      else findOriginalRequest_loop requestId rest
  end.

Definition findOriginalRequest (requestId : value) : M world value :=
  w <- get_state ;;
  lift (findOriginalRequest_loop requestId (pendingRequests w)).

Section WithRuntime.
Variable rt : runtime.

(** Lines 18-29 of [handleRequestWillBeSent]: the query string of
    [request.url]. *)
Definition extractQueryString (request : value) : M heap value :=
  try_catch
    (url <- getprop request "url" ;;
     search <- js_URL_search rt url ;;
     ret (if truthy (VStr search)
          then VStr (str_substring_from 1 search) else VNull))
    (fun _ =>
       url <- getprop request "url" ;;
       queryIndex <- js_indexOf_question url ;;
       match queryIndex with
       | Some i =>
           url <- getprop request "url" ;;
           js_substring_from url (i + 1)
       | None => ret VNull
       end).

(** [handleRequestWillBeSent(params)]; [now] is [Date.now()], [uuid]
    and [createdAt] are the values the recording manager draws. *)
Definition handleRequestWillBeSent (now : Z) (uuid createdAt : string)
    (params : value) : M world unit :=
  requestId <- lift (getprop params "requestId") ;;
  request <- lift (getprop params "request") ;;
  redirectResponse <- lift (getprop params "redirectResponse") ;;
  type <- lift (getprop params "type") ;;
  frameId <- lift (getprop params "frameId") ;;
  queryString <- lift (extractQueryString request) ;;
  url <- lift (getprop request "url") ;;
  method <- lift (getprop request "method") ;;
  hd <- lift (getprop request "headers") ;;
  headers <- (if truthy hd then ret hd else lift (alloc (Obj []))) ;;
  postData <- lift (getprop request "postData") ;;
  referrer <- lift (getprop request "referrer") ;;
  initiator <- lift (getprop params "initiator") ;;
  redirectChain <- lift (alloc (Arr [])) ;;
  requestRecord <- lift (alloc (Obj [("requestId", requestId);
                                     ("url", url);
                                     ("method", method);
                                     ("headers", headers);
                                     ("postData", js_or postData VNull);
                                     ("queryString", queryString);
                                     ("referrer", js_or referrer VNull);
                                     ("initiator", js_or initiator VNull);
                                     ("resourceType", type);
                                     ("frameId", frameId);
                                     ("timestamp", VNum now);
                                     ("redirectChain", redirectChain)])) ;;
  (if truthy redirectResponse then
     originalRequest <- findOriginalRequest requestId ;;
     if truthy originalRequest then
       chain <- lift (getprop originalRequest "redirectChain") ;;
       lift (array_push chain requestId)
     else ret tt
   else ret tt) ;;;
  pending <- lift (alloc (Obj [("request", requestRecord);
                               ("response", VNull);
                               ("timing", VNull);
                               ("error", VNull);
                               ("status", VStr "pending")])) ;;
  modify (fun w => set_pendingRequests
                     (map_set requestId pending (pendingRequests w)) w) ;;;
  RecordingManager.handleRequest uuid createdAt requestRecord.

(** [handleResponseReceived(params)] *)
Definition handleResponseReceived (now : Z) (params : value) : M world unit :=
  requestId <- lift (getprop params "requestId") ;;
  response <- lift (getprop params "response") ;;
  w <- get_state ;;
  let pending := map_get requestId (pendingRequests w) in
  if negb (truthy pending) then ret tt else
  status <- lift (getprop response "status") ;;
  statusText <- lift (getprop response "statusText") ;;
  hd <- lift (getprop response "headers") ;;
  headers <- (if truthy hd then ret hd else lift (alloc (Obj []))) ;;
  mimeType <- lift (getprop response "mimeType") ;;
  fromCache <- lift (getprop response "fromCache") ;;
  fromServiceWorker <- lift (getprop response "fromServiceWorker") ;;
  protocol <- lift (getprop response "protocol") ;;
  remoteIPAddress <- lift (getprop response "remoteIPAddress") ;;
  remotePort <- lift (getprop response "remotePort") ;;
  responseRecord <- lift (alloc (Obj
    [("status", status);
     ("statusText", statusText);
     ("headers", headers);
     ("mimeType", js_or mimeType VNull);
     ("fromCache", js_or fromCache (VBool false));
     ("fromServiceWorker", js_or fromServiceWorker (VBool false));
     ("protocol", js_or protocol VNull);
     ("remoteIPAddress", js_or remoteIPAddress VNull);
     ("remotePort", js_or remotePort VNull);
     ("timestamp", VNum now)])) ;;
  lift (setprop pending "response" responseRecord) ;;;
  lift (setprop pending "status" (VStr "response_received")) ;;;
  RecordingManager.handleResponse rt requestId responseRecord.

(** [handleLoadingFinished(params)] *)
Definition handleLoadingFinished (params : value) : M world unit :=
  requestId <- lift (getprop params "requestId") ;;
  encodedDataLength <- lift (getprop params "encodedDataLength") ;;
  bodyData <- lift (getprop params "bodyData") ;;
  w <- get_state ;;
  let pending := map_get requestId (pendingRequests w) in
  if negb (truthy pending) then ret tt else
  r <- lift (getprop pending "response") ;;
  (if truthy r && truthy bodyData then
     unavailable <- lift (getprop bodyData "bodyUnavailable") ;;
     if truthy unavailable then
       target <- lift (getprop pending "response") ;;
       lift (setprop target "bodyUnavailable" (VBool true)) ;;;
       target <- lift (getprop pending "response") ;;
       e <- lift (getprop bodyData "error") ;;
       lift (setprop target "bodyError" e) ;;;
       e <- lift (getprop bodyData "error") ;;
       err <- lift (alloc (Obj [("bodyUnavailable", VBool true);
                                ("error", e)])) ;;
       lift (setprop pending "error" err)
     else
       target <- lift (getprop pending "response") ;;
       b <- lift (getprop bodyData "body") ;;
       lift (setprop target "body" b) ;;;
       target <- lift (getprop pending "response") ;;
       e <- lift (getprop bodyData "base64Encoded") ;;
       lift (setprop target "base64Encoded" e) ;;;
       target <- lift (getprop pending "response") ;;
       z <- lift (getprop bodyData "bodySize") ;;
       lift (setprop target "bodySize" (js_or z encodedDataLength))
   else ret tt) ;;;
  lift (setprop pending "status" (VStr "completed")) ;;;
  b <- lift (getprop_opt bodyData "body") ;;
  e <- lift (getprop_opt bodyData "base64Encoded") ;;
  z <- lift (getprop_opt bodyData "bodySize") ;;
  arg <- lift (alloc (Obj [("body", js_or b VNull);
                           ("base64Encoded", js_or e (VBool false));
                           ("bodySize", js_or z encodedDataLength)])) ;;
  RecordingManager.handleRequestComplete rt requestId arg.

End WithRuntime.

(** [handleLoadingFailed(params)] *)
Definition handleLoadingFailed (params : value) : M world unit :=
  requestId <- lift (getprop params "requestId") ;;
  errorText <- lift (getprop params "errorText") ;;
  canceled <- lift (getprop params "canceled") ;;
  blockedReason <- lift (getprop params "blockedReason") ;;
  w <- get_state ;;
  let pending := map_get requestId (pendingRequests w) in
  if negb (truthy pending) then ret tt else
  err <- lift (alloc (Obj [("errorText", errorText);
                           ("canceled", js_or canceled (VBool false));
                           ("blockedReason", js_or blockedReason VNull)])) ;;
  lift (setprop pending "error" err) ;;;
  lift (setprop pending "status" (VStr "failed")) ;;;
  e <- lift (getprop pending "error") ;;
  RecordingManager.handleRequestFailed requestId e.

Definition getPendingRequest (requestId : value) : M world value :=
  w <- get_state ;; ret (js_or (map_get requestId (pendingRequests w)) VNull).

Definition clear : M world unit := modify (set_pendingRequests []).

End EventHandler.

(** ** Reading the heap without effects *)

Definition nullish (v : value) : bool :=
  match v with
  | VUndefined | VNull => true
  | _ => false
  end.

(** The value [getprop] returns when it does not throw. *)
Definition prop (h : heap) (v : value) (k : string) : value :=
  match v with
  | VRef l =>
      match h !! l with
      | Some (Obj fs) => default VUndefined (assoc k fs)
      | _ => VUndefined
      end
  | _ => VUndefined
  end.

(** The own property names of the object [v] refers to. *)
Definition own_keys (h : heap) (v : value) : list string :=
  match v with
  | VRef l =>
      match h !! l with
      | Some (Obj fs) => keys fs
      | _ => []
      end
  | _ => []
  end.

(** A value that does not point outside the heap. *)
Definition valid (h : heap) (v : value) : Prop :=
  match v with
  | VRef l => l < length h
  | _ => True
  end.

(** Every cell of [h] is still there, unchanged, in [h']. *)
Definition preserved (h h' : heap) : Prop :=
  forall l c, h !! l = Some c -> h' !! l = Some c.

(** ** The function denoted by [applyToRequest] on a request object *)

Definition filtered_request (this : DataFilters.t) (h : heap) (request : value)
  : list cell :=
  let hd := prop h request "headers" in
  let keep := truthy (DataFilters.headers this) && truthy hd in
  Obj [("requestId", prop h request "requestId");
       ("url", prop h request "url");
       ("method", prop h request "method");
       ("resourceType", prop h request "resourceType");
       ("referrer", prop h request "referrer");
       ("queryString", prop h request "queryString");
       ("initiator", prop h request "initiator");
       ("frameId", prop h request "frameId");
       ("timestamp", prop h request "timestamp");
       ("headers", if keep then hd else VRef (S (length h)));
       ("postData", if truthy (DataFilters.payload this)
                    then js_or (prop h request "postData") VNull else VNull)]
  :: (if keep then [] else [Obj []]).

(** ** The object [applyToResponse] builds on a response object, before
    the preview is attached *)

Definition filtered_response (this : DataFilters.t) (h : list cell)
    (response : value) : list (string * value) :=
  let hd := prop h response "headers" in
  let keep := truthy (DataFilters.headers this) && truthy hd in
  let raw := truthy (DataFilters.response this) in
  [("status", prop h response "status");
   ("statusText", prop h response "statusText");
   ("mimeType", prop h response "mimeType");
   ("fromCache", prop h response "fromCache");
   ("fromServiceWorker", prop h response "fromServiceWorker");
   ("protocol", prop h response "protocol");
   ("remoteIPAddress", prop h response "remoteIPAddress");
   ("remotePort", prop h response "remotePort");
   ("timestamp", prop h response "timestamp");
   ("headers", if keep then hd else VRef (S (length h)));
   ("body", if raw then js_or (prop h response "body") VNull else VNull);
   ("base64Encoded",
    if raw then js_or (prop h response "base64Encoded") (VBool false)
    else VBool false);
   ("bodySize",
    if raw then js_or (prop h response "bodySize") (VNum 0) else VNum 0)].

(** The empty headers object, when one is created. *)
Definition fresh_headers (this : DataFilters.t) (h : list cell)
    (response : value) : list cell :=
  if truthy (DataFilters.headers this) && truthy (prop h response "headers")
  then [] else [Obj []].

(** ** The cases of [generatePreview], as the description of the filter
    engine names them *)

(** The object [generatePreview] starts from. *)
Definition preview_init : list (string * value) :=
  [("formatted", VNull); ("parsed", VNull); ("type", VStr "text")].

(** [mimeType.includes('json') || mimeType.includes('application/json')] *)
Definition is_json_mime (mime : string) : bool :=
  str_includes mime "json" || str_includes mime "application/json".

(** The type tag of a body that is not treated as JSON. *)
Definition raw_preview_type (mime : string) : string :=
  if str_includes mime "xml" then "xml"
  else if str_includes mime "html" then "html"
  else if str_includes mime "css" then "css"
  else if str_includes mime "javascript" || str_includes mime "ecmascript"
       then "javascript"
  else "text".

(** [response.mimeType || ''] *)
Definition mime_of (h : list cell) (response : value) : value :=
  js_or (prop h response "mimeType") (VStr "").

(** The decoded body: the body itself, or what the base64 decoder makes of
    it when the response is flagged as encoded; [None] when the decoder
    throws.  The decoder runs in the heap that already holds the preview
    object. *)
Definition decoded_body (rt : runtime) (h : list cell) (response : value)
  : option value :=
  if truthy (prop h response "base64Encoded")
  then VStr <$> Buffer_from_base64 rt (h ++ [Obj preview_init])
                  (prop h response "body")
  else Some (prop h response "body").

(** ** A runtime to evaluate examples with

    The theorems below hold for every [runtime].  To run the code on
    concrete inputs one instance is fixed here: it parses the JSON documents
    [true], [false] and [null], decodes base64 over the standard alphabet,
    and reads the query of a URL that has a scheme. *)

Definition example_JSON_parse (h : list cell) (v : value) : option json :=
  match v with
  | VStr s =>
      if String.eqb s "true" then Some (JBool true)
      else if String.eqb s "false" then Some (JBool false)
      else if String.eqb s "null" then Some JNull
      else None
  | VBool b => Some (JBool b)
  | VNull => Some JNull
  | _ => None
  end.

Definition example_JSON_stringify (h : list cell) (v : value) : string :=
  match v with
  | VBool true => "true"
  | VBool false => "false"
  | _ => "null"
  end.

(** The 6-bit value of a character of the base64 alphabet. *)
Definition base64_digit (c : ascii) : option N :=
  let n := N_of_ascii c in
  if (65 <=? n)%N && (n <=? 90)%N then Some (n - 65)%N
  else if (97 <=? n)%N && (n <=? 122)%N then Some (n - 71)%N
  else if (48 <=? n)%N && (n <=? 57)%N then Some (n + 4)%N
  else if (n =? 43)%N || (n =? 45)%N then Some 62%N
  else if (n =? 47)%N || (n =? 95)%N then Some 63%N
  else None.

(** The digits of a base64 text up to the padding; other characters are
    skipped. *)
Fixpoint base64_digits (s : string) : list N :=
  match s with
  | EmptyString => []
  | String c r =>
      if Ascii.eqb c "="%char then []
      else match base64_digit c with
           | Some d => d :: base64_digits r
           | None => base64_digits r
           end
  end.

Fixpoint base64_bytes (fuel : nat) (ds : list N) : string :=
  match fuel with
  | 0 => EmptyString
  | S fuel' =>
      match ds with
      | a :: b :: c :: d :: r =>
          String (ascii_of_N (a * 4 + b / 16))
            (String (ascii_of_N ((b mod 16) * 16 + c / 4))
               (String (ascii_of_N ((c mod 4) * 64 + d))
                  (base64_bytes fuel' r)))
      | [a; b; c] =>
          String (ascii_of_N (a * 4 + b / 16))
            (String (ascii_of_N ((b mod 16) * 16 + c / 4)) EmptyString)
      | [a; b] => String (ascii_of_N (a * 4 + b / 16)) EmptyString
      | _ => EmptyString
      end
  end.

Definition example_base64_decode (h : list cell) (v : value) : option string :=
  match v with
  | VStr s => let ds := base64_digits s in Some (base64_bytes (length ds) ds)
  | _ => None
  end.

Definition is_alpha (c : ascii) : bool :=
  let n := N_of_ascii c in
  ((65 <=? n)%N && (n <=? 90)%N) || ((97 <=? n)%N && (n <=? 122)%N).

Definition is_scheme_char (c : ascii) : bool :=
  let n := N_of_ascii c in
  is_alpha c || ((48 <=? n)%N && (n <=? 57)%N)
  || (n =? 43)%N || (n =? 45)%N || (n =? 46)%N.

(** Does the text go on, after scheme characters, with a colon? *)
Fixpoint scheme_ends (s : string) : bool :=
  match s with
  | EmptyString => false
  | String c r =>
      if Ascii.eqb c ":"%char then true
      else if is_scheme_char c then scheme_ends r else false
  end.

(** A URL with no base must start with a scheme. *)
Definition has_scheme (s : string) : bool :=
  match s with
  | EmptyString => false
  | String c r => is_alpha c && scheme_ends r
  end.

(** The text up to the first ['#']. *)
Fixpoint before_fragment (s : string) : string :=
  match s with
  | EmptyString => EmptyString
  | String c r =>
      if Ascii.eqb c "#"%char then EmptyString else String c (before_fragment r)
  end.

Definition example_URL_search (h : list cell) (v : value) : option string :=
  match v with
  | VStr s =>
      if has_scheme s then
        match str_indexOf_question (before_fragment s) with
        | Some i =>
            let q := str_substring_from i (before_fragment s) in
            Some (if String.eqb q "?" then "" else q)
        | None => Some ""
        end
      else None
  | _ => None
  end.

Definition example_runtime : runtime :=
  {| JSON_parse := example_JSON_parse;
     JSON_stringify := example_JSON_stringify;
     Buffer_from_base64 := example_base64_decode;
     URL_search := example_URL_search |}.

(** ** The vocabulary of the statements, and the data of the examples *)

(** The fields [applyToRequest] copies whatever the filters are. *)
Definition structural_fields : list string :=
  ["requestId"; "url"; "method"; "resourceType"; "referrer"; "queryString";
   "initiator"; "frameId"; "timestamp"].

(** A request object as the event handler never builds one, but as the
    public method accepts it: its post body is the empty string. *)
Definition empty_body_request : list cell :=
  [Obj [("requestId", VStr "R1"); ("url", VStr "https://example.com/api");
        ("method", VStr "POST"); ("postData", VStr "")]].

(** A request as the event handler builds it, with headers, a post body and
    a redirect chain. *)
Definition sample_request : list cell :=
  [Obj [("requestId", VStr "R1"); ("url", VStr "https://example.com/api?x=1");
        ("method", VStr "POST"); ("headers", VRef 1);
        ("postData", VStr "a=b"); ("queryString", VStr "x=1");
        ("referrer", VNull); ("initiator", VNull);
        ("resourceType", VStr "XHR"); ("frameId", VStr "F1");
        ("timestamp", VNum 1700000000000); ("redirectChain", VRef 2)];
   Obj [("Accept", VStr "*/*")];
   Arr []].

(** [above h m]: started in a heap that consists of [h], an object at
    address [length h] and further cells, [m] stops in a heap of the same
    shape: it changes nothing in [h].  [above_ret h m Q] says moreover that
    [m] does not throw and returns a value satisfying [Q]. *)
Definition above {A} (h : list cell) (m : M heap A) : Prop :=
  forall fs t, exists o fs' t', m (h ++ Obj fs :: t) = (o, h ++ Obj fs' :: t').

Definition above_ret {A} (h : list cell) (m : M heap A) (Q : A -> Prop) : Prop :=
  forall fs t, exists a fs' t',
    m (h ++ Obj fs :: t) = (Ret a, h ++ Obj fs' :: t') /\ Q a.

Definition whatever {A} : A -> Prop := fun _ => True.

(** The scenario of C6: the options [{response: false, preview: true}]
    and a response with an HTML body. *)
Definition html_scenario : list cell :=
  [Obj [("response", VBool false); ("preview", VBool true)];
   Obj [("body", VStr "<html></html>"); ("mimeType", VStr "text/html")]].

(** A requestId is tracked when the request map has an entry for it. *)
Definition tracked (requestId : value) (w : world) : Prop :=
  requestId ∈ map fst (requestMap w).

(** The calls the coordinator accepts. *)
Inductive call : Type :=
| SetSession (sessionId filterOptions : value)
| SetFilters (arg : DataFilters.t + value)
| HandleRequest (uuid createdAt : string) (request : value)
| HandleResponse (requestId response : value)
| HandleRequestComplete (requestId bodyData : value)
| HandleRequestFailed (requestId error : value)
| Clear.

(** Making a call. *)
Definition exec (rt : runtime) (c : call) : M world unit :=
  match c with
  | SetSession sessionId filterOptions =>
      RecordingManager.setSession sessionId filterOptions
  | SetFilters arg => RecordingManager.setFilters arg
  | HandleRequest uuid createdAt request =>
      RecordingManager.handleRequest uuid createdAt request
  | HandleResponse requestId response =>
      RecordingManager.handleResponse rt requestId response
  | HandleRequestComplete requestId bodyData =>
      RecordingManager.handleRequestComplete rt requestId bodyData
  | HandleRequestFailed requestId error =>
      RecordingManager.handleRequestFailed requestId error
  | Clear => RecordingManager.clear
  end.

(** A sequence of calls; a call that throws (a rejected promise) does not
    keep later calls from being made. *)
Fixpoint run (rt : runtime) (cs : list call) (w : world) : world :=
  match cs with
  | [] => w
  | c :: rest => run rt rest (snd (exec rt c w))
  end.

(** [c], made in [w], is a [handleRequest] for [requestId]. *)
Definition requests (requestId : value) (w : world) (c : call) : Prop :=
  match c with
  | HandleRequest _ _ request => prop (mem w) request "requestId" = requestId
  | _ => False
  end.

(** The request object of a [handleRequest] call exists in the heap. *)
Definition call_in_heap (w : world) (c : call) : Prop :=
  match c with
  | HandleRequest _ _ request => valid (mem w) request
  | _ => True
  end.

(** [reached_without rt requestId w w']: [w'] is reached from [w] by
    calls none of which is a [handleRequest] for [requestId]. *)
Inductive reached_without (rt : runtime) (requestId : value) (w : world)
  : world -> Prop :=
| reached_start : reached_without rt requestId w w
| reached_step w1 c :
    reached_without rt requestId w w1 ->
    call_in_heap w1 c ->
    ~ requests requestId w1 c ->
    reached_without rt requestId w (snd (exec rt c w1)).

(** [m] leaves the part [f] of the state as it is. *)
Definition same {X A} (f : world -> X) (m : M world A) : Prop :=
  forall w, f (snd (m w)) = f w.

(** A session in which request "R1" was initiated and completed; the
    events of "R9" were never preceded by an initiation. *)
Definition other_request_heap : list cell :=
  [Obj [("requestId", VStr "R1"); ("url", VStr "https://example.com/");
        ("method", VStr "GET")];
   Obj [("status", VNum 200); ("mimeType", VStr "text/html")];
   Obj [("body", VStr "<p>ok</p>"); ("base64Encoded", VBool false);
        ("bodySize", VNum 9)]].

(** The calls of that session. *)
Definition other_request_calls : list call :=
  [SetSession (VStr "S1") VUndefined;
   HandleRequest "id-1" "2024-01-01T00:00:00.000Z" (VRef 0);
   HandleResponse (VStr "R1") (VRef 1);
   HandleRequestComplete (VStr "R1") (VRef 2)].

(** [v] refers to an object of the heap. *)
Definition is_object (h : list cell) (v : value) : Prop :=
  exists l fs, v = VRef l /\ h !! l = Some (Obj fs).

(** Objects stay objects. *)
Definition objects_kept (h h' : list cell) : Prop :=
  forall v, is_object h v -> is_object h' v.



(** One request, and the payloads of a failure and of a completion. *)
Definition one_request_heap : list cell :=
  [Obj [("requestId", VStr "1"); ("url", VStr "https://example.com/a");
        ("method", VStr "GET")];
   Obj [("errorText", VStr "net::ERR_ABORTED"); ("canceled", VBool true);
        ("blockedReason", VNull)];
   Obj [("body", VNull); ("base64Encoded", VBool false); ("bodySize", VNum 0)]].


(** The scenario of the specification: request "R1", a JSON response, a
    completion with its body. *)
Definition scenario_heap : list cell :=
  [Obj [("requestId", VStr "R1"); ("url", VStr "https://example.com/api?x=1");
        ("method", VStr "GET"); ("queryString", VStr "x=1")];
   Obj [("status", VNum 200); ("mimeType", VStr "application/json")];
   Obj [("body", VStr "true"); ("base64Encoded", VBool false);
        ("bodySize", VNum 4)]].

(** A new coordinator in that heap, after [setSession("S1")]. *)
Definition scenario_world : world :=
  snd (RecordingManager.setSession (VStr "S1") VUndefined
         (set_mem scenario_heap RecordingManager.constructor)).

(** The initiation event of the scenario: request "R2" with a URL that has
    no scheme. *)
Definition malformed_url_event : list cell :=
  [Obj [("requestId", VStr "R2"); ("request", VRef 1); ("type", VStr "XHR");
        ("frameId", VStr "F1")];
   Obj [("url", VStr "bad-url-no-scheme?q=5"); ("method", VStr "GET")]].

(** The events of C3: the initiation of request "1", the initiation of
    request "2" whose [redirectResponse] refers to the URL of request "1",
    and the response and completion of request "1". *)
Definition redirect_events : list cell :=
  [Obj [("requestId", VStr "1"); ("request", VRef 1); ("type", VStr "Document");
        ("frameId", VStr "F1")];
   Obj [("url", VStr "https://example.com/old"); ("method", VStr "GET")];
   Obj [("requestId", VStr "2"); ("request", VRef 3);
        ("redirectResponse", VRef 4); ("type", VStr "Document");
        ("frameId", VStr "F1")];
   Obj [("url", VStr "https://example.com/new"); ("method", VStr "GET")];
   Obj [("url", VStr "https://example.com/old"); ("status", VNum 302);
        ("statusText", VStr "Found")];
   Obj [("requestId", VStr "1"); ("response", VRef 6)];
   Obj [("status", VNum 302); ("statusText", VStr "Found");
        ("mimeType", VStr "text/html")];
   Obj [("requestId", VStr "1"); ("encodedDataLength", VNum 0)]].

(** The pipeline after these four events, in a session. *)
Definition redirect_run : outcome unit * world :=
  (EventHandler.handleRequestWillBeSent example_runtime 1 "id-1" "t1" (VRef 0) ;;;
   EventHandler.handleRequestWillBeSent example_runtime 2 "id-2" "t2" (VRef 2) ;;;
   EventHandler.handleResponseReceived example_runtime 3 (VRef 5) ;;;
   EventHandler.handleLoadingFinished example_runtime (VRef 7))
    (set_mem redirect_events scenario_world).

(** The items of the array [v] refers to. *)
Definition array_items (h : list cell) (v : value) : option (list value) :=
  match v with
  | VRef l => match h !! l with Some (Arr items) => Some items | _ => None end
  | _ => None
  end.

(** [h'] keeps the arrays of [h] as they are, and the objects of [h] with
    their [request] and [redirectChain] properties. *)
Definition chains_kept (h h' : list cell) : Prop :=
  (forall l fs, h !! l = Some (Obj fs) ->
     exists fs', h' !! l = Some (Obj fs')
                 /\ assoc "request" fs' = assoc "request" fs
                 /\ assoc "redirectChain" fs' = assoc "redirectChain" fs)
  /\ (forall l items, h !! l = Some (Arr items) -> h' !! l = Some (Arr items)).

(** A heap computation that does so from every heap. *)
Definition keeps_chains {A} (m : M heap A) : Prop :=
  forall h, chains_kept h (snd (m h)).

(** The same for a computation of the pipeline, which moreover leaves the
    pending requests of the event handler alone. *)
Definition keeps_pending {A} (m : M world A) : Prop :=
  forall w, chains_kept (mem w) (mem (snd (m w)))
            /\ pendingRequests (snd (m w)) = pendingRequests w.

(** The pending entry [p] has a request whose redirect chain is the empty
    array. *)
Definition chain_empty (h : list cell) (p : value) : Prop :=
  exists lp fsp lr fsr lc,
    p = VRef lp /\ h !! lp = Some (Obj fsp)
    /\ assoc "request" fsp = Some (VRef lr) /\ h !! lr = Some (Obj fsr)
    /\ assoc "redirectChain" fsr = Some (VRef lc) /\ h !! lc = Some (Arr []).

(** Every pending request has an empty redirect chain. *)
Definition chains_empty (w : world) : Prop :=
  forall k p, (k, p) ∈ pendingRequests w -> chain_empty (mem w) p.

(** A computation of the pipeline that keeps every redirect chain empty. *)
Definition keeps_empty {A} (m : M world A) : Prop :=
  forall w, chains_empty w -> chains_empty (snd (m w)).

(** A step that leaves the heap as it is. *)
Definition reads {A} (m : M heap A) : Prop := forall h, snd (m h) = h.

(** The events delivered to the pipeline: the four network events, and
    the calls made on its two objects from outside. *)
Inductive event : Type :=
| RequestWillBeSent (now : Z) (uuid createdAt : string) (params : value)
| ResponseReceived (now : Z) (params : value)
| LoadingFinished (params : value)
| LoadingFailed (params : value)
| ClearPending
| Coordinator (c : call).

(** Delivering an event. *)
Definition deliver (rt : runtime) (e : event) : M world unit :=
  match e with
  | RequestWillBeSent now uuid createdAt params =>
      EventHandler.handleRequestWillBeSent rt now uuid createdAt params
  | ResponseReceived now params =>
      EventHandler.handleResponseReceived rt now params
  | LoadingFinished params => EventHandler.handleLoadingFinished rt params
  | LoadingFailed params => EventHandler.handleLoadingFailed params
  | ClearPending => EventHandler.clear
  | Coordinator c => exec rt c
  end.

(** A sequence of events; as with [run], a handler that throws does not
    keep later events from being delivered. *)
Fixpoint deliver_all (rt : runtime) (es : list event) (w : world) : world :=
  match es with
  | [] => w
  | e :: rest => deliver_all rt rest (snd (deliver rt e w))
  end.

(** ** The vocabulary of the further properties *)

(** The fields [applyToResponse] copies whatever the filters are. *)
Definition response_fields : list string :=
  ["status"; "statusText"; "mimeType"; "fromCache"; "fromServiceWorker";
   "protocol"; "remoteIPAddress"; "remotePort"; "timestamp"].

(** The names of the four toggles. *)
Definition filter_names : list string :=
  ["headers"; "payload"; "preview"; "response"].

(** Two configurations that agree on which toggles are on. *)
Definition same_toggles (f g : DataFilters.t) : Prop :=
  truthy (DataFilters.headers f) = truthy (DataFilters.headers g)
  /\ truthy (DataFilters.payload f) = truthy (DataFilters.payload g)
  /\ truthy (DataFilters.preview f) = truthy (DataFilters.preview g)
  /\ truthy (DataFilters.response f) = truthy (DataFilters.response g).

(** [v !== undefined ? v : true] *)
Definition or_true (v : value) : value :=
  if decide (v = VUndefined) then VBool true else v.

(** The effect of the [forEach] of [setFilters] on [this.filters]. *)
Definition assign_known (h : list cell) (filters : value)
    (f : DataFilters.t) (key : string) : DataFilters.t :=
  if DataFilters.isValidFilter (VStr key)
  then DataFilters.set (VStr key) (prop h filters key) f else f.

(** The properties no assignment of the three classes ever names: those
    that identify a record, and those of a request snapshot. *)
Definition identity_fields : list string :=
  ["id"; "sessionId"; "requestId"; "request"; "createdAt"; "timing";
   "url"; "method"; "queryString"; "referrer"; "initiator"; "resourceType";
   "frameId"; "timestamp"; "redirectChain"].

(** [h'] keeps every object of [h], with its own properties named in
    [K]. *)
Definition fields_kept (K : list string) (h h' : list cell) : Prop :=
  forall l fs, h !! l = Some (Obj fs) ->
    exists fs', h' !! l = Some (Obj fs')
                /\ forall k, k ∈ K -> assoc k fs' = assoc k fs.

(** A heap computation, and a computation of the pipeline, that does so
    from every state. *)
Definition keeps_fields {A} (K : list string) (m : M heap A) : Prop :=
  forall h, fields_kept K h (snd (m h)).

Definition keeps_fields_in {A} (K : list string) (m : M world A) : Prop :=
  forall w, fields_kept K (mem w) (mem (snd (m w))).

(** A computation of the pipeline that keeps the property [P] of its
    state. *)
Definition keeps {A} (P : world -> Prop) (m : M world A) : Prop :=
  forall w, P w -> P (snd (m w)).

(** The events that end with a hand-over to storage. *)
Definition is_terminal (e : event) : bool :=
  match e with
  | LoadingFinished _ | LoadingFailed _
  | Coordinator (HandleRequestComplete _ _)
  | Coordinator (HandleRequestFailed _ _) => true
  | _ => false
  end.

(** The calls that empty the request map. *)
Definition resets (e : event) : bool :=
  match e with
  | Coordinator (SetSession _ _) | Coordinator Clear => true
  | _ => false
  end.

(** [m] hands at most [n] records to storage, and withdraws none. *)
Definition stores_at_most {A} (n : nat) (m : M world A) : Prop :=
  forall w, exists new,
    saved (snd (m w)) = saved w ++ new /\ length new <= n.

(** The coordinator has no session, tracks nothing, and storage holds
    [s]. *)
Definition no_session (s : list (value * list cell)) (w : world) : Prop :=
  truthy (currentSessionId w) = false /\ requestMap w = [] /\ saved w = s.

(** The call that starts a session. *)
Definition starts_session (e : event) : bool :=
  match e with
  | Coordinator (SetSession sessionId _) => truthy sessionId
  | _ => false
  end.

(** A record as storage should see it: an object in a terminal state that
    carries a session id. *)
Definition good_record (h : list cell) (r : value) : Prop :=
  is_object h r
  /\ (prop h r "status" = VStr "completed" \/ prop h r "status" = VStr "failed")
  /\ truthy (prop h r "sessionId") = true.

(** Every tracked record is an object of the current session, and every
    record handed to storage was a good one when it was handed over. *)
Definition session_inv (w : world) : Prop :=
  (forall k v, (k, v) ∈ requestMap w ->
     is_object (mem w) v
     /\ prop (mem w) v "sessionId" = currentSessionId w
     /\ truthy (currentSessionId w) = true)
  /\ (forall r h, (r, h) ∈ saved w -> good_record h r).

(** A computation that leaves the coordinator's request map, session and
    storage alone, and in the heap the identity of every object. *)
Definition quiet {A} (m : M world A) : Prop :=
  forall w,
    fields_kept identity_fields (mem w) (mem (snd (m w)))
    /\ requestMap (snd (m w)) = requestMap w
    /\ saved (snd (m w)) = saved w
    /\ currentSessionId (snd (m w)) = currentSessionId w.

(** From [w] to [w'] nothing was handed to storage, or one record was: a
    tracked one, handed over with the id of the current session. *)
Definition hands_over (w w' : world) : Prop :=
  saved w' = saved w
  \/ exists k record,
       (k, record) ∈ requestMap w
       /\ saved w' = saved w ++ [(record, mem w')]
       /\ prop (mem w') record "sessionId" = currentSessionId w.

Definition hands_over_spec {A} (m : M world A) : Prop :=
  forall w, session_inv w ->
            session_inv (snd (m w)) /\ hands_over w (snd (m w)).

(** The four events of [redirect_run], as a list. *)
Definition redirect_event_list : list event :=
  [RequestWillBeSent 1 "id-1" "t1" (VRef 0);
   RequestWillBeSent 2 "id-2" "t2" (VRef 2);
   ResponseReceived 3 (VRef 5);
   LoadingFinished (VRef 7)].

(** The properties of a record, as [handleRequest] creates it. *)
Definition record_fields : list string :=
  ["id"; "sessionId"; "requestId"; "request"; "response"; "timing"; "error";
   "status"; "createdAt"].

(** The redirect chain of the request of a pending entry. *)
Definition chain_of (h : list cell) (p : value) : option (list value) :=
  array_items h (prop h (prop h p "request") "redirectChain").

(** A pending entry as [handleRequestWillBeSent] makes it: an object with
    a request that has a redirect chain. *)
Definition pending_wf (h : list cell) (p : value) : Prop :=
  nullish p = false /\ nullish (prop h p "request") = false
  /\ is_Some (chain_of h p).

(** A pending request whose chain already names request "2". *)
Definition chained_heap : list cell :=
  [Obj [("request", VRef 1); ("status", VStr "pending")];
   Obj [("requestId", VStr "1"); ("redirectChain", VRef 2)];
   Arr [VStr "2"]].

(** * Properties *)

(** ** Basic facts on values, heaps and the monad *)

#[local] Arguments bind : simpl never.
#[local] Arguments ret : simpl never.
#[local] Arguments throw : simpl never.
#[local] Arguments try_catch : simpl never.
#[local] Arguments alloc : simpl never.
#[local] Arguments getprop : simpl never.
#[local] Arguments setprop : simpl never.
#[local] Arguments js_includes : simpl never.
#[local] Arguments js_base64_decode : simpl never.
#[local] Arguments js_JSON_parse : simpl never.
#[local] Arguments js_JSON_stringify : simpl never.
#[local] Arguments js_URL_search : simpl never.
#[local] Arguments lift : simpl never.
#[local] Arguments modify : simpl never.
#[local] Arguments get_state : simpl never.
#[local] Arguments prop : simpl never.

Lemma bind_Ret {S A B} (m : M S A) (k : A -> M S B) s a s' :
  m s = (Ret a, s') -> bind m k s = k a s'.
Proof. unfold bind. by intros ->. Qed.

Lemma bind_Ret_to {S A B} (m : M S A) (k : A -> M S B) s a s' r :
  m s = (Ret a, s') -> k a s' = r -> bind m k s = r.
Proof. intros Hm <-. by apply bind_Ret. Qed.

Lemma bind_Throw {S A B} (m : M S A) (k : A -> M S B) s e s' :
  m s = (Throw e, s') -> bind m k s = (Throw e, s').
Proof. unfold bind. by intros ->. Qed.

Lemma bind_assoc {S A B C} (m : M S A) (f : A -> M S B) (g : B -> M S C) s :
  bind (bind m f) g s = bind m (fun x => bind (f x) g) s.
Proof. unfold bind. destruct (m s) as [[a|e] s']; done. Qed.

Lemma bind_ret {S A B} (a : A) (k : A -> M S B) s : bind (ret a) k s = k a s.
Proof. done. Qed.

Lemma try_catch_Ret {S A} (m : M S A) handler s a s' :
  m s = (Ret a, s') -> try_catch m handler s = (Ret a, s').
Proof. unfold try_catch. by intros ->. Qed.

Lemma try_catch_Throw {S A} (m : M S A) handler s e s' :
  m s = (Throw e, s') -> try_catch m handler s = handler e s'.
Proof. unfold try_catch. by intros ->. Qed.

Lemma alloc_eq c h : alloc c h = (Ret (VRef (length h)), h ++ [c]).
Proof. done. Qed.

Lemma truthy_not_nullish v : truthy v = true -> nullish v = false.
Proof. by destruct v. Qed.

Lemma getprop_prop v k h :
  nullish v = false -> getprop v k h = (Ret (prop h v k), h).
Proof.
  destruct v; try done.
  intros _. unfold getprop, prop. destruct (h !! l) as [[fs|items]|]; done.
Qed.

Lemma prop_app h t v k : valid h v -> prop (h ++ t) v k = prop h v k.
Proof.
  destruct v; try done.
  unfold prop, valid. intros Hl. by rewrite lookup_app_l.
Qed.

Lemma valid_app h t v : valid h v -> valid (h ++ t) v.
Proof. destruct v; try done. unfold valid. rewrite length_app. lia. Qed.

Lemma lookup_app_here (h t : heap) : (h ++ t) !! length h = t !! 0.
Proof. rewrite lookup_app_r; [|lia]. by rewrite Nat.sub_diag. Qed.

Lemma setprop_app_here h fs t k x :
  setprop (VRef (length h)) k x (h ++ Obj fs :: t)
  = (Ret tt, h ++ Obj (set_field k x fs) :: t).
Proof.
  unfold setprop. rewrite lookup_app_here. simpl.
  rewrite insert_app_r_alt; [|lia]. by rewrite Nat.sub_diag.
Qed.

Lemma prop_here h fs t k :
  prop (h ++ Obj fs :: t) (VRef (length h)) k = default VUndefined (assoc k fs).
Proof. unfold prop. by rewrite lookup_app_here. Qed.

Lemma own_keys_here h fs t :
  own_keys (h ++ Obj fs :: t) (VRef (length h)) = keys fs.
Proof. unfold own_keys. by rewrite lookup_app_here. Qed.

Lemma prop_last h fs k n :
  n = length h -> prop (h ++ [Obj fs]) (VRef n) k = default VUndefined (assoc k fs).
Proof. intros ->. apply prop_here. Qed.

Lemma preserved_refl h : preserved h h.
Proof. by intros l c. Qed.

Lemma preserved_trans h1 h2 h3 :
  preserved h1 h2 -> preserved h2 h3 -> preserved h1 h3.
Proof. intros H1 H2 l c Hl. eauto. Qed.

Lemma preserved_app h t : preserved h (h ++ t).
Proof. intros l c Hl. by apply lookup_app_l_Some. Qed.

Ltac m_get := rewrite ?bind_assoc; erewrite bind_Ret by (apply getprop_prop; done).
Ltac m_alloc := rewrite ?bind_assoc; erewrite bind_Ret by apply alloc_eq.
Ltac m_set_here := rewrite ?bind_assoc; erewrite bind_Ret by apply setprop_app_here.
Ltac heap_norm := rewrite <- ?app_assoc; cbn [app].

Ltac fields_norm := cbn [set_field String.eqb Ascii.eqb Bool.eqb].

Lemma applyToRequest_denotes this request h :
  truthy request = true -> valid h request ->
  DataFilters.applyToRequest this request h
  = (Ret (VRef (length h)), h ++ filtered_request this h request).
Proof.
  intros Ht Hv. pose proof (truthy_not_nullish _ Ht) as Hn.
  assert (Hpost : forall fs t,
    ((if truthy (DataFilters.payload this)
      then pd <- getprop request "postData" ;;
           setprop (VRef (length h)) "postData" (js_or pd VNull)
      else setprop (VRef (length h)) "postData" VNull) ;;;
     ret (VRef (length h))) (h ++ Obj fs :: t)
    = (Ret (VRef (length h)),
       h ++ Obj (set_field "postData"
                   (if truthy (DataFilters.payload this)
                    then js_or (prop h request "postData") VNull else VNull) fs)
         :: t)).
  { intros fs t. destruct (truthy (DataFilters.payload this)).
    - m_get. rewrite prop_app by done. by m_set_here.
    - by m_set_here. }
  unfold DataFilters.applyToRequest, filtered_request. rewrite Ht. cbn [negb].
  do 9 m_get. m_alloc.
  destruct (truthy (DataFilters.headers this)); cbn [andb].
  - m_get. rewrite prop_app by done.
    destruct (truthy (prop h request "headers")).
    + m_set_here. fields_norm. by rewrite Hpost.
    + m_alloc. heap_norm. m_set_here. fields_norm. rewrite Hpost.
      by rewrite length_app, Nat.add_1_r.
  - m_alloc. heap_norm. m_set_here. fields_norm. rewrite Hpost.
    by rewrite length_app, Nat.add_1_r.
Qed.

(** ** The data filter engine: [applyToRequest] *)

(** C5, as stated, fails: with the payload toggle on, a request whose
    post body is the empty string comes out with [postData = null], which is
    not the input's [postData]. *)
Lemma applyToRequest_postData_not_always_copied :
  ~ (forall (this : DataFilters.t) (request : value) (h : list cell),
       truthy request = true -> valid h request ->
       truthy (DataFilters.payload this) = true ->
       forall r h', DataFilters.applyToRequest this request h = (Ret r, h') ->
                    prop h' r "postData" = prop h request "postData").
Proof.
  intros H.
  specialize (H DataFilters.default (VRef 0) empty_body_request
                eq_refl ltac:(simpl; lia) eq_refl).
  specialize (H _ _ eq_refl). vm_compute in H. discriminate H.
Qed.

(** C5 (amended): on every request object, whatever the filter state,
    [applyToRequest] returns a fresh object carrying the nine structural
    fields of the input; its [headers] is the input's [headers] (the same
    object) when the headers toggle is on and the input has headers, and a
    fresh empty object otherwise; its [postData] is the input's [postData]
    when the payload toggle is on and that post body is truthy, and [null]
    otherwise; and no cell of the heap the call started in is changed, in
    particular neither the input object nor its headers. *)
Theorem applyToRequest_projection (this : DataFilters.t) (request : value)
    (h : list cell) :
  truthy request = true -> valid h request ->
  exists r h',
    DataFilters.applyToRequest this request h = (Ret r, h')
    /\ r = VRef (length h)
    /\ (forall k, k ∈ structural_fields -> prop h' r k = prop h request k)
    /\ (if truthy (DataFilters.headers this) && truthy (prop h request "headers")
        then prop h' r "headers" = prop h request "headers"
        else exists l, prop h' r "headers" = VRef l
                       /\ length h <= l /\ h' !! l = Some (Obj []))
    /\ prop h' r "postData"
       = (if truthy (DataFilters.payload this) && truthy (prop h request "postData")
          then prop h request "postData" else VNull)
    /\ preserved h h'
    /\ (forall k, prop h' request k = prop h request k)
    /\ (valid h (prop h request "headers") ->
        forall k, prop h' (prop h request "headers") k
                  = prop h (prop h request "headers") k).
Proof.
  intros Ht Hv. eexists _, _. split; [by apply applyToRequest_denotes|].
  split; [done|]. unfold filtered_request.
  pose proof (prop_here h) as Hr.
  split; [|split; [|split; [|split; [|split]]]].
  - intros k Hk. rewrite Hr. unfold structural_fields in Hk.
    repeat (apply elem_of_cons in Hk as [->|Hk]; [done|]).
    by apply elem_of_nil in Hk.
  - rewrite Hr. cbn.
    destruct (truthy (DataFilters.headers this) && truthy (prop h request "headers"));
      [done|].
    exists (S (length h)). split; [done|]. split; [lia|].
    rewrite lookup_app_r by lia. by replace (S (length h) - length h) with 1 by lia.
  - rewrite Hr. cbn. unfold js_or.
    destruct (truthy (DataFilters.payload this)),
      (truthy (prop h request "postData")); done.
  - apply preserved_app.
  - intros k. by apply prop_app.
  - intros Hh k. by apply prop_app.
Qed.

Lemma applyToRequest_projection_witness :
  exists r h',
    DataFilters.applyToRequest DataFilters.default (VRef 0) sample_request
    = (Ret r, h')
    /\ prop h' r "headers" = VRef 1
    /\ prop h' r "postData" = VStr "a=b"
    /\ preserved sample_request h'.
Proof.
  destruct (applyToRequest_projection DataFilters.default (VRef 0) sample_request
              eq_refl ltac:(simpl; lia))
    as (r & h' & Heq & _ & _ & Hh & Hp & Hpres & _).
  exists r, h'. repeat split; assumption.
Defined.

(** C10: on every request object and under every filter configuration
    the result of [applyToRequest] has exactly the eleven own properties
    requestId, url, method, resourceType, referrer, queryString, initiator,
    frameId, timestamp, headers and postData; whatever else the input
    carries, [redirectChain] in particular, is not in the result. *)
Theorem applyToRequest_whitelist (this : DataFilters.t) (request : value)
    (h : list cell) :
  truthy request = true -> valid h request ->
  exists r h',
    DataFilters.applyToRequest this request h = (Ret r, h')
    /\ own_keys h' r = structural_fields ++ ["headers"; "postData"]
    /\ (forall k, (k ∉ structural_fields ++ ["headers"; "postData"]) ->
                  prop h' r k = VUndefined)
    /\ ("redirectChain" ∉ own_keys h' r)
    /\ prop h' r "redirectChain" = VUndefined.
Proof.
  intros Ht Hv. eexists _, _. split; [by apply applyToRequest_denotes|].
  unfold filtered_request. rewrite own_keys_here, !prop_here. cbn.
  split; [done|]. split; [|split; [|done]].
  - intros k Hk. rewrite prop_here. cbn.
    repeat (let Hne := fresh "Hne" in
            apply not_elem_of_cons in Hk as [Hne Hk];
            apply String.eqb_neq in Hne; rewrite Hne).
    reflexivity.
  - intros Hin.
    repeat (apply elem_of_cons in Hin as [Hin|Hin]; [discriminate Hin|]).
    by apply elem_of_nil in Hin.
Qed.

Lemma applyToRequest_whitelist_witness :
  "redirectChain" ∈ own_keys sample_request (VRef 0)
  /\ exists r h',
       DataFilters.applyToRequest DataFilters.default (VRef 0) sample_request
       = (Ret r, h')
       /\ ("redirectChain" ∉ own_keys h' r).
Proof.
  split.
  - apply list_elem_of_In. cbn. tauto.
  - destruct (applyToRequest_whitelist DataFilters.default (VRef 0) sample_request
                eq_refl ltac:(simpl; lia))
      as (r & h' & Heq & _ & _ & Hnot & _).
    by exists r, h'.
Defined.

(** C9: [applyToRequest] and [applyToResponse] return [null], and throw
    nothing, when the argument is [null] or [undefined]; the heap is left as
    it was. *)
Theorem filters_null_on_absent_input (rt : runtime) (this : DataFilters.t)
    (h : list cell) :
  DataFilters.applyToRequest this VNull h = (Ret VNull, h)
  /\ DataFilters.applyToRequest this VUndefined h = (Ret VNull, h)
  /\ DataFilters.applyToResponse rt this VNull h = (Ret VNull, h)
  /\ DataFilters.applyToResponse rt this VUndefined h = (Ret VNull, h).
Proof. done. Qed.

(** ** Materialising a parsed document *)

(** Induction on a document, with the induction hypothesis for every item
    of an array and every member of an object. *)
Lemma json_nested_ind (P : json -> Prop) :
  P JNull ->
  (forall b, P (JBool b)) ->
  (forall n, P (JNum n)) ->
  (forall s, P (JStr s)) ->
  (forall items, Forall P items -> P (JArr items)) ->
  (forall members, Forall (fun m => P (snd m)) members -> P (JObj members)) ->
  forall j, P j.
Proof.
  intros HNull HBool HNum HStr HArr HObj.
  exact (fix IH (j : json) : P j :=
           match j with
           | JNull => HNull
           | JBool b => HBool b
           | JNum n => HNum n
           | JStr s => HStr s
           | JArr items =>
               HArr items
                 ((fix go (l : list json) : Forall P l :=
                     match l with
                     | [] => Forall_nil_2 P
                     | x :: r => Forall_cons_2 P x r (IH x) (go r)
                     end) items)
           | JObj members =>
               HObj members
                 ((fix go (l : list (string * json))
                     : Forall (fun m => P (snd m)) l :=
                     match l with
                     | [] => Forall_nil_2 _
                     | m :: r =>
                         Forall_cons_2 (fun m => P (snd m)) m r
                           (IH (snd m)) (go r)
                     end) members)
           end).
Qed.

(** [alloc_json] never throws and only appends cells. *)
Lemma alloc_json_appends j :
  forall h, exists v t, alloc_json j h = (Ret v, h ++ t).
Proof.
  induction j using json_nested_ind; intros h.
  - by exists VNull, []; rewrite app_nil_r.
  - by exists (VBool b), []; rewrite app_nil_r.
  - by exists (VNum n), []; rewrite app_nil_r.
  - by exists (VStr s), []; rewrite app_nil_r.
  - cbn [alloc_json].
    match goal with |- context [bind (?go items)] => set (go_ := go) end.
    assert (Hgo : forall h, exists vs t, go_ items h = (Ret vs, h ++ t)).
    { induction H as [|x r Hx Hr IH]; intros h0.
      - by exists [], []; rewrite app_nil_r.
      - cbn [go_]. destruct (Hx h0) as (v & t1 & ->%(bind_Ret _ _)).
        destruct (IH (h0 ++ t1)) as (vs & t2 & ->%(bind_Ret _ _)).
        exists (v :: vs), (t1 ++ t2). by rewrite app_assoc. }
    destruct (Hgo h) as (vs & t & ->%(bind_Ret _ _)).
    rewrite alloc_eq. exists (VRef (length (h ++ t))), (t ++ [Arr vs]).
    by rewrite app_assoc.
  - cbn [alloc_json].
    match goal with |- context [bind (?go members [])] => set (go_ := go) end.
    assert (Hgo : forall acc h, exists fs t, go_ members acc h = (Ret fs, h ++ t)).
    { induction H as [|[k x] r Hx Hr IH]; intros acc h0.
      - by exists acc, []; rewrite app_nil_r.
      - cbn [go_]. cbn [snd] in Hx.
        destruct (Hx h0) as (v & t1 & ->%(bind_Ret _ _)).
        destruct (IH (set_field k v acc) (h0 ++ t1)) as (fs & t2 & ->).
        exists fs, (t1 ++ t2). by rewrite app_assoc. }
    destruct (Hgo [] h) as (fs & t & ->%(bind_Ret _ _)).
    rewrite alloc_eq. exists (VRef (length (h ++ t))), (t ++ [Obj fs]).
    by rewrite app_assoc.
Qed.

(** ** Computations that work above a given heap *)

Ltac above_here := eexists _, _, _; split; [reflexivity | exact I].

Lemma above_ret_above {A} h (m : M heap A) Q : above_ret h m Q -> above h m.
Proof. intros H fs t. destruct (H fs t) as (a & fs' & t' & -> & _). eauto. Qed.

Lemma above_ret_weaken {A} h (m : M heap A) (Q : A -> Prop) :
  above_ret h m Q -> above_ret h m whatever.
Proof. intros H fs t. destruct (H fs t) as (a & fs' & t' & -> & _). above_here. Qed.

Lemma above_ret_pure {A} h (a : A) (Q : A -> Prop) : Q a -> above_ret h (ret a) Q.
Proof. intros HQ fs t. by exists a, fs, t. Qed.

Lemma above_throw {A} h e : above h (throw e : M heap A).
Proof. intros fs t. by exists (Throw e), fs, t. Qed.

Lemma above_bind {A B} h (m : M heap A) (k : A -> M heap B) :
  above h m -> (forall a, above h (k a)) -> above h (bind m k).
Proof.
  intros Hm Hk fs t. destruct (Hm fs t) as ([a|e] & fs1 & t1 & Heq).
  - rewrite (bind_Ret _ _ _ _ _ Heq). apply Hk.
  - rewrite (bind_Throw _ _ _ _ _ Heq). eauto.
Qed.

Lemma above_ret_bind {A B} h (m : M heap A) (k : A -> M heap B) Q :
  above_ret h m whatever -> (forall a, above_ret h (k a) Q) ->
  above_ret h (bind m k) Q.
Proof.
  intros Hm Hk fs t. destruct (Hm fs t) as (a & fs1 & t1 & Heq & _).
  rewrite (bind_Ret _ _ _ _ _ Heq). apply Hk.
Qed.

Lemma above_try_catch {A} h (m : M heap A) handler :
  above h m -> (forall e, above h (handler e)) -> above h (try_catch m handler).
Proof.
  intros Hm Hk fs t. unfold try_catch.
  destruct (Hm fs t) as ([a|e] & fs1 & t1 & ->); [eauto|apply Hk].
Qed.

Lemma above_ret_try_catch {A} h (m : M heap A) handler :
  above h m -> (forall e, above_ret h (handler e) whatever) ->
  above_ret h (try_catch m handler) whatever.
Proof.
  intros Hm Hk fs t. unfold try_catch.
  destruct (Hm fs t) as ([a|e] & fs1 & t1 & ->); [above_here|apply Hk].
Qed.

Lemma above_getprop h v k : above h (getprop v k).
Proof.
  intros fs t. exists (fst (getprop v k (h ++ Obj fs :: t))), fs, t.
  unfold getprop. destruct v; try done.
  by destruct (_ !! l) as [[?|?]|].
Qed.

Lemma above_ret_getprop h v k :
  nullish v = false -> above_ret h (getprop v k) whatever.
Proof. intros Hn fs t. rewrite getprop_prop by done. above_here. Qed.

Lemma above_js_includes h v x : above h (js_includes v x).
Proof.
  intros fs t. exists (fst (js_includes v x (h ++ Obj fs :: t))), fs, t.
  unfold js_includes. destruct v; try done.
  by destruct (_ !! l) as [[?|?]|].
Qed.

Lemma above_js_base64_decode h rt v : above h (js_base64_decode rt v).
Proof.
  intros fs t. unfold js_base64_decode.
  destruct (Buffer_from_base64 _ _ _); by eexists _, fs, t.
Qed.

Lemma above_js_JSON_parse h rt v : above h (js_JSON_parse rt v).
Proof.
  intros fs t. unfold js_JSON_parse.
  destruct (JSON_parse _ _ _); by eexists _, fs, t.
Qed.

Lemma above_ret_js_JSON_stringify h rt v :
  above_ret h (js_JSON_stringify rt v) whatever.
Proof. intros fs t. unfold js_JSON_stringify. above_here. Qed.

Lemma above_ret_setprop h k x :
  above_ret h (setprop (VRef (length h)) k x) whatever.
Proof. intros fs t. rewrite setprop_app_here. above_here. Qed.

Lemma above_ret_alloc h c : above_ret h (alloc c) whatever.
Proof.
  intros fs t. rewrite alloc_eq. eexists _, fs, (t ++ [c]).
  rewrite <- app_assoc. by split.
Qed.

Lemma above_ret_alloc_json h j : above_ret h (alloc_json j) whatever.
Proof.
  intros fs t. destruct (alloc_json_appends j (h ++ Obj fs :: t)) as (v & t' & ->).
  exists v, fs, (t ++ t'). rewrite <- app_assoc. by split.
Qed.

Create HintDb above.
#[local] Hint Resolve above_throw above_getprop above_js_includes
  above_ret_setprop above_ret_alloc above_ret_alloc_json above_ret_getprop
  above_js_base64_decode above_js_JSON_parse above_ret_js_JSON_stringify : above.

Ltac above_step :=
  match goal with
  | |- forall _, _ => intro
  | |- above_ret _ (ret _) _ =>
      apply above_ret_pure; first [exact I | reflexivity]
  | |- above_ret _ (bind _ _) _ => apply above_ret_bind
  | |- above_ret _ (try_catch _ _) _ => apply above_ret_try_catch
  | |- above _ (bind _ _) => apply above_bind
  | |- above _ (try_catch _ _) => apply above_try_catch
  | |- _ _ (if ?b then _ else _) => destruct b
  | |- _ _ (if ?b then _ else _) _ => destruct b
  | |- _ _ (match ?d with _ => _ end) => destruct d
  | |- _ _ (match ?d with _ => _ end) _ => destruct d
  | |- _ => solve [auto with above]
  | |- above _ _ => apply (above_ret_above _ _ whatever)
  end.

Section generatePreview_facts.
Variable rt : runtime.

(** [generatePreview] does not throw, and whatever it returns it leaves
    every cell of the heap it started in as it was. *)
Lemma generatePreview_appends response h :
  exists v t, DataFilters.generatePreview rt response h = (Ret v, h ++ t).
Proof.
  unfold DataFilters.generatePreview.
  destruct (truthy response) eqn:Ht; cbn [negb];
    [|by exists VNull, []; rewrite app_nil_r].
  pose proof (truthy_not_nullish _ Ht) as Hn. m_get.
  destruct (truthy (prop h response "body")); cbn [negb];
    [|by exists VNull, []; rewrite app_nil_r].
  m_alloc.
  match goal with
  | |- exists v t, ?m (h ++ [?c]) = _ => assert (Ha : above_ret h m whatever)
  end.
  { repeat above_step. }
  destruct (Ha [("formatted", VNull); ("parsed", VNull); ("type", VStr "text")] [])
    as (a & fs' & t' & -> & _).
  eauto.
Qed.

Lemma above_ret_generatePreview h response :
  above_ret h (DataFilters.generatePreview rt response) whatever.
Proof.
  intros fs t.
  destruct (generatePreview_appends response (h ++ Obj fs :: t)) as (v & t' & ->).
  exists v, fs, (t ++ t'). rewrite <- app_assoc. by split.
Qed.

(** On a response object [applyToResponse] does not throw; it returns a
    fresh object and leaves every cell of the heap it started in as it
    was. *)
Lemma applyToResponse_appends this response h :
  truthy response = true ->
  exists fs t,
    DataFilters.applyToResponse rt this response h
    = (Ret (VRef (length h)), h ++ Obj fs :: t).
Proof.
  intros Ht. pose proof (truthy_not_nullish _ Ht) as Hn.
  unfold DataFilters.applyToResponse. rewrite Ht. cbn [negb].
  do 9 m_get. m_alloc.
  match goal with
  | |- exists fs t, ?m (h ++ [?c]) = _ =>
      assert (Ha : above_ret h m (fun a => a = VRef (length h)))
  end.
  { pose proof above_ret_generatePreview. repeat above_step. }
  match goal with
  | |- exists fs t, ?m (h ++ [Obj ?c]) = _ =>
      destruct (Ha c []) as (a & fs' & t' & -> & ->)
  end.
  eauto.
Qed.

End generatePreview_facts.

(** ** The cases of [generatePreview] *)

Lemma js_includes_str s x h :
  js_includes (VStr s) x h = (Ret (str_includes s x), h).
Proof. done. Qed.

Ltac m_includes := rewrite ?bind_assoc; erewrite bind_Ret by apply js_includes_str.
Ltac m_ret := rewrite ?bind_assoc; rewrite bind_ret.

Section generatePreview_cases.
Variable rt : runtime.
Variables (response : value) (h : list cell).
Hypothesis Hresponse : truthy response = true.
Hypothesis Hvalid : valid h response.
Hypothesis Hbody : truthy (prop h response "body") = true.

Let h1 : list cell := h ++ [Obj preview_init].

Lemma generatePreview_enter k :
  getprop response k h1 = (Ret (prop h response k), h1).
Proof.
  rewrite getprop_prop by by apply truthy_not_nullish.
  unfold h1. by rewrite prop_app.
Qed.

Ltac enter :=
  unfold DataFilters.generatePreview; rewrite Hresponse; cbn [negb];
  erewrite bind_Ret by (apply getprop_prop; by apply truthy_not_nullish);
  rewrite Hbody; cbn [negb];
  m_alloc; fold preview_init; fold h1.

Ltac m_enter := rewrite ?bind_assoc; erewrite bind_Ret by apply generatePreview_enter.

(** The base64 decoder throws: the preview is [null]. *)
Lemma generatePreview_decode_fails :
  decoded_body rt h response = None ->
  DataFilters.generatePreview rt response h = (Ret VNull, h1).
Proof.
  unfold decoded_body. intros Hd.
  destruct (truthy (prop h response "base64Encoded")) eqn:Henc; [|done].
  destruct (Buffer_from_base64 rt _ _) eqn:Hdec; [done|]. clear Hd.
  enter.
  erewrite bind_Ret; cycle 1.
  { apply try_catch_Ret. do 3 m_enter. rewrite Henc.
    erewrite bind_Ret; cycle 1.
    { erewrite try_catch_Throw; [reflexivity|].
      apply bind_Throw. unfold js_base64_decode. fold h1 in Hdec.
      by rewrite Hdec. }
    reflexivity. }
  reflexivity.
Qed.

Lemma generatePreview_decode_step d :
  decoded_body rt h response = Some d ->
  (if truthy (prop h response "base64Encoded")
   then try_catch
          (s <- js_base64_decode rt (prop h response "body") ;; ret (inr s))
          (fun _ => ret (inl VNull))
   else ret (inr (prop h response "body"))) h1
  = (Ret (inr d : value + value), h1).
Proof.
  unfold decoded_body. fold h1.
  destruct (truthy (prop h response "base64Encoded")).
  - destruct (Buffer_from_base64 rt h1 _) as [s|] eqn:Hdec; [|done].
    intros [= <-]. apply try_catch_Ret.
    erewrite bind_Ret; [reflexivity|].
    unfold js_base64_decode. by rewrite Hdec.
  - by intros [= <-].
Qed.

Ltac m_decode :=
  rewrite ?bind_assoc;
  erewrite bind_Ret by (apply generatePreview_decode_step; eassumption).

(** A body that is not treated as JSON is stored as it was decoded, with
    the type tag of its mime type. *)
Lemma generatePreview_raw d mime :
  decoded_body rt h response = Some d ->
  mime_of h response = VStr mime ->
  is_json_mime mime = false ->
  DataFilters.generatePreview rt response h
  = (Ret (VRef (length h)),
     h ++ [Obj [("formatted", d); ("parsed", VNull);
                ("type", VStr (raw_preview_type mime))]]).
Proof.
  intros Hd Hm Hj. apply orb_false_elim in Hj as [Hj1 Hj2].
  enter.
  apply (bind_Ret_to _ _ _ DataFilters.Normal
           (h ++ [Obj [("formatted", d); ("parsed", VNull);
                       ("type", VStr (raw_preview_type mime))]])); [|done].
  { apply try_catch_Ret. do 3 m_enter. cbv zeta.
    fold (mime_of h response). rewrite Hm. m_decode. cbv beta iota.
    m_includes. rewrite Hj1. m_includes. rewrite Hj2.
    unfold raw_preview_type.
    m_includes. destruct (str_includes mime "xml").
    { unfold h1, preview_init. do 2 m_set_here. fields_norm. reflexivity. }
    m_includes. destruct (str_includes mime "html").
    { unfold h1, preview_init. do 2 m_set_here. fields_norm. reflexivity. }
    m_includes. destruct (str_includes mime "css").
    { unfold h1, preview_init. do 2 m_set_here. fields_norm. reflexivity. }
    m_includes. destruct (str_includes mime "javascript"); cbn [orb].
    { m_ret. unfold h1, preview_init. do 2 m_set_here. fields_norm. reflexivity. }
    m_includes. destruct (str_includes mime "ecmascript").
    { unfold h1, preview_init. do 2 m_set_here. fields_norm. reflexivity. }
    unfold h1, preview_init. do 2 m_set_here. fields_norm. reflexivity. }
Qed.

Lemma is_json_step mime s :
  (i <- js_includes (VStr mime) "json" ;;
   if i then ret true else js_includes (VStr mime) "application/json") s
  = (Ret (is_json_mime mime), s).
Proof.
  m_includes. unfold is_json_mime. by destruct (str_includes mime "json").
Qed.

(** A body declared as JSON that does not parse is stored as text. *)
Lemma generatePreview_json_fallback d mime :
  decoded_body rt h response = Some d ->
  mime_of h response = VStr mime ->
  is_json_mime mime = true ->
  JSON_parse rt h1 d = None ->
  DataFilters.generatePreview rt response h
  = (Ret (VRef (length h)),
     h ++ [Obj [("formatted", d); ("parsed", VNull); ("type", VStr "text")]]).
Proof.
  intros Hd Hm Hj Hp. enter.
  apply (bind_Ret_to _ _ _ DataFilters.Normal
           (h ++ [Obj [("formatted", d); ("parsed", VNull);
                       ("type", VStr "text")]])); [|done].
  apply try_catch_Ret. do 3 m_enter. cbv zeta.
  fold (mime_of h response). rewrite Hm. m_decode. cbv beta iota.
  erewrite bind_Ret by apply is_json_step.
  rewrite Hj. rewrite ?bind_assoc.
  erewrite (bind_Ret (try_catch _ _)); [reflexivity|].
  erewrite try_catch_Throw; cycle 1.
  { apply bind_Throw. unfold js_JSON_parse. by rewrite Hp. }
  unfold h1, preview_init. m_set_here. fields_norm.
  by rewrite setprop_app_here.
Qed.

Lemma getprop_here fs t k :
  getprop (VRef (length h)) k (h ++ Obj fs :: t)
  = (Ret (default VUndefined (assoc k fs)), h ++ Obj fs :: t).
Proof. rewrite getprop_prop by done. by rewrite prop_here. Qed.

(** A body declared as JSON that parses: the preview holds the parsed
    structure and its re-serialisation. *)
Lemma generatePreview_json d mime j parsed t :
  decoded_body rt h response = Some d ->
  mime_of h response = VStr mime ->
  is_json_mime mime = true ->
  JSON_parse rt h1 d = Some j ->
  alloc_json j h1 = (Ret parsed, h1 ++ t) ->
  DataFilters.generatePreview rt response h
  = (Ret (VRef (length h)),
     h ++ Obj [("formatted",
                VStr (JSON_stringify rt
                        (h ++ Obj [("formatted", VNull); ("parsed", parsed);
                                   ("type", VStr "text")] :: t)
                        parsed));
               ("parsed", parsed); ("type", VStr "json")] :: t).
Proof.
  intros Hd Hm Hj Hp Ha. enter.
  eapply (bind_Ret_to _ _ _ DataFilters.Normal); [|done].
  apply try_catch_Ret. do 3 m_enter. cbv zeta.
  fold (mime_of h response). rewrite Hm. m_decode. cbv beta iota.
  erewrite bind_Ret by apply is_json_step.
  rewrite Hj. rewrite ?bind_assoc.
  erewrite (bind_Ret (try_catch _ _)); [reflexivity|].
  apply try_catch_Ret.
  erewrite bind_Ret by (unfold js_JSON_parse; by rewrite Hp).
  erewrite bind_Ret by exact Ha.
  unfold h1, preview_init. heap_norm. m_set_here. fields_norm.
  erewrite bind_Ret by apply getprop_here. cbn [assoc String.eqb Ascii.eqb Bool.eqb default from_option id].
  erewrite bind_Ret by reflexivity.
  m_set_here. fields_norm. by rewrite setprop_app_here.
Qed.

(** Any other exception inside the [try] block, here a [mimeType] that
    has no [includes] method: the preview is [null]. *)
Lemma generatePreview_includes_throws e :
  js_includes (mime_of h response) "json" h1 = (Throw e, h1) ->
  DataFilters.generatePreview rt response h = (Ret VNull, h1).
Proof.
  intros Hi.
  destruct (decoded_body rt h response) as [d|] eqn:Hd;
    [|by apply generatePreview_decode_fails].
  enter.
  apply (bind_Ret_to _ _ _ (DataFilters.Return VNull) h1); [|done].
  erewrite try_catch_Throw; [reflexivity|].
  do 3 m_enter. cbv zeta. fold (mime_of h response). m_decode. cbv beta iota.
  rewrite ?bind_assoc. by apply bind_Throw.
Qed.

End generatePreview_cases.

(** ** [applyToResponse] on a response object *)

Section applyToResponse_facts.
Variable rt : runtime.

Lemma applyToResponse_denotes this response h p t :
  truthy response = true -> valid h response ->
  (if truthy (DataFilters.preview this)
   then DataFilters.generatePreview rt response
          (h ++ Obj (filtered_response this h response)
             :: fresh_headers this h response)
        = (Ret p, (h ++ Obj (filtered_response this h response)
                     :: fresh_headers this h response) ++ t)
   else p = VNull /\ t = []) ->
  DataFilters.applyToResponse rt this response h
  = (Ret (VRef (length h)),
     h ++ Obj (filtered_response this h response ++ [("preview", p)])
       :: fresh_headers this h response ++ t).
Proof.
  intros Ht Hv. pose proof (truthy_not_nullish _ Ht) as Hn.
  unfold DataFilters.applyToResponse, filtered_response, fresh_headers.
  rewrite Ht. cbn [negb]. do 9 m_get. m_alloc.
  destruct (truthy (DataFilters.headers this)); cbn [andb];
    [m_get; rewrite prop_app by done;
     destruct (truthy (prop h response "headers"))|];
    [|m_alloc; heap_norm; rewrite length_app, Nat.add_1_r
     |m_alloc; heap_norm; rewrite length_app, Nat.add_1_r];
    m_set_here; fields_norm;
    (destruct (truthy (DataFilters.response this));
     [do 3 (m_get; rewrite prop_app by done; m_set_here; fields_norm)
     |do 3 (m_set_here; fields_norm)]);
    (destruct (truthy (DataFilters.preview this));
     [intros Hp; rewrite ?bind_assoc; erewrite bind_Ret by exact Hp; heap_norm;
      m_set_here; fields_norm; reflexivity
     |intros [-> ->]; m_set_here; fields_norm; reflexivity]).
Qed.

End applyToResponse_facts.

(** ** The data filter engine: previews *)

(** C6: under a configuration whose raw-body toggle is off and whose
    preview toggle is on, [applyToResponse] on a response with body
    ["<html></html>"] and mime type ["text/html"] (not flagged as base64)
    yields [body = null], [preview.formatted = "<html></html>"] and
    [preview.type = "html"]: the preview is made from the raw body although
    the raw body itself is withheld. *)
Theorem applyToResponse_html_preview (rt : runtime) (this : DataFilters.t)
    (response : value) (h : list cell) :
  valid h response ->
  truthy (DataFilters.response this) = false ->
  truthy (DataFilters.preview this) = true ->
  prop h response "body" = VStr "<html></html>" ->
  prop h response "mimeType" = VStr "text/html" ->
  truthy (prop h response "base64Encoded") = false ->
  exists r h',
    DataFilters.applyToResponse rt this response h = (Ret r, h')
    /\ prop h' r "body" = VNull
    /\ prop h' (prop h' r "preview") "formatted" = VStr "<html></html>"
    /\ prop h' (prop h' r "preview") "type" = VStr "html".
Proof.
  intros Hv Hraw Hpre Hbody Hmime Henc.
  assert (Ht : truthy response = true).
  { destruct response; try done; by rewrite ?Hbody in *. }
  set (H := h ++ Obj (filtered_response this h response)
              :: fresh_headers this h response).
  assert (HvH : valid H response) by by apply valid_app.
  assert (Hp : DataFilters.generatePreview rt response H
               = (Ret (VRef (length H)),
                  H ++ [Obj [("formatted", VStr "<html></html>");
                             ("parsed", VNull); ("type", VStr "html")]])).
  { unfold H in *.
    apply (generatePreview_raw rt response _ Ht HvH) with (mime := "text/html").
    - by rewrite prop_app, Hbody.
    - unfold decoded_body. by rewrite !prop_app, Henc, Hbody.
    - unfold mime_of. by rewrite prop_app, Hmime.
    - done. }
  eexists _, _. split.
  { apply applyToResponse_denotes; [done..|]. rewrite Hpre. exact Hp. }
  rewrite !prop_here. unfold filtered_response. rewrite Hraw. cbn.
  split; [done|].
  rewrite app_comm_cons, app_assoc.
  rewrite !prop_last by (unfold H; by rewrite !length_app).
  done.
Qed.

Lemma applyToResponse_html_preview_witness :
  exists this h1 r h',
    DataFilters.constructor (VRef 0) html_scenario = (Ret this, h1)
    /\ DataFilters.applyToResponse example_runtime this (VRef 1) h1 = (Ret r, h')
    /\ prop h' r "body" = VNull
    /\ prop h' (prop h' r "preview") "formatted" = VStr "<html></html>"
    /\ prop h' (prop h' r "preview") "type" = VStr "html".
Proof.
  eexists _, _.
  destruct (applyToResponse_html_preview example_runtime
              {| DataFilters.headers := VBool true;
                 DataFilters.payload := VBool true;
                 DataFilters.preview := VBool true;
                 DataFilters.response := VBool false |}
              (VRef 1) html_scenario
              ltac:(simpl; lia) eq_refl eq_refl eq_refl eq_refl eq_refl)
    as (r & h' & Heq & Hb & Hf & Hty).
  exists r, h'. split; [reflexivity|]. by repeat split.
Defined.

(** C7: [generatePreview] returns normally on every input, in a heap
    that keeps every cell it started with.  On a response with a body:
    when base64 decoding throws, the preview is [null]; when the mime type
    contains "json" and the decoded body does not parse, the preview has
    type "text" and carries the decoded text; when it parses, the preview
    holds the parsed structure and its pretty-printed re-serialisation and
    has type "json"; and when anything else in the [try] block throws (a
    [mimeType] without an [includes] method), the preview is [null]. *)
Theorem generatePreview_never_throws (rt : runtime) (response : value)
    (h : list cell) :
  exists v h',
    DataFilters.generatePreview rt response h = (Ret v, h')
    /\ preserved h h'
    /\ (valid h response -> truthy response = true ->
        truthy (prop h response "body") = true ->
        let h1 := h ++ [Obj preview_init] in
        (decoded_body rt h response = None -> v = VNull)
        /\ (forall d mime,
              decoded_body rt h response = Some d ->
              mime_of h response = VStr mime ->
              is_json_mime mime = true ->
              (JSON_parse rt h1 d = None ->
               v = VRef (length h)
               /\ h' !! length h
                  = Some (Obj [("formatted", d); ("parsed", VNull);
                               ("type", VStr "text")]))
              /\ (forall j,
                    JSON_parse rt h1 d = Some j ->
                    exists parsed t,
                      alloc_json j h1 = (Ret parsed, h1 ++ t)
                      /\ v = VRef (length h)
                      /\ h' !! length h
                         = Some (Obj [("formatted",
                                       VStr (JSON_stringify rt
                                               (h ++ Obj [("formatted", VNull);
                                                          ("parsed", parsed);
                                                          ("type", VStr "text")]
                                                  :: t)
                                               parsed));
                                      ("parsed", parsed);
                                      ("type", VStr "json")])))
        /\ (forall e,
              js_includes (mime_of h response) "json" h1 = (Throw e, h1) ->
              v = VNull)).
Proof.
  destruct (generatePreview_appends rt response h) as (v & t & Heq).
  exists v, (h ++ t). split; [done|]. split; [apply preserved_app|].
  intros Hv Ht Hb h1. split; [|split].
  - intros Hd.
    rewrite (generatePreview_decode_fails rt response h Ht Hv Hb Hd) in Heq.
    by injection Heq.
  - intros d mime Hd Hm Hj. split.
    + intros Hp.
      rewrite (generatePreview_json_fallback rt response h Ht Hv Hb d mime
                 Hd Hm Hj Hp) in Heq.
      injection Heq as <- <-%app_inv_head. split; [done|].
      by rewrite lookup_app_here.
    + intros j Hp.
      destruct (alloc_json_appends j h1) as (parsed & t' & Ha).
      exists parsed, t'. split; [done|].
      rewrite (generatePreview_json rt response h Ht Hv Hb d mime j parsed t'
                 Hd Hm Hj Hp Ha) in Heq.
      injection Heq as <- <-%app_inv_head. split; [done|].
      by rewrite lookup_app_here.
  - intros e He.
    rewrite (generatePreview_includes_throws rt response h Ht Hv Hb e He) in Heq.
    by injection Heq.
Qed.

(** Each case of C7 occurs: with the example runtime, a numeric body
    flagged as base64 (the decoder throws), a JSON body that does not parse,
    one that does, and a numeric mime type. *)
Lemma generatePreview_cases_occur :
  (let h := [Obj [("body", VNum 7); ("base64Encoded", VBool true)]] in
   fst (DataFilters.generatePreview example_runtime (VRef 0) h) = Ret VNull)
  /\ (let h := [Obj [("body", VStr "{oops"); ("mimeType", VStr "application/json")]] in
      DataFilters.generatePreview example_runtime (VRef 0) h
      = (Ret (VRef 1),
         h ++ [Obj [("formatted", VStr "{oops"); ("parsed", VNull);
                    ("type", VStr "text")]]))
  /\ (let h := [Obj [("body", VStr "true"); ("mimeType", VStr "application/json")]] in
      DataFilters.generatePreview example_runtime (VRef 0) h
      = (Ret (VRef 1),
         h ++ [Obj [("formatted", VStr "true"); ("parsed", VBool true);
                    ("type", VStr "json")]]))
  /\ (let h := [Obj [("body", VStr "x"); ("mimeType", VNum 5)]] in
      fst (DataFilters.generatePreview example_runtime (VRef 0) h) = Ret VNull).
Proof. repeat split; by vm_compute. Qed.

(** ** The recording manager *)

#[local] Arguments RecordingManager.saveRequestResponse : simpl never.

Lemma lift_Ret {A} (m : M heap A) w a h' :
  m (mem w) = (Ret a, h') -> lift m w = (Ret a, set_mem h' w).
Proof. unfold lift. by intros ->. Qed.

Lemma lift_Throw {A} (m : M heap A) w e h' :
  m (mem w) = (Throw e, h') -> lift m w = (Throw e, set_mem h' w).
Proof. unfold lift. by intros ->. Qed.

Lemma set_mem_mem w : set_mem (mem w) w = w.
Proof. by destruct w. Qed.

Lemma lift_Ret_same {A} (m : M heap A) w a :
  m (mem w) = (Ret a, mem w) -> lift m w = (Ret a, w).
Proof. intros H. rewrite (lift_Ret _ _ _ _ H). by rewrite set_mem_mem. Qed.

Lemma lift_Throw_same {A} (m : M heap A) w e :
  m (mem w) = (Throw e, mem w) -> lift m w = (Throw e, w).
Proof. intros H. rewrite (lift_Throw _ _ _ _ H). by rewrite set_mem_mem. Qed.

Lemma get_state_eq {S} (s : S) : get_state s = (Ret s, s).
Proof. done. Qed.

Lemma modify_eq {S} (f : S -> S) s : modify f s = (Ret tt, f s).
Proof. done. Qed.

Lemma map_get_untracked k m : k ∉ map fst m -> map_get k m = VUndefined.
Proof.
  induction m as [|[k' v] m IH]; [done|]. cbn.
  intros [Hne Hk]%not_elem_of_cons. rewrite decide_False by done. by apply IH.
Qed.

Lemma map_get_set k v m : map_get k (map_set k v m) = v.
Proof.
  induction m as [|[k' v'] m IH]; cbn.
  - by rewrite decide_True.
  - destruct (decide (k = k')) as [->|Hne]; cbn.
    + by rewrite decide_True.
    + by rewrite decide_False.
Qed.

Lemma map_get_set_ne k k' v m :
  k <> k' -> map_get k (map_set k' v m) = map_get k m.
Proof.
  intros Hne. induction m as [|[k0 v0] m IH]; cbn.
  - by rewrite decide_False.
  - destruct (decide (k' = k0)) as [->|Hne0]; cbn.
    + by rewrite !decide_False.
    + destruct (decide (k = k0)); [done|apply IH].
Qed.

Lemma map_set_keys k v m :
  forall x, x ∈ map fst (map_set k v m) <-> x = k \/ x ∈ map fst m.
Proof.
  intros x. induction m as [|[k0 v0] m IH]; cbn.
  - rewrite elem_of_cons, elem_of_nil. tauto.
  - destruct (decide (k = k0)) as [->|Hne]; cbn.
    + rewrite !elem_of_cons. tauto.
    + rewrite !elem_of_cons, IH. tauto.
Qed.

(** ** Parts of the state a computation leaves alone *)

Lemma same_ret {X A} (f : world -> X) (a : A) : same f (ret a).
Proof. by intros w. Qed.

Lemma same_throw {X A} (f : world -> X) e : same f (throw e : M world A).
Proof. by intros w. Qed.

Lemma same_get_state {X} (f : world -> X) : same f get_state.
Proof. by intros w. Qed.

Lemma same_bind {X A B} (f : world -> X) (m : M world A) (k : A -> M world B) :
  same f m -> (forall a, same f (k a)) -> same f (bind m k).
Proof.
  intros Hm Hk w. unfold bind. specialize (Hm w).
  destruct (m w) as [[a|e] w1]; cbn in *; [|done].
  by rewrite Hk.
Qed.

Lemma same_lift {X A} (f : world -> X) (m : M heap A) :
  (forall h w, f (set_mem h w) = f w) -> same f (lift m).
Proof.
  intros Hf w. unfold lift. destruct (m (mem w)) as [o h]. cbn. apply Hf.
Qed.

Lemma same_modify {X} (f : world -> X) (g : world -> world) :
  (forall w, f (g w) = f w) -> same f (modify g).
Proof. intros Hf w. apply Hf. Qed.

Ltac same_step :=
  match goal with
  | |- forall _, _ => intro
  | |- same _ (ret _) => apply same_ret
  | |- same _ (throw _) => apply same_throw
  | |- same _ get_state => apply same_get_state
  | |- same _ (bind _ _) => apply same_bind
  | |- same _ (lift _) => apply same_lift; reflexivity
  | |- same _ (modify _) => apply same_modify; reflexivity
  | |- same _ (if ?b then _ else _) => destruct b
  | |- same _ (match ?d with _ => _ end) => destruct d
  end.

Lemma handleResponse_same_requestMap rt requestId response :
  same requestMap (RecordingManager.handleResponse rt requestId response).
Proof. unfold RecordingManager.handleResponse. repeat same_step. Qed.

Lemma handleRequestComplete_same_requestMap rt requestId bodyData :
  same requestMap (RecordingManager.handleRequestComplete rt requestId bodyData).
Proof.
  unfold RecordingManager.handleRequestComplete,
    RecordingManager.saveRequestResponse.
  repeat same_step.
Qed.

Lemma handleRequestFailed_same_requestMap requestId error :
  same requestMap (RecordingManager.handleRequestFailed requestId error).
Proof.
  unfold RecordingManager.handleRequestFailed,
    RecordingManager.saveRequestResponse.
  repeat same_step.
Qed.

Lemma setFilters_same_requestMap arg :
  same requestMap (RecordingManager.setFilters arg).
Proof. unfold RecordingManager.setFilters. repeat same_step. Qed.

Lemma setSession_requestMap sessionId filterOptions w :
  requestMap (snd (RecordingManager.setSession sessionId filterOptions w)) = [].
Proof.
  unfold RecordingManager.setSession.
  rewrite bind_Ret with (a := tt) (s' := set_currentSessionId sessionId w) by done.
  rewrite bind_Ret with (a := tt)
    (s' := set_requestMap [] (set_currentSessionId sessionId w)) by done.
  match goal with |- requestMap (snd (?m ?w0)) = _ =>
    assert (Hs : same requestMap m) by repeat same_step; by rewrite Hs end.
Qed.

(** [handleRequest] adds at most the entry of the request's own id. *)
Lemma handleRequest_tracks uuid createdAt request w x :
  valid (mem w) request ->
  tracked x (snd (RecordingManager.handleRequest uuid createdAt request w)) ->
  prop (mem w) request "requestId" = x \/ tracked x w.
Proof.
  intros Hv. unfold RecordingManager.handleRequest.
  rewrite (bind_Ret _ _ _ _ _ (get_state_eq w)).
  destruct (truthy (currentSessionId w)); cbn [negb]; [|by right].
  destruct (truthy request) eqn:Ht.
  - erewrite bind_Ret
      by (apply lift_Ret; by apply applyToRequest_denotes).
    set (w1 := set_mem _ w).
    assert (Hk : lift (getprop request "requestId") w1
                 = (Ret (prop (mem w) request "requestId"), w1)).
    { apply lift_Ret_same.
      rewrite getprop_prop by by apply truthy_not_nullish.
      unfold w1. cbn [mem set_mem]. by rewrite prop_app. }
    rewrite !(bind_Ret _ _ _ _ _ Hk).
    erewrite bind_Ret by (apply lift_Ret; apply alloc_eq).
    rewrite modify_eq. cbn [snd]. unfold tracked. cbn [requestMap set_requestMap set_mem].
    rewrite map_set_keys. intros [->|Hx]; [by left|by right].
  - assert (Ha : lift (DataFilters.applyToRequest (filters w) request) w
                 = (Ret VNull, w)).
    { apply lift_Ret_same.
      unfold DataFilters.applyToRequest. by rewrite Ht. }
    rewrite (bind_Ret _ _ _ _ _ Ha).
    destruct (nullish request) eqn:Hn.
    + rewrite bind_Throw with (e := TypeError) (s' := w); [by right|].
      apply lift_Throw_same. by destruct request.
    + assert (Hk : lift (getprop request "requestId") w
                   = (Ret (prop (mem w) request "requestId"), w)).
      { apply lift_Ret_same. by rewrite getprop_prop. }
      rewrite !(bind_Ret _ _ _ _ _ Hk).
      erewrite bind_Ret by (apply lift_Ret; apply alloc_eq).
      rewrite modify_eq. cbn [snd]. unfold tracked.
      cbn [requestMap set_requestMap set_mem].
      rewrite map_set_keys. intros [->|Hx]; [by left|by right].
Qed.

Lemma untracked_after_calls rt requestId w0 w :
  ~ tracked requestId w0 ->
  reached_without rt requestId w0 w ->
  ~ tracked requestId w.
Proof.
  intros H0 Hr. induction Hr as [|w1 c Hr IH Hv Hc]; [done|].
  unfold tracked in *. destruct c; cbn [exec call_in_heap requests] in *.
  - rewrite setSession_requestMap. apply not_elem_of_nil.
  - by rewrite setFilters_same_requestMap.
  - intros Ht. apply handleRequest_tracks in Ht as [Ht|Ht]; done.
  - by rewrite handleResponse_same_requestMap.
  - by rewrite handleRequestComplete_same_requestMap.
  - by rewrite handleRequestFailed_same_requestMap.
  - apply not_elem_of_nil.
Qed.

(** C4: when no [handleRequest] has been processed for a requestId (it
    had no entry in the request map to begin with and none of the calls
    made since was a [handleRequest] for it), [handleResponse] and
    [handleRequestComplete] for that requestId return normally and leave the
    whole state as it was: no record is created, the request map and the
    heap are unchanged, and nothing is handed to storage. *)
Theorem untracked_events_are_noops (rt : runtime) (w0 w : world)
    (requestId argument : value) :
  ~ tracked requestId w0 ->
  reached_without rt requestId w0 w ->
  RecordingManager.handleResponse rt requestId argument w = (Ret tt, w)
  /\ RecordingManager.handleRequestComplete rt requestId argument w = (Ret tt, w).
Proof.
  intros H0 Hr. pose proof (untracked_after_calls _ _ _ _ H0 Hr) as Hu.
  apply map_get_untracked in Hu.
  unfold RecordingManager.handleResponse, RecordingManager.handleRequestComplete.
  rewrite !(bind_Ret _ _ _ _ _ (get_state_eq w)). by rewrite Hu.
Qed.

Lemma untracked_events_are_noops_witness :
  let w0 := set_mem other_request_heap RecordingManager.constructor in
  let w := run example_runtime other_request_calls w0 in
  length (saved w) = 1
  /\ RecordingManager.handleResponse example_runtime (VStr "R9") (VRef 1) w
     = (Ret tt, w)
  /\ RecordingManager.handleRequestComplete example_runtime (VStr "R9") (VRef 1) w
     = (Ret tt, w).
Proof.
  intros w0 w. split; [by vm_compute|].
  apply (untracked_events_are_noops example_runtime w0 w (VStr "R9") (VRef 1)).
  - unfold tracked. cbn. apply not_elem_of_nil.
  - unfold w, other_request_calls. cbn [run].
    repeat (apply reached_step;
            [|vm_compute; first [exact I | lia]
             |vm_compute; first [tauto | discriminate]]).
    apply reached_start.
Defined.

(** ** Objects in the heap *)

Lemma is_object_valid h v : is_object h v -> valid h v.
Proof. intros (l & fs & -> & Hl). by apply lookup_lt_Some in Hl. Qed.

Lemma is_object_truthy h v : is_object h v -> truthy v = true.
Proof. by intros (l & fs & -> & Hl). Qed.

Lemma objects_kept_refl h : objects_kept h h.
Proof. by intros v. Qed.

Lemma objects_kept_trans h1 h2 h3 :
  objects_kept h1 h2 -> objects_kept h2 h3 -> objects_kept h1 h3.
Proof. intros H1 H2 v Hv. eauto. Qed.

Lemma objects_kept_app h t : objects_kept h (h ++ t).
Proof.
  intros v (l & fs & -> & Hl). exists l, fs. split; [done|].
  by apply lookup_app_l_Some.
Qed.

Lemma assoc_set_field k x fs : assoc k (set_field k x fs) = Some x.
Proof.
  induction fs as [|[k' v'] fs IH]; cbn.
  - by rewrite String.eqb_refl.
  - destruct (String.eqb k k') eqn:Hk; cbn; rewrite Hk; [done|apply IH].
Qed.

Lemma assoc_set_field_ne k j x fs :
  j <> k -> assoc j (set_field k x fs) = assoc j fs.
Proof.
  intros Hne. apply String.eqb_neq in Hne.
  induction fs as [|[k' v'] fs IH]; cbn.
  - by rewrite Hne.
  - destruct (String.eqb k k') eqn:Hk; cbn.
    + apply String.eqb_eq in Hk as ->. by rewrite Hne.
    + by rewrite IH.
Qed.

(** Assigning a property of an object: the effect, read through [prop]. *)
Lemma setprop_object h v k x :
  is_object h v ->
  exists h',
    setprop v k x h = (Ret tt, h')
    /\ objects_kept h h'
    /\ length h' = length h
    /\ prop h' v k = x
    /\ (forall u j, u <> v \/ j <> k -> prop h' u j = prop h u j).
Proof.
  intros (l & fs & -> & Hl). eexists. unfold setprop. rewrite Hl.
  split; [done|].
  assert (Hlt : l < length h) by by apply lookup_lt_Some in Hl.
  split; [|split; [|split]].
  - intros u (l' & fs' & -> & Hl'). destruct (decide (l' = l)) as [->|Hne].
    + eexists _, _. split; [done|]. by apply list_lookup_insert_eq.
    + exists l', fs'. split; [done|]. by rewrite list_lookup_insert_ne.
  - by rewrite length_insert.
  - unfold prop. rewrite list_lookup_insert_eq by done. cbn.
    by rewrite assoc_set_field.
  - intros u j Hne. unfold prop. destruct u as [| | | | |l']; try done.
    destruct (decide (l' = l)) as [->|Hl'].
    + rewrite list_lookup_insert_eq by done. rewrite Hl. cbn.
      rewrite assoc_set_field_ne; [done|]. by destruct Hne.
    + by rewrite list_lookup_insert_ne.
Qed.

Lemma prop_kept_app h t u j : valid h u -> prop (h ++ t) u j = prop h u j.
Proof. apply prop_app. Qed.

(** [applyToResponse], read through [prop]. *)
Lemma applyToResponse_object rt this response h :
  exists v h',
    DataFilters.applyToResponse rt this response h = (Ret v, h')
    /\ (if truthy response then is_object h' v else v = VNull)
    /\ objects_kept h h'
    /\ (forall u j, valid h u -> prop h' u j = prop h u j).
Proof.
  destruct (truthy response) eqn:Ht.
  - destruct (applyToResponse_appends rt this response h Ht) as (fs & t & ->).
    eexists _, _. split; [done|]. split; [|split].
    + exists (length h), fs. split; [done|]. by apply list_lookup_middle.
    + apply objects_kept_app.
    + intros u j Hu. by apply prop_app.
  - exists VNull, h. unfold DataFilters.applyToResponse. rewrite Ht. cbn.
    split; [done|]. split; [done|]. split; [apply objects_kept_refl|done].
Qed.

(** ** The terminal handlers, step by step *)

Ltac w_step H :=
  rewrite ?bind_assoc;
  erewrite bind_Ret by (apply lift_Ret; cbn [mem set_mem]; exact H).


Section handleRequestComplete_step.
Variable rt : runtime.

Lemma handleResponse_step requestId response w :
  let record := map_get requestId (requestMap w) in
  is_object (mem w) record ->
  exists h',
    RecordingManager.handleResponse rt requestId response w
    = (Ret tt, set_mem h' w)
    /\ objects_kept (mem w) h'
    /\ prop h' record "status" = VStr "response_received"
    /\ (if truthy response then is_object h' (prop h' record "response")
        else prop h' record "response" = VNull)
    /\ (forall u j, valid (mem w) u ->
                    u <> record \/ (j <> "response" /\ j <> "status") ->
                    prop h' u j = prop (mem w) u j).
Proof.
  intros record Ho. unfold RecordingManager.handleResponse.
  rewrite (bind_Ret _ _ _ _ _ (get_state_eq w)). fold record.
  rewrite (is_object_truthy _ _ Ho). cbn [negb].
  destruct (applyToResponse_object rt (filters w) response (mem w))
    as (v & h1 & He1 & Hv & Hk1 & Hf1).
  destruct (setprop_object h1 record "response" v (Hk1 _ Ho))
    as (h2 & He2 & Hk2 & _ & Hp2 & Hf2).
  destruct (setprop_object h2 record "status" (VStr "response_received")
              (Hk2 _ (Hk1 _ Ho)))
    as (h3 & He3 & Hk3 & _ & Hp3 & Hf3).
  w_step He1. w_step He2.
  assert (Hfin : lift (setprop record "status" (VStr "response_received"))
                   (set_mem h2 (set_mem h1 w)) = (Ret tt, set_mem h3 w)).
  { by erewrite lift_Ret by (cbn [mem set_mem]; exact He3). }
  rewrite Hfin.
  exists h3. split; [done|].
  split; [eauto using objects_kept_trans|]. split; [done|]. split.
  - rewrite Hf3 by (right; done). rewrite Hp2.
    destruct (truthy response); [by apply Hk3, Hk2|done].
  - intros u j Hu Hne. rewrite Hf3, Hf2, Hf1; [done|done|..]; destruct Hne; tauto.
Qed.

Lemma handleRequestComplete_step requestId bodyData w :
  let record := map_get requestId (requestMap w) in
  is_object (mem w) record ->
  prop (mem w) record "response" = VNull
  \/ (is_object (mem w) (prop (mem w) record "response")
      /\ nullish bodyData = false) ->
  exists h',
    RecordingManager.handleRequestComplete rt requestId bodyData w
    = (Ret tt, set_saved (saved w ++ [(record, h')]) (set_mem h' w))
    /\ objects_kept (mem w) h'
    /\ prop h' record "status" = VStr "completed"
    /\ (prop (mem w) record "response" = VNull ->
        prop h' record "response" = VNull)
    /\ (is_object (mem w) (prop (mem w) record "response") ->
        is_object h' (prop h' record "response"))
    /\ (forall u j,
          valid (mem w) u ->
          u <> record \/ (j <> "response" /\ j <> "status") ->
          u <> prop (mem w) record "response"
          \/ (j <> "body" /\ j <> "base64Encoded" /\ j <> "bodySize") ->
          prop h' u j = prop (mem w) u j).
Proof.
  intros record Ho Hr. unfold RecordingManager.handleRequestComplete.
  rewrite (bind_Ret _ _ _ _ _ (get_state_eq w)). fold record.
  rewrite (is_object_truthy _ _ Ho). cbn [negb].
  assert (Hrn : nullish record = false)
    by by apply truthy_not_nullish, (is_object_truthy (mem w)).
  w_step (getprop_prop record "response" (mem w) Hrn).
  rewrite set_mem_mem.
  destruct Hr as [Hr|Hr].
  - rewrite Hr. cbn [truthy]. rewrite bind_ret.
    destruct (setprop_object (mem w) record "status" (VStr "completed") Ho)
      as (h1 & He1 & Hk1 & _ & Hp1 & Hf1).
    w_step He1. exists h1. split; [done|]. split; [done|]. split; [done|].
    split; [|split].
    + intros _. rewrite Hf1 by (right; done). done.
    + intros Hc. by destruct Hc as (? & ? & ? & ?).
    + intros u j _ Hne _. rewrite Hf1; [done|]. destruct Hne; tauto.
  - destruct Hr as [Hr Hb].
    set (r := prop (mem w) record "response") in *.
    rewrite (is_object_truthy _ _ Hr).
    rewrite bind_assoc.
    w_step (getprop_prop record "response" (mem w) Hrn).
    rewrite set_mem_mem. fold r. rewrite ?bind_assoc.
    w_step (getprop_prop bodyData "body" (mem w) Hb). rewrite set_mem_mem.
    destruct (setprop_object (mem w) r "body" (prop (mem w) bodyData "body") Hr)
      as (h1 & He1 & Hk1 & Hl1 & Hp1 & Hf1).
    w_step He1. rewrite ?bind_assoc.
    assert (Hr1 : prop h1 record "response" = r).
    { rewrite Hf1 by (right; done). done. }
    assert (Hg1 : getprop record "response" h1 = (Ret r, h1)).
    { rewrite getprop_prop by done. by rewrite Hr1. }
    w_step Hg1. cbn [set_mem mem]. rewrite ?bind_assoc.
    w_step (getprop_prop bodyData "base64Encoded" h1 Hb).
    destruct (setprop_object h1 r "base64Encoded"
                (prop h1 bodyData "base64Encoded") (Hk1 _ Hr))
      as (h2 & He2 & Hk2 & Hl2 & Hp2 & Hf2).
    cbn [set_mem mem]. w_step He2. rewrite ?bind_assoc.
    assert (Hr2 : prop h2 record "response" = r).
    { rewrite Hf2 by (right; done). done. }
    assert (Hg2 : getprop record "response" h2 = (Ret r, h2)).
    { rewrite getprop_prop by done. by rewrite Hr2. }
    cbn [set_mem mem]. w_step Hg2. cbn [set_mem mem]. rewrite ?bind_assoc.
    w_step (getprop_prop bodyData "bodySize" h2 Hb).
    destruct (setprop_object h2 r "bodySize"
                (prop h2 bodyData "bodySize") (Hk2 _ (Hk1 _ Hr)))
      as (h3 & He3 & Hk3 & Hl3 & Hp3 & Hf3).
    cbn [set_mem mem]. w_step He3. rewrite ?bind_assoc.
    assert (Hr3 : prop h3 record "response" = r).
    { rewrite Hf3 by (right; done). done. }
    assert (Hg3 : getprop record "response" h3 = (Ret r, h3)).
    { rewrite getprop_prop by done. by rewrite Hr3. }
    cbn [set_mem mem]. w_step Hg3. cbn [set_mem mem]. rewrite ?bind_assoc.
    destruct (applyToResponse_object rt (filters w) r h3)
      as (v & h4 & He4 & Hv4 & Hk4 & Hf4).
    rewrite (is_object_truthy _ _ Hr) in Hv4.
    cbn [filters set_mem]. w_step He4. cbn [set_mem mem].
    assert (Ho3 : is_object h3 record) by by apply Hk3, Hk2, Hk1.
    destruct (setprop_object h4 record "response" v (Hk4 _ Ho3))
      as (h5 & He5 & Hk5 & Hl5 & Hp5 & Hf5).
    w_step He5. cbn [set_mem mem].
    destruct (setprop_object h5 record "status" (VStr "completed")
                (Hk5 _ (Hk4 _ Ho3)))
      as (h6 & He6 & Hk6 & Hl6 & Hp6 & Hf6).
    w_step He6. cbn [set_mem mem].
    exists h6. split; [done|].
    split; [eauto 10 using objects_kept_trans|]. split; [done|].
    split; [|split].
    + intros Hc. rewrite Hc in Hr. by destruct Hr as (? & ? & ? & ?).
    + intros _. rewrite Hf6 by (right; done). rewrite Hp5. by apply Hk6, Hk5.
    + intros u j Hu Hne1 Hne2.
      assert (Hu3 : valid h3 u).
      { destruct u; try done. unfold valid in *. by rewrite Hl3, Hl2, Hl1. }
      rewrite Hf6, Hf5, Hf4, Hf3, Hf2, Hf1; [done|..]; try done;
        destruct Hne1, Hne2; tauto.
Qed.

End handleRequestComplete_step.


(** ** The invariant of the request map *)

Lemma map_get_elem k m :
  map_get k m = VUndefined \/ (k, map_get k m) ∈ m.
Proof.
  induction m as [|[k' v] m IH]; [by left|]. cbn.
  destruct (decide (k = k')) as [->|Hne].
  - right. apply elem_of_cons. by left.
  - destruct IH as [IH|IH]; [by left|right]. apply elem_of_cons. by right.
Qed.


Lemma map_set_elem k x m k0 v0 :
  (k0, v0) ∈ map_set k x m -> v0 = x \/ (k0, v0) ∈ m.
Proof.
  induction m as [|[k' v'] m IH]; cbn.
  - intros [[= -> ->]|[]%elem_of_nil]%elem_of_cons. by left.
  - destruct (decide (k = k')) as [->|Hne].
    + intros [[= -> ->]|H]%elem_of_cons; [by left|].
      right. apply elem_of_cons. by right.
    + intros [[= -> ->]|H]%elem_of_cons.
      * right. apply elem_of_cons. by left.
      * destruct (IH H) as [->|H']; [by left|]. right. apply elem_of_cons. by right.
Qed.



Lemma applyToRequest_appends this request h :
  exists v t, DataFilters.applyToRequest this request h = (Ret v, h ++ t)
              /\ (if truthy request then is_object (h ++ t) v else v = VNull).
Proof.
  unfold DataFilters.applyToRequest.
  destruct (truthy request) eqn:Ht; cbn [negb];
    [|by exists VNull, []; rewrite app_nil_r].
  pose proof (truthy_not_nullish _ Ht) as Hn.
  do 9 m_get. m_alloc.
  match goal with
  | |- exists v t, ?m (h ++ [?c]) = _ /\ _ =>
      assert (Ha : above_ret h m (fun a => a = VRef (length h)))
  end.
  { repeat above_step. }
  match goal with
  | |- exists v t, ?m (h ++ [Obj ?c]) = _ /\ _ =>
      destruct (Ha c []) as (a & fs' & t' & -> & ->)
  end.
  eexists _, _. split; [done|]. exists (length h), fs'.
  split; [done|]. by apply list_lookup_middle.
Qed.










(** ** C1: handing records to storage *)





(** ** C2: one request in protocol order *)

Lemma handleRequest_step uuid createdAt request w :
  truthy (currentSessionId w) = true ->
  truthy request = true -> valid (mem w) request ->
  exists h' record,
    RecordingManager.handleRequest uuid createdAt request w
    = (Ret tt,
       set_requestMap
         (map_set (prop (mem w) request "requestId") record (requestMap w))
         (set_mem h' w))
    /\ is_object h' record
    /\ prop h' record "requestId" = prop (mem w) request "requestId"
    /\ is_object h' (prop h' record "request")
    /\ prop h' record "response" = VNull
    /\ prop h' record "status" = VStr "pending"
    /\ objects_kept (mem w) h'.
Proof.
  intros Hs Ht Hv. pose proof (truthy_not_nullish _ Ht) as Hn.
  unfold RecordingManager.handleRequest.
  rewrite (bind_Ret _ _ _ _ _ (get_state_eq w)). rewrite Hs. cbn [negb].
  w_step (applyToRequest_denotes (filters w) request (mem w) Ht Hv).
  set (h1 := mem w ++ filtered_request (filters w) (mem w) request).
  assert (Hk : getprop request "requestId" h1
               = (Ret (prop (mem w) request "requestId"), h1)).
  { rewrite getprop_prop by done. unfold h1. by rewrite prop_app. }
  w_step Hk. cbn [mem set_mem]. w_step Hk. cbn [mem set_mem].
  erewrite bind_Ret by (apply lift_Ret; apply alloc_eq).
  rewrite modify_eq. cbn [mem set_mem requestMap set_requestMap].
  eexists _, _. split; [reflexivity|].
  rewrite !prop_last by done. cbn.
  split; [|split; [done|split; [|split; [done|split; [done|]]]]].
  - eexists _, _. split; [done|]. by apply list_lookup_middle.
  - apply objects_kept_app. unfold h1, filtered_request.
    eexists _, _. split; [done|]. by apply list_lookup_middle.
  - eapply objects_kept_trans; apply objects_kept_app.
Qed.

(** C2: while a session is active, [handleRequest], [handleResponse]
    and [handleRequestComplete] for one requestId, in this order, all return
    normally and hand exactly one record to storage: the record of that
    requestId, with status "completed" and with a request snapshot and a
    response snapshot that are objects (not [null]). *)
Theorem protocol_order_stores_one_completed_record (rt : runtime) (w : world)
    (uuid createdAt : string) (request response bodyData requestId : value) :
  truthy (currentSessionId w) = true ->
  truthy request = true -> valid (mem w) request ->
  prop (mem w) request "requestId" = requestId ->
  truthy response = true ->
  nullish bodyData = false ->
  exists w' record,
    (RecordingManager.handleRequest uuid createdAt request ;;;
     RecordingManager.handleResponse rt requestId response ;;;
     RecordingManager.handleRequestComplete rt requestId bodyData) w
    = (Ret tt, w')
    /\ saved w' = saved w ++ [(record, mem w')]
    /\ map_get requestId (requestMap w') = record
    /\ prop (mem w') record "requestId" = requestId
    /\ prop (mem w') record "status" = VStr "completed"
    /\ is_object (mem w') (prop (mem w') record "request")
    /\ is_object (mem w') (prop (mem w') record "response").
Proof.
  intros Hs Ht Hv Hid Hresp Hb.
  destruct (handleRequest_step uuid createdAt request w Hs Ht Hv)
    as (h1 & record & He1 & Ho1 & Hid1 & Hreq1 & Hnull1 & _ & _).
  rewrite Hid in He1, Hid1.
  rewrite (bind_Ret _ _ _ _ _ He1).
  set (w1 := set_requestMap _ (set_mem h1 w)).
  assert (Hget : map_get requestId (requestMap w1) = record).
  { unfold w1. cbn [requestMap set_requestMap]. apply map_get_set. }
  assert (Ho1' : is_object (mem w1) (map_get requestId (requestMap w1))).
  { by rewrite Hget. }
  destruct (handleResponse_step rt requestId response w1 Ho1')
    as (h2 & He2 & Hk2 & _ & Hr2 & Hf2).
  rewrite Hget, Hresp in *. cbn [mem set_mem set_requestMap w1] in Hk2, Hf2.
  rewrite (bind_Ret _ _ _ _ _ He2).
  set (w2 := set_mem h2 w1).
  assert (Hget2 : map_get requestId (requestMap w2) = record) by done.
  assert (Ho2 : is_object (mem w2) (map_get requestId (requestMap w2))).
  { rewrite Hget2. by apply Hk2. }
  assert (Hr2' : prop (mem w2) (map_get requestId (requestMap w2)) "response"
                 = VNull
                 \/ (is_object (mem w2)
                       (prop (mem w2) (map_get requestId (requestMap w2))
                          "response")
                     /\ nullish bodyData = false)).
  { right. by rewrite Hget2. }
  destruct (handleRequestComplete_step rt requestId bodyData w2 Ho2 Hr2')
    as (h3 & He3 & Hk3 & Hst3 & _ & Hobj3 & Hf3).
  rewrite Hget2 in *. cbn [mem set_mem w2] in Hk3, Hobj3, Hf3.
  rewrite He3. eexists _, record.
  split; [reflexivity|]. cbn [saved mem set_saved set_mem requestMap].
  assert (Hv1 : valid h1 record) by by apply is_object_valid.
  assert (Hv2 : valid h2 record) by by apply is_object_valid, Hk2.
  assert (Hsame : forall j, j <> "response" -> j <> "status" ->
                            j <> "body" -> j <> "base64Encoded" ->
                            j <> "bodySize" ->
                            prop h3 record j = prop h1 record j).
  { intros j ?????. rewrite Hf3, Hf2; [done|done|..]; try done; right; done. }
  split; [done|]. split; [done|].
  split; [by rewrite Hsame|]. split; [done|]. split.
  - rewrite Hsame by done. by apply Hk3, Hk2.
  - by apply Hobj3.
Qed.

Lemma protocol_order_stores_one_completed_record_witness :
  saved scenario_world = []
  /\ exists w' record,
       (RecordingManager.handleRequest "id-1" "2024-01-01T00:00:00.000Z" (VRef 0) ;;;
        RecordingManager.handleResponse example_runtime (VStr "R1") (VRef 1) ;;;
        RecordingManager.handleRequestComplete example_runtime (VStr "R1") (VRef 2))
         scenario_world
       = (Ret tt, w')
       /\ saved w' = [(record, mem w')]
       /\ prop (mem w') record "status" = VStr "completed".
Proof.
  split; [reflexivity|].
  destruct (protocol_order_stores_one_completed_record example_runtime
              scenario_world "id-1" "2024-01-01T00:00:00.000Z"
              (VRef 0) (VRef 1) (VRef 2) (VStr "R1")
              eq_refl eq_refl ltac:(vm_compute; lia) eq_refl eq_refl eq_refl)
    as (w' & record & He & Hs & _ & _ & Hst & _).
  exists w', record. split; [exact He|]. split; [exact Hs|exact Hst].
Defined.

(** ** The event handler: query string *)

#[local] Arguments js_indexOf_question : simpl never.
#[local] Arguments js_substring_from : simpl never.

(** C8: on an initiation event whose request carries a string URL the
    query string is derived without an exception, and the heap is not
    touched.  When the URL parser accepts the URL, [queryString] is its
    query without the leading '?' ([null] when the parsed URL has no query);
    when the parser throws, [queryString] is what follows the first '?' of
    the raw URL ([null] when there is none): for "bad-url-no-scheme?q=5"
    that is "q=5". *)
Theorem extractQueryString_total (rt : runtime) (request : value)
    (h : list cell) (url : string) :
  nullish request = false ->
  prop h request "url" = VStr url ->
  exists q,
    EventHandler.extractQueryString rt request h = (Ret q, h)
    /\ (forall search,
          URL_search rt h (VStr url) = Some search ->
          q = if String.eqb search "" then VNull
              else VStr (str_substring_from 1 search))
    /\ (URL_search rt h (VStr url) = None ->
        q = match str_indexOf_question url with
            | Some i => VStr (str_substring_from (i + 1) url)
            | None => VNull
            end)
    /\ (URL_search rt h (VStr url) = None ->
        url = "bad-url-no-scheme?q=5" -> q = VStr "q=5").
Proof.
  intros Hn Hurl. unfold EventHandler.extractQueryString.
  assert (Hg : getprop request "url" h = (Ret (VStr url), h)).
  { rewrite getprop_prop by done. by rewrite Hurl. }
  destruct (URL_search rt h (VStr url)) as [search|] eqn:Hs.
  - eexists. split.
    + apply try_catch_Ret. rewrite (bind_Ret _ _ _ _ _ Hg).
      erewrite bind_Ret by (unfold js_URL_search; by rewrite Hs).
      reflexivity.
    + split; [|split; [done|done]].
      intros s [= <-]. cbn [truthy]. by destruct (String.eqb search "").
  - assert (Hq : exists q,
        (url <- getprop request "url" ;;
         queryIndex <- js_indexOf_question url ;;
         match queryIndex with
         | Some i => url <- getprop request "url" ;; js_substring_from url (i + 1)
         | None => ret VNull
         end) h = (Ret q, h)
        /\ q = match str_indexOf_question url with
               | Some i => VStr (str_substring_from (i + 1) url)
               | None => VNull
               end).
    { rewrite (bind_Ret _ _ _ _ _ Hg).
      rewrite bind_Ret with (a := str_indexOf_question url) (s' := h) by done.
      destruct (str_indexOf_question url) as [i|]; [|by eexists].
      rewrite (bind_Ret _ _ _ _ _ Hg). by eexists. }
    destruct Hq as (q & Hq & ->). eexists. split.
    + erewrite try_catch_Throw; [exact Hq|].
      rewrite (bind_Ret _ _ _ _ _ Hg). apply bind_Throw.
      unfold js_URL_search. by rewrite Hs.
    + split; [done|]. split; [done|]. by intros _ ->.
Qed.

Lemma extractQueryString_total_witness :
  (exists q,
     EventHandler.extractQueryString example_runtime (VRef 1) malformed_url_event
     = (Ret q, malformed_url_event)
     /\ q = VStr "q=5")
  /\ (let w := snd (EventHandler.handleRequestWillBeSent example_runtime 0
                      "id-2" "2024-01-01T00:00:00.000Z" (VRef 0)
                      (set_mem malformed_url_event scenario_world)) in
      prop (mem w)
        (prop (mem w) (map_get (VStr "R2") (pendingRequests w)) "request")
        "queryString" = VStr "q=5").
Proof.
  split; [|by vm_compute].
  destruct (extractQueryString_total example_runtime (VRef 1) malformed_url_event
              "bad-url-no-scheme?q=5" eq_refl eq_refl)
    as (q & He & _ & _ & Hq).
  exists q. split; [exact He|]. by apply Hq.
Defined.

(** ** The event handler: redirect chains *)

(** C3 does not hold of the code: after the initiation of "1" and the
    redirected initiation of "2", all four handlers having returned
    normally, the redirect chain the event handler keeps for request "1" is
    still empty ([findOriginalRequest] looks for a chain that already
    contains "2" and finds none), and the one record handed to storage, that
    of request "1", has a request snapshot without any [redirectChain]. *)
Theorem redirect_chain_stays_empty :
  let w := snd redirect_run in
  let pending1 := map_get (VStr "1") (pendingRequests w) in
  fst redirect_run = Ret tt
  /\ array_items (mem w) (prop (mem w) (prop (mem w) pending1 "request")
                            "redirectChain")
     = Some []
  /\ (exists record h,
        saved w = [(record, h)]
        /\ prop h record "requestId" = VStr "1"
        /\ prop h record "status" = VStr "completed"
        /\ prop h (prop h record "request") "redirectChain" = VUndefined
        /\ ("redirectChain" ∉ own_keys h (prop h record "request"))).
Proof.
  split; [by vm_compute|]. split; [by vm_compute|].
  eexists _, _. split; [by vm_compute|].
  split; [by vm_compute|]. split; [by vm_compute|]. split; [by vm_compute|].
  vm_compute. intros Hin.
  repeat (apply elem_of_cons in Hin as [Hin|Hin]; [discriminate Hin|]).
  by apply elem_of_nil in Hin.
Qed.

(** ** Redirect chains in every state of the pipeline

    No assignment in the three classes writes a property named [request]
    or [redirectChain], and arrays are changed by [push] alone.  So the
    chains can be followed through every handler. *)

Lemma chains_kept_refl h : chains_kept h h.
Proof. split; [intros l fs Hl; by exists fs|done]. Qed.

Lemma chains_kept_trans h1 h2 h3 :
  chains_kept h1 h2 -> chains_kept h2 h3 -> chains_kept h1 h3.
Proof.
  intros [Ho1 Ha1] [Ho2 Ha2]. split.
  - intros l fs Hl. destruct (Ho1 l fs Hl) as (fs1 & Hl1 & Hr1 & Hc1).
    destruct (Ho2 l fs1 Hl1) as (fs2 & Hl2 & Hr2 & Hc2).
    exists fs2. split; [done|]. split; congruence.
  - intros l items Hl. eauto.
Qed.

Lemma chains_kept_app h t : chains_kept h (h ++ t).
Proof.
  split.
  - intros l fs Hl. exists fs. split; [by apply lookup_app_l_Some|done].
  - intros l items Hl. by apply lookup_app_l_Some.
Qed.

Lemma keeps_chains_ret {A} (a : A) : keeps_chains (ret a).
Proof. intros h. apply chains_kept_refl. Qed.

Lemma keeps_chains_throw {A} e : keeps_chains (throw e : M heap A).
Proof. intros h. apply chains_kept_refl. Qed.

Lemma keeps_chains_bind {A B} (m : M heap A) (k : A -> M heap B) :
  keeps_chains m -> (forall a, keeps_chains (k a)) -> keeps_chains (bind m k).
Proof.
  intros Hm Hk h. unfold bind. specialize (Hm h).
  destruct (m h) as [[a|e] h1]; [|done].
  eapply chains_kept_trans; [exact Hm|apply Hk].
Qed.

Lemma keeps_chains_try_catch {A} (m : M heap A) handler :
  keeps_chains m -> (forall e, keeps_chains (handler e)) ->
  keeps_chains (try_catch m handler).
Proof.
  intros Hm Hk h. unfold try_catch. specialize (Hm h).
  destruct (m h) as [[a|e] h1]; [done|].
  eapply chains_kept_trans; [exact Hm|apply Hk].
Qed.

Lemma keeps_chains_reads {A} (m : M heap A) : reads m -> keeps_chains m.
Proof. intros Hm h. rewrite Hm. apply chains_kept_refl. Qed.

Lemma reads_getprop v k : reads (getprop v k).
Proof.
  intros h. unfold getprop. destruct v; try done.
  by destruct (h !! l) as [[?|?]|].
Qed.

Lemma reads_getprop_opt v k : reads (getprop_opt v k).
Proof. destruct v; try done; apply reads_getprop. Qed.

Lemma reads_js_includes v x : reads (js_includes v x).
Proof.
  intros h. unfold js_includes. destruct v; try done.
  by destruct (h !! l) as [[?|?]|].
Qed.

Lemma reads_array_includes v x : reads (array_includes v x).
Proof.
  intros h. unfold array_includes. destruct v; try done.
  by destruct (h !! l) as [[?|?]|].
Qed.

Lemma reads_js_indexOf_question v : reads (js_indexOf_question v).
Proof.
  intros h. unfold js_indexOf_question. destruct v; try done.
  by destruct (h !! l) as [[?|?]|].
Qed.

Lemma reads_js_substring_from v n : reads (js_substring_from v n).
Proof. intros h. by destruct v. Qed.

Lemma reads_js_base64_decode rt v : reads (js_base64_decode rt v).
Proof. intros h. unfold js_base64_decode. by destruct (Buffer_from_base64 _ _ _). Qed.

Lemma reads_js_JSON_parse rt v : reads (js_JSON_parse rt v).
Proof. intros h. unfold js_JSON_parse. by destruct (JSON_parse _ _ _). Qed.

Lemma reads_js_JSON_stringify rt v : reads (js_JSON_stringify rt v).
Proof. done. Qed.

Lemma reads_js_URL_search rt v : reads (js_URL_search rt v).
Proof. intros h. unfold js_URL_search. by destruct (URL_search _ _ _). Qed.

Lemma keeps_chains_alloc c : keeps_chains (alloc c).
Proof. intros h. apply chains_kept_app. Qed.

Lemma keeps_chains_alloc_json j : keeps_chains (alloc_json j).
Proof.
  intros h. destruct (alloc_json_appends j h) as (v & t & ->).
  apply chains_kept_app.
Qed.

Lemma keeps_chains_setprop v k x :
  k <> "request" -> k <> "redirectChain" -> keeps_chains (setprop v k x).
Proof.
  intros Hk1 Hk2 h. unfold setprop. destruct v as [| | | | |l];
    try apply chains_kept_refl.
  destruct (h !! l) as [[fs|items]|] eqn:Hl; try apply chains_kept_refl.
  cbn [snd]. assert (Hlt : l < length h) by by apply lookup_lt_Some in Hl.
  split.
  - intros l' fs' Hl'. destruct (decide (l' = l)) as [->|Hne].
    + rewrite list_lookup_insert_eq by done. eexists. split; [done|].
      rewrite !assoc_set_field_ne by done. by simplify_eq.
    + rewrite list_lookup_insert_ne by done. by exists fs'.
  - intros l' items Hl'. destruct (decide (l' = l)) as [->|Hne].
    + by simplify_eq.
    + by rewrite list_lookup_insert_ne.
Qed.

Create HintDb chains.
#[local] Hint Resolve keeps_chains_ret keeps_chains_throw keeps_chains_alloc
  keeps_chains_alloc_json reads_getprop reads_getprop_opt reads_js_includes
  reads_array_includes reads_js_indexOf_question reads_js_substring_from
  reads_js_base64_decode reads_js_JSON_parse reads_js_JSON_stringify
  reads_js_URL_search : chains.

Ltac chains_step :=
  match goal with
  | |- forall _, _ => intro
  | |- keeps_chains (bind _ _) => apply keeps_chains_bind
  | |- keeps_chains (try_catch _ _) => apply keeps_chains_try_catch
  | |- keeps_chains (setprop _ _ _) => by apply keeps_chains_setprop
  | |- keeps_chains (if ?b then _ else _) => destruct b
  | |- keeps_chains (match ?d with _ => _ end) => destruct d
  | |- keeps_chains _ => solve [auto with chains]
  | |- keeps_chains _ => apply keeps_chains_reads; solve [auto with chains]
  end.

Lemma keeps_chains_applyToRequest this request :
  keeps_chains (DataFilters.applyToRequest this request).
Proof. unfold DataFilters.applyToRequest. repeat chains_step. Qed.

Lemma keeps_chains_generatePreview rt response :
  keeps_chains (DataFilters.generatePreview rt response).
Proof. unfold DataFilters.generatePreview. repeat chains_step. Qed.

Lemma keeps_chains_applyToResponse rt this response :
  keeps_chains (DataFilters.applyToResponse rt this response).
Proof.
  pose proof (keeps_chains_generatePreview rt).
  unfold DataFilters.applyToResponse. repeat chains_step.
Qed.

Lemma keeps_chains_constructor options :
  keeps_chains (DataFilters.constructor options).
Proof.
  unfold DataFilters.constructor, DataFilters.option_or_true.
  repeat chains_step.
Qed.

Lemma keeps_chains_extractQueryString rt request :
  keeps_chains (EventHandler.extractQueryString rt request).
Proof. unfold EventHandler.extractQueryString. repeat chains_step. Qed.

Lemma keeps_pending_ret {A} (a : A) : keeps_pending (ret a).
Proof. intros w. split; [apply chains_kept_refl|done]. Qed.

Lemma keeps_pending_throw {A} e : keeps_pending (throw e : M world A).
Proof. intros w. split; [apply chains_kept_refl|done]. Qed.

Lemma keeps_pending_get_state : keeps_pending get_state.
Proof. intros w. split; [apply chains_kept_refl|done]. Qed.

Lemma keeps_pending_bind {A B} (m : M world A) (k : A -> M world B) :
  keeps_pending m -> (forall a, keeps_pending (k a)) -> keeps_pending (bind m k).
Proof.
  intros Hm Hk w. unfold bind. destruct (Hm w) as [Hc Hp].
  destruct (m w) as [[a|e] w1]; [|done]. cbn [snd] in *.
  destruct (Hk a w1) as [Hc' Hp']. split; [|congruence].
  by eapply chains_kept_trans.
Qed.

Lemma keeps_pending_lift {A} (m : M heap A) :
  keeps_chains m -> keeps_pending (lift m).
Proof.
  intros Hm w. unfold lift. specialize (Hm (mem w)).
  by destruct (m (mem w)) as [o h].
Qed.

Lemma keeps_pending_modify (f : world -> world) :
  (forall w, mem (f w) = mem w) ->
  (forall w, pendingRequests (f w) = pendingRequests w) ->
  keeps_pending (modify f).
Proof.
  intros Hm Hp w. unfold modify. cbn [snd]. rewrite Hm, Hp.
  split; [apply chains_kept_refl|done].
Qed.

Create HintDb pending.
#[local] Hint Resolve keeps_pending_ret keeps_pending_throw
  keeps_pending_get_state keeps_chains_applyToRequest
  keeps_chains_applyToResponse keeps_chains_constructor
  keeps_chains_extractQueryString : pending.

Ltac pending_step :=
  match goal with
  | |- forall _, _ => intro
  | |- keeps_pending (bind _ _) => apply keeps_pending_bind
  | |- keeps_pending (lift _) => apply keeps_pending_lift
  | |- keeps_pending (modify _) => by apply keeps_pending_modify
  | |- keeps_pending (if ?b then _ else _) => destruct b
  | |- keeps_pending (match ?d with _ => _ end) => destruct d
  | |- keeps_pending _ => solve [auto with pending]
  | |- keeps_chains _ => solve [auto with pending]
  | |- keeps_chains _ => chains_step
  end.

Lemma keeps_pending_saveRequestResponse record :
  keeps_pending (RecordingManager.saveRequestResponse record).
Proof. unfold RecordingManager.saveRequestResponse. repeat pending_step. Qed.

Lemma keeps_pending_handleRequest uuid createdAt request :
  keeps_pending (RecordingManager.handleRequest uuid createdAt request).
Proof. unfold RecordingManager.handleRequest. repeat pending_step. Qed.

Lemma keeps_pending_handleResponse rt requestId response :
  keeps_pending (RecordingManager.handleResponse rt requestId response).
Proof. unfold RecordingManager.handleResponse. repeat pending_step. Qed.

Lemma keeps_pending_handleRequestComplete rt requestId bodyData :
  keeps_pending (RecordingManager.handleRequestComplete rt requestId bodyData).
Proof.
  pose proof keeps_pending_saveRequestResponse.
  unfold RecordingManager.handleRequestComplete. repeat pending_step.
Qed.

Lemma keeps_pending_handleRequestFailed requestId error :
  keeps_pending (RecordingManager.handleRequestFailed requestId error).
Proof.
  pose proof keeps_pending_saveRequestResponse.
  unfold RecordingManager.handleRequestFailed. repeat pending_step.
Qed.

Lemma keeps_pending_exec rt c : keeps_pending (exec rt c).
Proof.
  destruct c; cbn [exec].
  - unfold RecordingManager.setSession. repeat pending_step.
  - unfold RecordingManager.setFilters. repeat pending_step.
  - apply keeps_pending_handleRequest.
  - apply keeps_pending_handleResponse.
  - apply keeps_pending_handleRequestComplete.
  - apply keeps_pending_handleRequestFailed.
  - unfold RecordingManager.clear. repeat pending_step.
Qed.

Lemma keeps_pending_handleResponseReceived rt now params :
  keeps_pending (EventHandler.handleResponseReceived rt now params).
Proof.
  pose proof (keeps_pending_handleResponse rt).
  unfold EventHandler.handleResponseReceived. repeat pending_step.
Qed.

Lemma keeps_pending_handleLoadingFinished rt params :
  keeps_pending (EventHandler.handleLoadingFinished rt params).
Proof.
  pose proof (keeps_pending_handleRequestComplete rt).
  unfold EventHandler.handleLoadingFinished. repeat pending_step.
Qed.

Lemma keeps_pending_handleLoadingFailed params :
  keeps_pending (EventHandler.handleLoadingFailed params).
Proof.
  pose proof keeps_pending_handleRequestFailed.
  unfold EventHandler.handleLoadingFailed. repeat pending_step.
Qed.

Lemma chain_empty_kept h h' p :
  chains_kept h h' -> chain_empty h p -> chain_empty h' p.
Proof.
  intros [Ho Ha] (lp & fsp & lr & fsr & lc & -> & Hp & Hr & Hlr & Hc & Hlc).
  destruct (Ho _ _ Hp) as (fsp' & Hp' & Hr' & _).
  destruct (Ho _ _ Hlr) as (fsr' & Hlr' & _ & Hc').
  exists lp, fsp', lr, fsr', lc. rewrite Hr', Hc'. eauto 10.
Qed.

Lemma chains_empty_kept w w' :
  chains_kept (mem w) (mem w') -> pendingRequests w' = pendingRequests w ->
  chains_empty w -> chains_empty w'.
Proof.
  intros Hk Hp Hw k p Hin. rewrite Hp in Hin.
  eapply chain_empty_kept; [exact Hk|]. by apply (Hw k p).
Qed.

Lemma keeps_empty_pending {A} (m : M world A) : keeps_pending m -> keeps_empty m.
Proof. intros Hm w Hw. destruct (Hm w) as [Hc Hp]. by eapply chains_empty_kept. Qed.

Lemma keeps_empty_bind {A B} (m : M world A) (k : A -> M world B) :
  keeps_empty m -> (forall a, keeps_empty (k a)) -> keeps_empty (bind m k).
Proof.
  intros Hm Hk w Hw. unfold bind. specialize (Hm w Hw).
  destruct (m w) as [[a|e] w1]; [|done]. by apply Hk.
Qed.

(** With every chain empty, the search of [findOriginalRequest] finds
    nothing. *)
Lemma findOriginalRequest_loop_null requestId entries h :
  (forall k p, (k, p) ∈ entries -> chain_empty h p) ->
  EventHandler.findOriginalRequest_loop requestId entries h = (Ret VNull, h).
Proof.
  induction entries as [|[k p] entries IH]; intros Hall; [done|].
  destruct (Hall k p) as (lp & fsp & lr & fsr & lc & -> & Hp & Hr & Hlr & Hc & Hlc).
  { apply elem_of_cons. by left. }
  cbn [EventHandler.findOriginalRequest_loop].
  rewrite bind_Ret with (a := VRef lr) (s' := h)
    by (unfold getprop; by rewrite Hp, Hr).
  rewrite bind_Ret with (a := VRef lc) (s' := h)
    by (unfold getprop; by rewrite Hlr, Hc).
  rewrite bind_Ret with (a := false) (s' := h)
    by (unfold array_includes; rewrite Hlc; f_equal; f_equal;
        apply bool_decide_eq_false; apply not_elem_of_nil).
  apply IH. intros k' p' Hin. apply (Hall k' p'), elem_of_cons. by right.
Qed.

Lemma findOriginalRequest_null requestId w :
  chains_empty w ->
  EventHandler.findOriginalRequest requestId w = (Ret VNull, w).
Proof.
  intros Hw. unfold EventHandler.findOriginalRequest.
  rewrite (bind_Ret _ _ _ _ _ (get_state_eq w)).
  apply lift_Ret_same. by apply findOriginalRequest_loop_null.
Qed.

Lemma keeps_empty_handleRequestWillBeSent rt now uuid createdAt params :
  keeps_empty (EventHandler.handleRequestWillBeSent rt now uuid createdAt params).
Proof.
  unfold EventHandler.handleRequestWillBeSent.
  do 6 (apply keeps_empty_bind;
        [apply keeps_empty_pending; repeat pending_step|intro]).
  do 3 (apply keeps_empty_bind;
        [apply keeps_empty_pending; repeat pending_step|intro]).
  apply keeps_empty_bind;
    [apply keeps_empty_pending; repeat pending_step|intro].
  do 3 (apply keeps_empty_bind;
        [apply keeps_empty_pending; repeat pending_step|intro]).
  rename a into requestId, a0 into request, a1 into redirectResponse.
  intros w Hw.
  erewrite bind_Ret by (apply lift_Ret; apply alloc_eq).
  erewrite bind_Ret by (apply lift_Ret; apply alloc_eq).
  cbn [mem set_mem]. rewrite <- app_assoc. cbn [app].
  rewrite length_app. cbn [length]. rewrite Nat.add_1_r.
  match goal with
  | |- context [set_mem ?h (set_mem ?h0 w)] => set (h2 := h)
  end.
  set (w2 := set_mem h2 (set_mem _ w)).
  assert (Hk2 : chains_kept (mem w) h2) by apply chains_kept_app.
  assert (Hw2 : chains_empty w2) by by apply (chains_empty_kept w).
  assert (Hbranch :
    (if truthy redirectResponse
     then originalRequest <- EventHandler.findOriginalRequest requestId ;;
          (if truthy originalRequest
           then chain <- lift (getprop originalRequest "redirectChain") ;;
                lift (array_push chain requestId)
           else ret tt)
     else ret tt) w2 = (Ret tt, w2)).
  { destruct (truthy redirectResponse); [|done].
    by rewrite (bind_Ret _ _ _ _ _ (findOriginalRequest_null requestId w2 Hw2)). }
  rewrite (bind_Ret _ _ _ _ _ Hbranch).
  erewrite bind_Ret by (apply lift_Ret; apply alloc_eq).
  rewrite bind_Ret with (a := tt)
    (s' := set_pendingRequests
             (map_set requestId (VRef (length h2)) (pendingRequests w))
             (set_mem (h2 ++ [Obj [("request", VRef (S (length (mem w))));
                                   ("response", VNull); ("timing", VNull);
                                   ("error", VNull);
                                   ("status", VStr "pending")]]) w))
    by done.
  match goal with
  | |- chains_empty (snd (?m ?w0)) =>
      destruct (keeps_pending_handleRequest uuid createdAt
                  (VRef (S (length (mem w)))) w0) as [Hc Hp];
      set (w3 := w0) in *
  end.
  intros k p Hin. rewrite Hp in Hin. eapply chain_empty_kept; [exact Hc|].
  cbn [w3 pendingRequests set_pendingRequests set_mem mem] in *.
  apply map_set_elem in Hin as [->|Hin].
  - eexists (length h2), _, (S (length (mem w))), _, (length (mem w)).
    split; [done|]. split; [by apply list_lookup_middle|].
    split; [reflexivity|]. unfold h2.
    split; [|split].
    + rewrite <- app_assoc. rewrite lookup_app_r by lia.
      by replace (S (length (mem w)) - length (mem w)) with 1 by lia.
    + reflexivity.
    + rewrite <- app_assoc. by rewrite lookup_app_here.
  - eapply chain_empty_kept; [|by apply (Hw k p)].
    eapply chains_kept_trans; [exact Hk2|apply chains_kept_app].
Qed.

Lemma keeps_empty_deliver rt e : keeps_empty (deliver rt e).
Proof.
  destruct e; cbn [deliver].
  - apply keeps_empty_handleRequestWillBeSent.
  - apply keeps_empty_pending, keeps_pending_handleResponseReceived.
  - apply keeps_empty_pending, keeps_pending_handleLoadingFinished.
  - apply keeps_empty_pending, keeps_pending_handleLoadingFailed.
  - intros w _ k p Hin. by apply elem_of_nil in Hin.
  - apply keeps_empty_pending, keeps_pending_exec.
Qed.

(** X28: whatever events are delivered to a new event handler, in
    whatever order and with whatever payloads, every pending request keeps
    an empty redirect chain, and [findOriginalRequest] returns [null] for
    every requestId: the [push] of the redirect branch is never reached. *)
Lemma redirect_chains_always_empty (rt : runtime) (es : list event) (w0 : world) :
  pendingRequests w0 = [] ->
  let w := deliver_all rt es w0 in
  chains_empty w
  /\ forall requestId,
       EventHandler.findOriginalRequest requestId w = (Ret VNull, w).
Proof.
  intros H0.
  assert (Hall : forall es w, chains_empty w -> chains_empty (deliver_all rt es w)).
  { clear. induction es as [|e es IH]; intros w Hw; [done|].
    cbn. by apply IH, keeps_empty_deliver. }
  assert (Hw : chains_empty (deliver_all rt es w0)).
  { apply Hall. intros k p Hin. rewrite H0 in Hin. by apply elem_of_nil in Hin. }
  split; [done|]. intros requestId. by apply findOriginalRequest_null.
Qed.

(** * Further properties of the three classes *)

(** ** The data filter engine: the toggles *)

Lemma isValidFilter_names filterName :
  DataFilters.isValidFilter filterName = true <->
  exists name, filterName = VStr name /\ name ∈ filter_names.
Proof.
  unfold DataFilters.isValidFilter, filter_names. rewrite bool_decide_eq_true.
  rewrite !elem_of_cons, elem_of_nil. split.
  - intros [->|[->|[->|[->|[]]]]]; eexists; (split; [reflexivity|]);
      rewrite !elem_of_cons; tauto.
  - intros (name & -> & H). rewrite !elem_of_cons, elem_of_nil in H.
    destruct H as [->|[->|[->|[->|[]]]]]; tauto.
Qed.

Lemma get_set filterName v this :
  DataFilters.isValidFilter filterName = true ->
  DataFilters.get filterName (DataFilters.set filterName v this) = v.
Proof.
  intros (name & -> & H)%isValidFilter_names.
  unfold filter_names in H. rewrite !elem_of_cons, elem_of_nil in H.
  destruct H as [->|[->|[->|[->|[]]]]]; reflexivity.
Qed.

Lemma get_set_ne filterName other v this :
  other <> filterName ->
  DataFilters.get other (DataFilters.set filterName v this)
  = DataFilters.get other this.
Proof.
  intros Hne. unfold DataFilters.set.
  repeat (destruct (decide (filterName = _)) as [->|?];
          [unfold DataFilters.get; cbn;
           repeat (destruct (decide (other = _)) as [->|?]; try done)|]).
  done.
Qed.

Lemma applyToRequest_same_toggles f g request h :
  same_toggles f g ->
  DataFilters.applyToRequest f request h = DataFilters.applyToRequest g request h.
Proof.
  intros (Hh & Hp & _ & _). unfold DataFilters.applyToRequest.
  by rewrite Hh, Hp.
Qed.

Lemma applyToResponse_same_toggles rt f g response h :
  same_toggles f g ->
  DataFilters.applyToResponse rt f response h
  = DataFilters.applyToResponse rt g response h.
Proof.
  intros (Hh & _ & Hv & Hr). unfold DataFilters.applyToResponse.
  by rewrite Hh, Hv, Hr.
Qed.

(** X1: [enable] and [disable] turn the named toggle on and off, so that
    [isEnabled] then answers [true] and [false], and leave every other
    toggle alone; with a name that is not one of the four filter names all
    three mutators throw "Invalid filter name" and [isEnabled] answers
    [false] without throwing. *)
Theorem enable_disable_isEnabled (filterName other : value)
    (this : DataFilters.t) :
  if DataFilters.isValidFilter filterName then
    exists on off,
      DataFilters.enable filterName this = inr on
      /\ DataFilters.disable filterName this = inr off
      /\ DataFilters.isEnabled filterName on = VBool true
      /\ DataFilters.isEnabled filterName off = VBool false
      /\ (other <> filterName ->
          DataFilters.isEnabled other on = DataFilters.isEnabled other this
          /\ DataFilters.isEnabled other off = DataFilters.isEnabled other this)
  else
    DataFilters.enable filterName this
    = inl (DataFilters.InvalidFilterName filterName)
    /\ DataFilters.disable filterName this
       = inl (DataFilters.InvalidFilterName filterName)
    /\ DataFilters.toggle filterName this
       = inl (DataFilters.InvalidFilterName filterName)
    /\ DataFilters.isEnabled filterName this = VBool false.
Proof.
  unfold DataFilters.enable, DataFilters.disable, DataFilters.toggle.
  destruct (DataFilters.isValidFilter filterName) eqn:Hv.
  - eexists _, _. split; [reflexivity|]. split; [reflexivity|].
    unfold DataFilters.isEnabled. rewrite Hv, !get_set by done.
    split; [done|]. split; [done|]. intros Hne.
    by rewrite !get_set_ne.
  - unfold DataFilters.isEnabled. by rewrite Hv.
Qed.

(** X2: what the two filter functions do depends only on which toggles
    are truthy: a configuration built from options such as [1], ["yes"] or
    an object filters like one built from [true], and [0], [""] or [null]
    like [false]. *)
Theorem filtering_by_truthiness (rt : runtime) (f g : DataFilters.t) :
  same_toggles f g ->
  (forall request h,
     DataFilters.applyToRequest f request h
     = DataFilters.applyToRequest g request h)
  /\ (forall response h,
        DataFilters.applyToResponse rt f response h
        = DataFilters.applyToResponse rt g response h).
Proof.
  intros H. split.
  - intros request h. by apply applyToRequest_same_toggles.
  - intros response h. by apply applyToResponse_same_toggles.
Qed.

(** X3: [toggle] negates the named toggle, and toggling twice restores
    the behaviour of both filter functions (the toggle itself comes back as
    a boolean, whatever it was). *)
Theorem toggle_twice (rt : runtime) (filterName : value) (this : DataFilters.t)
    (v : value) (h : list cell) :
  match DataFilters.toggle filterName this with
  | inr once =>
      DataFilters.isEnabled filterName once
      = VBool (negb (truthy (DataFilters.isEnabled filterName this)))
      /\ exists twice,
           DataFilters.toggle filterName once = inr twice
           /\ DataFilters.isEnabled filterName twice
              = VBool (truthy (DataFilters.isEnabled filterName this))
           /\ DataFilters.applyToRequest twice v h
              = DataFilters.applyToRequest this v h
           /\ DataFilters.applyToResponse rt twice v h
              = DataFilters.applyToResponse rt this v h
  | inl e => DataFilters.isValidFilter filterName = false
  end.
Proof.
  unfold DataFilters.toggle, DataFilters.isEnabled.
  destruct (DataFilters.isValidFilter filterName) eqn:Hv; [|done].
  rewrite !get_set by done. split; [done|].
  eexists. split; [reflexivity|]. rewrite get_set by done.
  cbn [truthy]. rewrite negb_involutive. split; [done|].
  assert (Hs : same_toggles
                 (DataFilters.set filterName
                    (VBool (truthy (DataFilters.get filterName this)))
                    (DataFilters.set filterName
                       (VBool (negb (truthy (DataFilters.get filterName this))))
                       this))
                 this).
  { destruct (isValidFilter_names filterName) as [Hn _].
    destruct (Hn Hv) as (name & -> & H).
    unfold filter_names in H. rewrite !elem_of_cons, elem_of_nil in H.
    destruct H as [->|[->|[->|[->|[]]]]]; cbn; by repeat split. }
  split.
  - by apply applyToRequest_same_toggles.
  - by apply applyToResponse_same_toggles.
Qed.

Lemma setFilters_each_reads filters ks this h :
  nullish filters = false ->
  DataFilters.setFilters_each filters ks this h
  = (Ret (fold_left (assign_known h filters) ks this), h).
Proof.
  intros Hn. revert this. induction ks as [|key ks IH]; intros this; [done|].
  cbn [DataFilters.setFilters_each fold_left]. unfold assign_known at 2.
  destruct (DataFilters.isValidFilter (VStr key)); [|apply IH].
  m_get. apply IH.
Qed.

Lemma get_assign_known h filters name ks this :
  name ∈ filter_names ->
  DataFilters.get (VStr name) (fold_left (assign_known h filters) ks this)
  = if bool_decide (name ∈ ks) then prop h filters name
    else DataFilters.get (VStr name) this.
Proof.
  intros Hname.
  assert (Hv : DataFilters.isValidFilter (VStr name) = true).
  { apply isValidFilter_names. by exists name. }
  revert this. induction ks as [|key ks IH]; intros this; [done|].
  cbn [fold_left]. rewrite IH. unfold assign_known.
  destruct (decide (name = key)) as [<-|Hne].
  - rewrite Hv, get_set by done.
    rewrite (bool_decide_eq_true_2 (name ∈ name :: ks))
      by (apply elem_of_cons; by left).
    by destruct (bool_decide (name ∈ ks)).
  - assert (Hiff : name ∈ key :: ks <-> name ∈ ks).
    { rewrite elem_of_cons. tauto. }
    rewrite (bool_decide_ext _ _ Hiff).
    destruct (bool_decide (name ∈ ks)); [done|].
    destruct (DataFilters.isValidFilter (VStr key)); [|done].
    apply get_set_ne. congruence.
Qed.

(** X4: [setFilters] called with a configuration object takes over
    exactly the toggles that are own properties of that object, with the
    values found there, ignores every other property, leaves the remaining
    toggles as they were, and changes nothing in the heap. *)
Theorem setFilters_known_keys (filters : value) (this : DataFilters.t)
    (h : list cell) :
  is_object h filters ->
  exists this',
    DataFilters.setFilters filters this h = (Ret this', h)
    /\ forall name, name ∈ filter_names ->
         DataFilters.get (VStr name) this'
         = if bool_decide (name ∈ own_keys h filters)
           then prop h filters name
           else DataFilters.get (VStr name) this.
Proof.
  intros (l & fs & -> & Hl). eexists. split.
  - unfold DataFilters.setFilters.
    rewrite bind_Ret with (a := keys fs) (s' := h)
      by (unfold js_Object_keys; by rewrite Hl).
    by apply setFilters_each_reads.
  - intros name Hname. rewrite get_assign_known by done.
    unfold own_keys. by rewrite Hl.
Qed.

Lemma setFilters_known_keys_witness :
  let h := [Obj [("payload", VBool false); ("verbose", VBool true)]] in
  exists this',
    DataFilters.setFilters (VRef 0) DataFilters.default h = (Ret this', h)
    /\ DataFilters.get (VStr "payload") this' = VBool false
    /\ DataFilters.get (VStr "headers") this' = VBool true.
Proof.
  intros h.
  destruct (setFilters_known_keys (VRef 0) DataFilters.default h)
    as (this' & He & Hget).
  { by exists 0, [("payload", VBool false); ("verbose", VBool true)]. }
  exists this'. split; [exact He|]. split.
  - rewrite Hget by (apply list_elem_of_In; cbn; tauto). reflexivity.
  - rewrite Hget by (apply list_elem_of_In; cbn; tauto). reflexivity.
Defined.

Lemma filtering_by_truthiness_witness :
  let f := {| DataFilters.headers := VNum 1; DataFilters.payload := VStr "yes";
              DataFilters.preview := VNull; DataFilters.response := VNum 0 |} in
  let g := {| DataFilters.headers := VBool true; DataFilters.payload := VBool true;
              DataFilters.preview := VBool false;
              DataFilters.response := VBool false |} in
  DataFilters.applyToRequest f (VRef 0) sample_request
  = DataFilters.applyToRequest g (VRef 0) sample_request
  /\ DataFilters.applyToResponse example_runtime f (VRef 1) html_scenario
     = DataFilters.applyToResponse example_runtime g (VRef 1) html_scenario.
Proof.
  intros f g.
  destruct (filtering_by_truthiness example_runtime f g) as [Hq Hp].
  { by repeat split. }
  split; [apply Hq|apply Hp].
Defined.

(** X5: the copy that [getFilters] and [toJSON] return is a fresh
    object with the four toggles; [setFilters] on that copy turns any other
    configuration into this one, and [fromJSON] rebuilds this one from it
    except that a toggle holding [undefined] comes back as [true]. *)
Theorem filters_round_trip (this other : DataFilters.t) (h : list cell) :
  exists copy h',
    DataFilters.getFilters this h = (Ret copy, h')
    /\ DataFilters.toJSON this h = (Ret copy, h')
    /\ copy = VRef (length h) /\ h' = h ++ [Obj [("headers", DataFilters.headers this);
                                                  ("payload", DataFilters.payload this);
                                                  ("preview", DataFilters.preview this);
                                                  ("response", DataFilters.response this)]]
    /\ DataFilters.setFilters copy other h' = (Ret this, h')
    /\ DataFilters.fromJSON copy h'
       = (Ret {| DataFilters.headers := or_true (DataFilters.headers this);
                 DataFilters.payload := or_true (DataFilters.payload this);
                 DataFilters.preview := or_true (DataFilters.preview this);
                 DataFilters.response := or_true (DataFilters.response this) |},
          h').
Proof.
  eexists _, _. split; [reflexivity|]. split; [reflexivity|].
  split; [reflexivity|]. split; [reflexivity|]. split.
  - unfold DataFilters.setFilters.
    erewrite bind_Ret
      by (unfold js_Object_keys; rewrite lookup_app_here; reflexivity).
    rewrite setFilters_each_reads by done.
    cbn [keys map fst fold_left]. unfold assign_known.
    rewrite !prop_here. destruct this, other. reflexivity.
  - unfold DataFilters.fromJSON, DataFilters.constructor,
      DataFilters.option_or_true.
    rewrite decide_False by done. rewrite bind_ret.
    do 4 (m_get; m_ret). rewrite !prop_here. reflexivity.
Qed.

(** X6: a configuration that is [null].  [new DataFilters(null)] and
    [DataFilters.setFilters(null)] throw a TypeError, hence so does
    [RecordingManager.setFilters(null)], which leaves the manager as it was;
    [setSession(id, null)] does not throw and keeps the filters in place. *)
Theorem null_configuration (this : DataFilters.t) (h : list cell) (w : world)
    (sessionId : value) :
  DataFilters.constructor VNull h = (Throw TypeError, h)
  /\ DataFilters.setFilters VNull this h = (Throw TypeError, h)
  /\ DataFilters.setFilters VUndefined this h = (Throw TypeError, h)
  /\ RecordingManager.setFilters (inr VNull) w = (Throw TypeError, w)
  /\ (exists w',
        RecordingManager.setSession sessionId VNull w = (Ret tt, w')
        /\ filters w' = filters w
        /\ currentSessionId w' = sessionId).
Proof.
  split; [done|]. split; [done|]. split; [done|]. split.
  - unfold RecordingManager.setFilters.
    apply bind_Throw. by apply lift_Throw_same.
  - eexists. split; [reflexivity|]. done.
Qed.

(** ** The data filter engine: [applyToResponse] on every response *)

(** The preview attached by [applyToResponse], whatever it is. *)
Lemma applyToResponse_shape rt this response h :
  truthy response = true -> valid h response ->
  exists p t,
    DataFilters.applyToResponse rt this response h
    = (Ret (VRef (length h)),
       h ++ Obj (filtered_response this h response ++ [("preview", p)])
         :: fresh_headers this h response ++ t)
    /\ (truthy (DataFilters.preview this) = false -> p = VNull)
    /\ (truthy (prop h response "body") = false -> p = VNull).
Proof.
  intros Ht Hv.
  destruct (truthy (DataFilters.preview this)) eqn:Hp.
  - set (H := h ++ Obj (filtered_response this h response)
                :: fresh_headers this h response).
    destruct (generatePreview_appends rt response H) as (p & t & Hg).
    exists p, t. split.
    + apply applyToResponse_denotes; [done..|]. by rewrite Hp.
    + split; [done|]. intros Hb.
      unfold DataFilters.generatePreview in Hg. rewrite Ht in Hg.
      cbn [negb] in Hg.
      rewrite (bind_Ret _ _ _ _ _
                 (getprop_prop response "body" H (truthy_not_nullish _ Ht)))
        in Hg.
      unfold H in Hg at 1. rewrite prop_app in Hg by done.
      rewrite Hb in Hg. cbn [negb] in Hg. by injection Hg.
  - exists VNull, []. split; [|done].
    apply applyToResponse_denotes; [done..|]. by rewrite Hp.
Qed.

(** X7: on every response object and under every filter configuration
    [applyToResponse] returns a fresh object with exactly fourteen own
    properties: the nine structural fields, copied from the input, and
    [headers], [body], [base64Encoded], [bodySize] and [preview]; anything
    else the input carries is dropped, and the input is left as it was. *)
Theorem applyToResponse_whitelist (rt : runtime) (this : DataFilters.t)
    (response : value) (h : list cell) :
  truthy response = true -> valid h response ->
  exists r h',
    DataFilters.applyToResponse rt this response h = (Ret r, h')
    /\ r = VRef (length h)
    /\ own_keys h' r
       = response_fields
         ++ ["headers"; "body"; "base64Encoded"; "bodySize"; "preview"]
    /\ (forall k, k ∈ response_fields -> prop h' r k = prop h response k)
    /\ preserved h h'
    /\ (forall k, prop h' response k = prop h response k).
Proof.
  intros Ht Hv.
  destruct (applyToResponse_shape rt this response h Ht Hv)
    as (p & t & He & _).
  eexists _, _. split; [exact He|]. split; [done|].
  rewrite own_keys_here. split; [done|]. split; [|split].
  - intros k Hk. rewrite prop_here. unfold response_fields in Hk.
    repeat (apply elem_of_cons in Hk as [->|Hk]; [done|]).
    by apply elem_of_nil in Hk.
  - apply preserved_app.
  - intros k. by apply prop_app.
Qed.

(** X8: what the toggles do to a response.  [headers] is the input's
    headers object when the headers toggle is on and the input has headers,
    and a fresh empty object otherwise; [body], [base64Encoded] and
    [bodySize] are the input's when the response toggle is on and the value
    is truthy, and [null], [false] and [0] otherwise; [preview] is [null]
    when the preview toggle is off, and also when the input has no body. *)
Theorem applyToResponse_toggles (rt : runtime) (this : DataFilters.t)
    (response : value) (h : list cell) :
  truthy response = true -> valid h response ->
  exists r h',
    DataFilters.applyToResponse rt this response h = (Ret r, h')
    /\ (if truthy (DataFilters.headers this) && truthy (prop h response "headers")
        then prop h' r "headers" = prop h response "headers"
        else exists l, prop h' r "headers" = VRef l
                       /\ length h <= l /\ h' !! l = Some (Obj []))
    /\ (let raw k := truthy (DataFilters.response this)
                     && truthy (prop h response k) in
        prop h' r "body" = (if raw "body" then prop h response "body" else VNull)
        /\ prop h' r "base64Encoded"
           = (if raw "base64Encoded" then prop h response "base64Encoded"
              else VBool false)
        /\ prop h' r "bodySize"
           = (if raw "bodySize" then prop h response "bodySize" else VNum 0))
    /\ (truthy (DataFilters.preview this) = false -> prop h' r "preview" = VNull)
    /\ (truthy (prop h response "body") = false -> prop h' r "preview" = VNull).
Proof.
  intros Ht Hv.
  destruct (applyToResponse_shape rt this response h Ht Hv)
    as (p & t & He & Hoff & Hnobody).
  eexists _, _. split; [exact He|].
  rewrite !prop_here. unfold filtered_response, fresh_headers. cbn.
  split; [|split; [|split]].
  - destruct (truthy (DataFilters.headers this) && truthy (prop h response "headers"));
      [done|].
    exists (S (length h)). split; [done|]. split; [lia|].
    rewrite lookup_app_r by lia.
    by replace (S (length h) - length h) with 1 by lia.
  - unfold js_or. destruct (truthy (DataFilters.response this)); cbn [andb];
      [|done].
    by destruct (truthy (prop h response "body")),
         (truthy (prop h response "base64Encoded")),
         (truthy (prop h response "bodySize")).
  - intros Hp. by rewrite Hoff.
  - intros Hb. by rewrite Hnobody.
Qed.

Lemma applyToResponse_whitelist_witness :
  exists r h',
    DataFilters.applyToResponse example_runtime DataFilters.default (VRef 1)
      html_scenario = (Ret r, h')
    /\ own_keys h' r
       = response_fields
         ++ ["headers"; "body"; "base64Encoded"; "bodySize"; "preview"]
    /\ preserved html_scenario h'.
Proof.
  destruct (applyToResponse_whitelist example_runtime DataFilters.default
              (VRef 1) html_scenario eq_refl ltac:(simpl; lia))
    as (r & h' & He & _ & Hk & _ & Hp & _).
  by exists r, h'.
Defined.

Lemma applyToResponse_toggles_witness :
  let this := {| DataFilters.headers := VBool false;
                 DataFilters.payload := VBool true;
                 DataFilters.preview := VBool false;
                 DataFilters.response := VBool true |} in
  exists r h',
    DataFilters.applyToResponse example_runtime this (VRef 1) html_scenario
    = (Ret r, h')
    /\ prop h' r "body" = VStr "<html></html>"
    /\ prop h' r "bodySize" = VNum 0
    /\ prop h' r "preview" = VNull.
Proof.
  intros this.
  destruct (applyToResponse_toggles example_runtime this (VRef 1) html_scenario
              eq_refl ltac:(simpl; lia))
    as (r & h' & He & _ & (Hb & _ & Hz) & Hp & _).
  exists r, h'. split; [exact He|]. split; [exact Hb|].
  split; [exact Hz|]. by apply Hp.
Defined.

Lemma js_or_idem v d : js_or (js_or v d) d = js_or v d.
Proof. unfold js_or. destruct (truthy v) eqn:Hv; [by rewrite Hv|]. by destruct (truthy d). Qed.

(** X9: filtering what has been filtered.  Applying a filter function
    again, under the same configuration, to its own result (as
    [handleRequestComplete] does with the response) returns a new object
    with the same structural fields and the same [postData], respectively
    [body], [base64Encoded] and [bodySize]; its [headers] is the same object
    when the headers toggle is on. *)
Theorem filters_idempotent (rt : runtime) (this : DataFilters.t)
    (v : value) (h : list cell) :
  truthy v = true -> valid h v ->
  (exists r1 h1 r2 h2,
     DataFilters.applyToRequest this v h = (Ret r1, h1)
     /\ DataFilters.applyToRequest this r1 h1 = (Ret r2, h2)
     /\ r2 <> r1
     /\ (forall k, k ∈ structural_fields ++ ["postData"] ->
                   prop h2 r2 k = prop h1 r1 k)
     /\ (truthy (DataFilters.headers this) = true ->
         prop h2 r2 "headers" = prop h1 r1 "headers"))
  /\ (exists r1 h1 r2 h2,
        DataFilters.applyToResponse rt this v h = (Ret r1, h1)
        /\ DataFilters.applyToResponse rt this r1 h1 = (Ret r2, h2)
        /\ r2 <> r1
        /\ (forall k, k ∈ response_fields
                          ++ ["body"; "base64Encoded"; "bodySize"] ->
                      prop h2 r2 k = prop h1 r1 k)
        /\ (truthy (DataFilters.headers this) = true ->
            prop h2 r2 "headers" = prop h1 r1 "headers")).
Proof.
  intros Ht Hv. split.
  - pose proof (applyToRequest_denotes this v h Ht Hv) as He1.
    set (h1 := h ++ filtered_request this h v) in *.
    assert (Hv1 : valid h1 (VRef (length h))).
    { unfold valid, h1, filtered_request. rewrite length_app. cbn. lia. }
    pose proof (applyToRequest_denotes this (VRef (length h)) h1 eq_refl Hv1)
      as He2.
    assert (Hin : forall k,
              prop h1 (VRef (length h)) k
              = default VUndefined
                  (assoc k [("requestId", prop h v "requestId");
                            ("url", prop h v "url");
                            ("method", prop h v "method");
                            ("resourceType", prop h v "resourceType");
                            ("referrer", prop h v "referrer");
                            ("queryString", prop h v "queryString");
                            ("initiator", prop h v "initiator");
                            ("frameId", prop h v "frameId");
                            ("timestamp", prop h v "timestamp");
                            ("headers",
                             if truthy (DataFilters.headers this)
                                && truthy (prop h v "headers")
                             then prop h v "headers" else VRef (S (length h)));
                            ("postData",
                             if truthy (DataFilters.payload this)
                             then js_or (prop h v "postData") VNull
                             else VNull)])).
    { intros k. unfold h1, filtered_request. by rewrite (prop_here h). }
    eexists _, _, _, _. split; [exact He1|]. split; [exact He2|].
    split.
    { intros [= Hl]. unfold h1, filtered_request in Hl.
      rewrite length_app in Hl. cbn in Hl. lia. }
    unfold filtered_request at 1. split.
    + intros k Hk. rewrite (prop_here h1). unfold structural_fields in Hk.
      cbn [app] in Hk.
      repeat (apply elem_of_cons in Hk as [->|Hk]; [cbn; try done|]).
      * rewrite Hin. cbn.
        destruct (truthy (DataFilters.payload this)); [|done].
        apply js_or_idem.
      * by apply elem_of_nil in Hk.
    + intros Hh. unfold filtered_request. rewrite (prop_here h1). cbn.
      rewrite Hh. cbn [andb].
      assert (Hobj : truthy (prop h1 (VRef (length h)) "headers") = true).
      { rewrite Hin. cbn. rewrite Hh.
        cbn [andb]. by destruct (truthy (prop h v "headers")) eqn:Hd. }
      by rewrite Hobj.
  - destruct (applyToResponse_shape rt this v h Ht Hv) as (p1 & t1 & He1 & _).
    match type of He1 with _ = (_, ?x) => set (h1 := x) in * end.
    assert (Hv1 : valid h1 (VRef (length h))).
    { unfold valid, h1. rewrite length_app. cbn. lia. }
    destruct (applyToResponse_shape rt this (VRef (length h)) h1 eq_refl Hv1)
      as (p2 & t2 & He2 & _).
    assert (Hin : forall k,
              prop h1 (VRef (length h)) k
              = default VUndefined
                  (assoc k (filtered_response this h v ++ [("preview", p1)]))).
    { intros k. unfold h1. by rewrite (prop_here h). }
    eexists _, _, _, _. split; [exact He1|]. split; [exact He2|].
    split.
    { intros [= Hl]. unfold h1 in Hl. rewrite length_app in Hl. cbn in Hl. lia. }
    split.
    + intros k Hk. rewrite (prop_here h1). unfold response_fields in Hk.
      cbn [app] in Hk. unfold filtered_response at 1.
      repeat (apply elem_of_cons in Hk as [->|Hk];
              [cbn;
               first [done
                     |rewrite Hin; unfold filtered_response; cbn;
                      destruct (truthy (DataFilters.response this)); [|done];
                      apply js_or_idem]|]).
      by apply elem_of_nil in Hk.
    + intros Hh. rewrite (prop_here h1). unfold filtered_response at 1. cbn.
      rewrite Hh. cbn [andb].
      assert (Hobj : truthy (prop h1 (VRef (length h)) "headers") = true).
      { rewrite Hin. unfold filtered_response. cbn. rewrite Hh.
        cbn [andb]. by destruct (truthy (prop h v "headers")) eqn:Hd. }
      by rewrite Hobj.
Qed.

(** X10: a body whose mime type does not mention "json" is previewed
    verbatim: [formatted] is the decoded body, [parsed] stays [null], and
    [type] is the first of "xml", "html", "css", "javascript" (also for
    "ecmascript") whose name occurs in the mime type, in this order, and
    "text" when none does or when the response has no mime type.  So
    "application/xhtml+xml" is previewed as xml, not as html. *)
Theorem generatePreview_plain_types (rt : runtime) (response : value)
    (h : list cell) (d : value) (mime : string) :
  valid h response ->
  truthy (prop h response "body") = true ->
  decoded_body rt h response = Some d ->
  mime_of h response = VStr mime ->
  is_json_mime mime = false ->
  exists p h',
    DataFilters.generatePreview rt response h = (Ret p, h')
    /\ preserved h h'
    /\ own_keys h' p = ["formatted"; "parsed"; "type"]
    /\ prop h' p "formatted" = d
    /\ prop h' p "parsed" = VNull
    /\ prop h' p "type" = VStr (raw_preview_type mime)
    /\ (str_includes mime "xml" = true -> prop h' p "type" = VStr "xml")
    /\ (truthy (prop h response "mimeType") = false ->
        prop h' p "type" = VStr "text").
Proof.
  intros Hv Hb Hd Hm Hj.
  assert (Ht : truthy response = true).
  { destruct response; try done. }
  eexists _, _. split.
  { by apply (generatePreview_raw rt response h Ht Hv Hb d mime). }
  split; [apply preserved_app|].
  rewrite own_keys_here, !prop_here. cbn.
  split; [done|]. split; [done|]. split; [done|]. split; [done|]. split.
  - intros Hx. unfold raw_preview_type. by rewrite Hx.
  - intros Hno. unfold mime_of, js_or in Hm. rewrite Hno in Hm.
    by injection Hm as <-.
Qed.

Lemma generatePreview_plain_types_witness :
  let h := [Obj [("body", VStr "<html/>");
                 ("mimeType", VStr "application/xhtml+xml")]] in
  exists p h',
    DataFilters.generatePreview example_runtime (VRef 0) h = (Ret p, h')
    /\ prop h' p "formatted" = VStr "<html/>"
    /\ prop h' p "type" = VStr "xml".
Proof.
  intros h.
  destruct (generatePreview_plain_types example_runtime (VRef 0) h
              (VStr "<html/>") "application/xhtml+xml"
              ltac:(simpl; lia) eq_refl eq_refl eq_refl eq_refl)
    as (p & h' & He & _ & _ & Hf & _ & _ & Hx & _).
  exists p, h'. split; [exact He|]. split; [exact Hf|]. by apply Hx.
Defined.

Lemma filters_idempotent_witness :
  exists r1 h1 r2 h2,
    DataFilters.applyToResponse example_runtime DataFilters.default (VRef 1)
      html_scenario = (Ret r1, h1)
    /\ DataFilters.applyToResponse example_runtime DataFilters.default r1 h1
       = (Ret r2, h2)
    /\ prop h2 r2 "body" = prop h1 r1 "body"
    /\ prop h1 r1 "body" = VStr "<html></html>".
Proof.
  destruct (filters_idempotent example_runtime DataFilters.default (VRef 1)
              html_scenario eq_refl ltac:(simpl; lia))
    as [_ (r1 & h1 & r2 & h2 & He1 & He2 & _ & Hk & _)].
  exists r1, h1, r2, h2. split; [exact He1|]. split; [exact He2|]. split.
  - apply Hk. apply list_elem_of_In. cbn. tauto.
  - vm_compute in He1. injection He1 as <- <-. reflexivity.
Defined.

Section fields_kept_facts.
Variable K : list string.

Lemma fields_kept_refl h : fields_kept K h h.
Proof. intros l fs Hl. by exists fs. Qed.

Lemma fields_kept_trans h1 h2 h3 :
  fields_kept K h1 h2 -> fields_kept K h2 h3 -> fields_kept K h1 h3.
Proof.
  intros H1 H2 l fs Hl. destruct (H1 l fs Hl) as (fs1 & Hl1 & Hk1).
  destruct (H2 l fs1 Hl1) as (fs2 & Hl2 & Hk2).
  exists fs2. split; [done|]. intros k Hk. by rewrite Hk2, Hk1.
Qed.

Lemma fields_kept_app h t : fields_kept K h (h ++ t).
Proof.
  intros l fs Hl. exists fs. split; [by apply lookup_app_l_Some|done].
Qed.

Lemma keeps_fields_ret {A} (a : A) : keeps_fields K (ret a).
Proof. intros h. apply fields_kept_refl. Qed.

Lemma keeps_fields_throw {A} e : keeps_fields K (throw e : M heap A).
Proof. intros h. apply fields_kept_refl. Qed.

Lemma keeps_fields_bind {A B} (m : M heap A) (k : A -> M heap B) :
  keeps_fields K m -> (forall a, keeps_fields K (k a)) ->
  keeps_fields K (bind m k).
Proof.
  intros Hm Hk h. unfold bind. specialize (Hm h).
  destruct (m h) as [[a|e] h1]; [|done].
  eapply fields_kept_trans; [exact Hm|apply Hk].
Qed.

Lemma keeps_fields_try_catch {A} (m : M heap A) handler :
  keeps_fields K m -> (forall e, keeps_fields K (handler e)) ->
  keeps_fields K (try_catch m handler).
Proof.
  intros Hm Hk h. unfold try_catch. specialize (Hm h).
  destruct (m h) as [[a|e] h1]; [done|].
  eapply fields_kept_trans; [exact Hm|apply Hk].
Qed.

Lemma keeps_fields_reads {A} (m : M heap A) : reads m -> keeps_fields K m.
Proof. intros Hm h. rewrite Hm. apply fields_kept_refl. Qed.

Lemma keeps_fields_alloc c : keeps_fields K (alloc c).
Proof. intros h. apply fields_kept_app. Qed.

Lemma keeps_fields_alloc_json j : keeps_fields K (alloc_json j).
Proof.
  intros h. destruct (alloc_json_appends j h) as (v & t & ->).
  apply fields_kept_app.
Qed.

Lemma keeps_fields_setprop v k x :
  bool_decide (k ∈ K) = false -> keeps_fields K (setprop v k x).
Proof.
  intros Hk%bool_decide_eq_false h. unfold setprop.
  destruct v as [| | | | |l]; try apply fields_kept_refl.
  destruct (h !! l) as [[fs|items]|] eqn:Hl; try apply fields_kept_refl.
  cbn [snd]. assert (Hlt : l < length h) by by apply lookup_lt_Some in Hl.
  intros l' fs' Hl'. destruct (decide (l' = l)) as [->|Hne].
  - rewrite list_lookup_insert_eq by done. eexists. split; [done|].
    intros j Hj. simplify_eq. apply assoc_set_field_ne. by intros ->.
  - rewrite list_lookup_insert_ne by done. by exists fs'.
Qed.

Lemma keeps_fields_array_push a x : keeps_fields K (array_push a x).
Proof.
  intros h. unfold array_push.
  destruct a as [| | | | |l]; try apply fields_kept_refl.
  destruct (h !! l) as [[fs|items]|] eqn:Hl; try apply fields_kept_refl.
  cbn [snd]. intros l' fs' Hl'. exists fs'. split; [|done].
  rewrite list_lookup_insert_ne; [done|]. intros ->. by simplify_eq.
Qed.

Lemma keeps_fields_in_ret {A} (a : A) : keeps_fields_in K (ret a).
Proof. intros w. apply fields_kept_refl. Qed.

Lemma keeps_fields_in_throw {A} e : keeps_fields_in K (throw e : M world A).
Proof. intros w. apply fields_kept_refl. Qed.

Lemma keeps_fields_in_get_state : keeps_fields_in K get_state.
Proof. intros w. apply fields_kept_refl. Qed.

Lemma keeps_fields_in_bind {A B} (m : M world A) (k : A -> M world B) :
  keeps_fields_in K m -> (forall a, keeps_fields_in K (k a)) ->
  keeps_fields_in K (bind m k).
Proof.
  intros Hm Hk w. unfold bind. specialize (Hm w).
  destruct (m w) as [[a|e] w1]; [|done]. cbn [snd] in *.
  eapply fields_kept_trans; [exact Hm|apply Hk].
Qed.

Lemma keeps_fields_in_lift {A} (m : M heap A) :
  keeps_fields K m -> keeps_fields_in K (lift m).
Proof.
  intros Hm w. unfold lift. specialize (Hm (mem w)).
  by destruct (m (mem w)) as [o h].
Qed.

Lemma keeps_fields_in_modify (f : world -> world) :
  (forall w, mem (f w) = mem w) -> keeps_fields_in K (modify f).
Proof. intros Hm w. unfold modify. cbn [snd]. rewrite Hm. apply fields_kept_refl. Qed.

End fields_kept_facts.

Create HintDb fields.
#[local] Hint Resolve keeps_fields_ret keeps_fields_throw keeps_fields_alloc
  keeps_fields_alloc_json keeps_fields_array_push
  keeps_fields_in_ret keeps_fields_in_throw keeps_fields_in_get_state
  reads_getprop reads_getprop_opt reads_js_includes
  reads_array_includes reads_js_indexOf_question reads_js_substring_from
  reads_js_base64_decode reads_js_JSON_parse reads_js_JSON_stringify
  reads_js_URL_search : fields.

Ltac fields_step :=
  match goal with
  | |- forall _, _ => intro
  | |- keeps_fields _ (bind _ _) => apply keeps_fields_bind
  | |- keeps_fields _ (try_catch _ _) => apply keeps_fields_try_catch
  | |- keeps_fields _ (setprop _ _ _) => by apply keeps_fields_setprop
  | |- keeps_fields_in _ (bind _ _) => apply keeps_fields_in_bind
  | |- keeps_fields_in _ (lift _) => apply keeps_fields_in_lift
  | |- keeps_fields_in _ (modify _) => by apply keeps_fields_in_modify
  | |- keeps_fields _ (if ?b then _ else _) => destruct b
  | |- keeps_fields _ (match ?d with _ => _ end) => destruct d
  | |- keeps_fields_in _ (if ?b then _ else _) => destruct b
  | |- keeps_fields_in _ (match ?d with _ => _ end) => destruct d
  | |- keeps_fields _ _ => solve [auto with fields]
  | |- keeps_fields_in _ _ => solve [auto with fields]
  | |- keeps_fields _ _ => apply keeps_fields_reads; solve [auto with fields]
  end.

Lemma keeps_identity_applyToRequest this request :
  keeps_fields identity_fields (DataFilters.applyToRequest this request).
Proof. unfold DataFilters.applyToRequest. repeat fields_step. Qed.

Lemma keeps_identity_generatePreview rt response :
  keeps_fields identity_fields (DataFilters.generatePreview rt response).
Proof. unfold DataFilters.generatePreview. repeat fields_step. Qed.

Lemma keeps_identity_applyToResponse rt this response :
  keeps_fields identity_fields (DataFilters.applyToResponse rt this response).
Proof.
  pose proof (keeps_identity_generatePreview rt).
  unfold DataFilters.applyToResponse. repeat fields_step.
Qed.

Lemma keeps_identity_constructor options :
  keeps_fields identity_fields (DataFilters.constructor options).
Proof.
  unfold DataFilters.constructor, DataFilters.option_or_true.
  repeat fields_step.
Qed.

Lemma reads_findOriginalRequest_loop requestId entries :
  reads (EventHandler.findOriginalRequest_loop requestId entries).
Proof.
  induction entries as [|[id pending] entries IH]; [done|].
  intros h. cbn [EventHandler.findOriginalRequest_loop]. unfold bind.
  pose proof (reads_getprop pending "request" h) as H1.
  destruct (getprop pending "request" h) as [[request|e] h1]; cbn in H1; subst;
    [|done].
  pose proof (reads_getprop request "redirectChain" h) as H2.
  destruct (getprop request "redirectChain" h) as [[chain|e] h1]; cbn in H2;
    subst; [|done].
  pose proof (reads_array_includes chain requestId h) as H3.
  destruct (array_includes chain requestId h) as [[found|e] h1]; cbn in H3;
    subst; [|done].
  destruct found; [apply reads_getprop|apply IH].
Qed.

#[local] Hint Resolve keeps_identity_applyToRequest
  keeps_identity_applyToResponse keeps_identity_constructor
  reads_findOriginalRequest_loop : fields.

Lemma keeps_identity_saveRequestResponse record :
  keeps_fields_in identity_fields (RecordingManager.saveRequestResponse record).
Proof. unfold RecordingManager.saveRequestResponse. repeat fields_step. Qed.

Lemma keeps_identity_exec rt c : keeps_fields_in identity_fields (exec rt c).
Proof.
  pose proof keeps_identity_saveRequestResponse.
  destruct c; cbn [exec];
    unfold RecordingManager.setSession, RecordingManager.setFilters,
      RecordingManager.handleRequest, RecordingManager.handleResponse,
      RecordingManager.handleRequestComplete,
      RecordingManager.handleRequestFailed, RecordingManager.clear;
    repeat fields_step.
Qed.

Lemma keeps_identity_deliver rt e : keeps_fields_in identity_fields (deliver rt e).
Proof.
  pose proof keeps_identity_saveRequestResponse.
  destruct e; cbn [deliver]; [..|apply keeps_identity_exec];
    unfold EventHandler.handleRequestWillBeSent,
      EventHandler.handleResponseReceived, EventHandler.handleLoadingFinished,
      EventHandler.handleLoadingFailed, EventHandler.clear,
      EventHandler.findOriginalRequest, EventHandler.extractQueryString,
      RecordingManager.handleRequest, RecordingManager.handleResponse,
      RecordingManager.handleRequestComplete,
      RecordingManager.handleRequestFailed;
    repeat fields_step.
Qed.

Section keeps_facts.
Context (P : world -> Prop).

Lemma keeps_ret {A} (a : A) : keeps P (ret a).
Proof. by intros w. Qed.

Lemma keeps_throw {A} e : keeps P (throw e : M world A).
Proof. by intros w. Qed.

Lemma keeps_get_state : keeps P get_state.
Proof. by intros w. Qed.

Lemma keeps_bind {A B} (m : M world A) (k : A -> M world B) :
  keeps P m -> (forall a, keeps P (k a)) -> keeps P (bind m k).
Proof.
  intros Hm Hk w Hw. unfold bind. specialize (Hm w Hw).
  destruct (m w) as [[a|e] w1]; [|done]. by apply Hk.
Qed.

(** After [get_state] the continuation runs in the state it was given. *)
Lemma keeps_bind_get_state {B} (k : world -> M world B) :
  (forall w, P w -> P (snd (k w w))) -> keeps P (bind get_state k).
Proof. intros Hk w Hw. by apply Hk. Qed.

Lemma keeps_modify (f : world -> world) :
  (forall w, P w -> P (f w)) -> keeps P (modify f).
Proof. intros Hf w Hw. by apply Hf. Qed.

End keeps_facts.

(** ** What is handed to storage, and when *)

Lemma stores_at_most_same {A} n (m : M world A) :
  same saved m -> stores_at_most n m.
Proof.
  intros Hm w. exists []. rewrite Hm, app_nil_r. split; [done|]. cbn. lia.
Qed.

Lemma stores_at_most_bind {A B} n (m : M world A) (k : A -> M world B) :
  same saved m -> (forall a, stores_at_most n (k a)) ->
  stores_at_most n (bind m k).
Proof.
  intros Hm Hk w. unfold bind. specialize (Hm w).
  destruct (m w) as [[a|e] w1]; cbn [snd] in *.
  - destruct (Hk a w1) as (new & Hs & Hl). exists new. by rewrite Hs, Hm.
  - exists []. rewrite Hm, app_nil_r. split; [done|]. cbn. lia.
Qed.

Lemma stores_at_most_save record :
  stores_at_most 1 (RecordingManager.saveRequestResponse record).
Proof. intros w. by exists [(record, mem w)]. Qed.

Ltac same_all := repeat first [same_step | solve [auto]].

Ltac stores_step :=
  match goal with
  | |- forall _, _ => intro
  | |- stores_at_most _ (RecordingManager.saveRequestResponse _) =>
      apply stores_at_most_save
  | |- stores_at_most _ (bind _ _) =>
      apply stores_at_most_bind; [solve [same_all]|]
  | |- stores_at_most _ (if ?b then _ else _) => destruct b
  | |- stores_at_most _ _ => solve [auto]
  | |- stores_at_most _ _ => apply stores_at_most_same; solve [same_all]
  end.

Lemma stores_handleRequestComplete rt requestId bodyData :
  stores_at_most 1 (RecordingManager.handleRequestComplete rt requestId bodyData).
Proof. unfold RecordingManager.handleRequestComplete. repeat stores_step. Qed.

Lemma stores_handleRequestFailed requestId error :
  stores_at_most 1 (RecordingManager.handleRequestFailed requestId error).
Proof. unfold RecordingManager.handleRequestFailed. repeat stores_step. Qed.

Lemma same_saved_handleRequest uuid createdAt request :
  same saved (RecordingManager.handleRequest uuid createdAt request).
Proof. unfold RecordingManager.handleRequest. repeat same_step. Qed.

Lemma same_saved_handleResponse rt requestId response :
  same saved (RecordingManager.handleResponse rt requestId response).
Proof. unfold RecordingManager.handleResponse. repeat same_step. Qed.

Lemma stores_deliver rt e :
  stores_at_most (if is_terminal e then 1 else 0) (deliver rt e).
Proof.
  destruct e as [now uuid createdAt params|now params|params|params| |c];
    cbn [deliver is_terminal].
  - apply stores_at_most_same.
    pose proof same_saved_handleRequest.
    unfold EventHandler.handleRequestWillBeSent,
      EventHandler.findOriginalRequest.
    same_all.
  - apply stores_at_most_same.
    pose proof (same_saved_handleResponse rt).
    unfold EventHandler.handleResponseReceived. same_all.
  - pose proof (stores_handleRequestComplete rt).
    unfold EventHandler.handleLoadingFinished. repeat stores_step.
  - pose proof stores_handleRequestFailed.
    unfold EventHandler.handleLoadingFailed. repeat stores_step.
  - apply stores_at_most_same. unfold EventHandler.clear. same_all.
  - destruct c; cbn [exec];
      [apply stores_at_most_same; unfold RecordingManager.setSession;
       same_all
      |apply stores_at_most_same; unfold RecordingManager.setFilters;
       same_all
      |apply stores_at_most_same, same_saved_handleRequest
      |apply stores_at_most_same, same_saved_handleResponse
      |apply stores_handleRequestComplete
      |apply stores_handleRequestFailed
      |apply stores_at_most_same; unfold RecordingManager.clear;
       same_all].
Qed.

(** X11: storage is append-only and fed by terminal events alone.
    Whatever events are delivered, the records already handed to storage stay
    as they are, and at most one record is added per [loadingFinished],
    [loadingFailed], [handleRequestComplete] or [handleRequestFailed]; no
    other event or call hands anything to storage. *)
Theorem storage_fed_by_terminal_events (rt : runtime) (es : list event)
    (w : world) :
  exists new,
    saved (deliver_all rt es w) = saved w ++ new
    /\ length new <= length (List.filter is_terminal es).
Proof.
  revert w. induction es as [|e es IH]; intros w.
  - exists []. by rewrite app_nil_r.
  - cbn [deliver_all List.filter].
    destruct (stores_deliver rt e w) as (new1 & Hs1 & Hl1).
    destruct (IH (snd (deliver rt e w))) as (new2 & Hs2 & Hl2).
    exists (new1 ++ new2). rewrite Hs2, Hs1, app_assoc. split; [done|].
    rewrite length_app. destruct (is_terminal e); cbn [length] in *; lia.
Qed.

(** ** Entries of the two maps *)

Lemma keeps_lift_mem (P : world -> Prop) {A} (m : M heap A) :
  (forall h w, P w -> P (set_mem h w)) -> keeps P (lift m).
Proof.
  intros HP w Hw. unfold lift. destruct (m (mem w)) as [o h]. by apply HP.
Qed.

(** [side] proves that the property survives an update of the state. *)
Ltac keeps_step side :=
  match goal with
  | |- forall _, _ => intro
  | |- keeps _ (ret _) => apply keeps_ret
  | |- keeps _ (throw _) => apply keeps_throw
  | |- keeps _ get_state => apply keeps_get_state
  | |- keeps _ (bind _ _) => apply keeps_bind
  | |- keeps _ (lift _) => apply keeps_lift_mem; solve [side]
  | |- keeps _ (modify _) => apply keeps_modify; solve [side]
  | |- keeps _ (if ?b then _ else _) => destruct b
  | |- keeps _ (match ?d with _ => _ end) => destruct d
  | |- keeps _ _ => solve [auto]
  end.

Lemma keeps_tracked_handleRequest x uuid createdAt request :
  keeps (tracked x) (RecordingManager.handleRequest uuid createdAt request).
Proof.
  unfold RecordingManager.handleRequest.
  repeat keeps_step
    ltac:(intros; unfold tracked in *; cbn [requestMap set_requestMap set_mem];
          rewrite ?map_set_keys; tauto).
Qed.

Lemma keeps_same {A} (P : world -> Prop) {X} (f : world -> X) (m : M world A) :
  (forall w w', f w' = f w -> P w -> P w') -> same f m -> keeps P m.
Proof. intros HP Hm w Hw. eapply HP; [apply Hm|done]. Qed.

Lemma keeps_tracked_same x {A} (m : M world A) :
  same requestMap m -> keeps (tracked x) m.
Proof. apply keeps_same. unfold tracked. by intros w w' ->. Qed.

Lemma same_requestMap_deliver rt e :
  match e with
  | RequestWillBeSent _ _ _ _ | Coordinator (HandleRequest _ _ _)
  | Coordinator (SetSession _ _) | Coordinator Clear => True
  | _ => same requestMap (deliver rt e)
  end.
Proof.
  pose proof (handleResponse_same_requestMap rt).
  pose proof (handleRequestComplete_same_requestMap rt).
  pose proof handleRequestFailed_same_requestMap.
  pose proof setFilters_same_requestMap.
  destruct e as [now uuid createdAt params|now params|params|params| |c];
    cbn [deliver]; try done.
  - unfold EventHandler.handleResponseReceived. same_all.
  - unfold EventHandler.handleLoadingFinished. same_all.
  - unfold EventHandler.handleLoadingFailed. same_all.
  - destruct c; cbn [exec]; auto.
Qed.

Lemma keeps_tracked_deliver rt e x :
  resets e = false -> keeps (tracked x) (deliver rt e).
Proof.
  intros Hr. pose proof (same_requestMap_deliver rt e) as Hs.
  destruct e as [now uuid createdAt params|now params|params|params| |c];
    try (by apply keeps_tracked_same).
  - cbn [deliver]. unfold EventHandler.handleRequestWillBeSent.
    pose proof (keeps_tracked_handleRequest x).
    assert (forall requestId,
              keeps (tracked x) (EventHandler.findOriginalRequest requestId)).
    { intros requestId. apply keeps_tracked_same.
      unfold EventHandler.findOriginalRequest. same_all. }
    repeat keeps_step ltac:(intros; unfold tracked in *; cbn; tauto).
  - destruct c; try done; try (by apply keeps_tracked_same).
    apply keeps_tracked_handleRequest.
Qed.

(** The keys of the event handler's [pendingRequests]. *)
Lemma keeps_pending_keys_deliver rt e x :
  e <> ClearPending ->
  keeps (fun w => x ∈ map fst (pendingRequests w)) (deliver rt e).
Proof.
  intros He.
  assert (Hp : forall {A} (m : M world A),
             keeps_pending m ->
             keeps (fun w => x ∈ map fst (pendingRequests w)) m).
  { intros A m Hm w Hw. destruct (Hm w) as [_ ->]. done. }
  destruct e as [now uuid createdAt params|now params|params|params| |c];
    cbn [deliver]; try done.
  - unfold EventHandler.handleRequestWillBeSent.
    assert (forall requestId,
              keeps (fun w => x ∈ map fst (pendingRequests w))
                (EventHandler.findOriginalRequest requestId)).
    { intros requestId. apply (keeps_same _ pendingRequests); [by intros ?? ->|].
      unfold EventHandler.findOriginalRequest. same_all. }
    pose proof (fun request =>
                  Hp _ _ (keeps_pending_handleRequest uuid createdAt request)).
    repeat keeps_step
      ltac:(intros; cbn [pendingRequests set_pendingRequests set_mem] in *;
            rewrite ?map_set_keys; tauto).
  - apply Hp, keeps_pending_handleResponseReceived.
  - apply Hp, keeps_pending_handleLoadingFinished.
  - apply Hp, keeps_pending_handleLoadingFailed.
  - apply Hp, keeps_pending_exec.
Qed.

(** X12: neither map ever loses an entry on its own.  An entry of the
    recording manager's request map stays until [setSession] or [clear] is
    called, and an entry of the event handler's pending requests stays until
    its [clear] is called: completed and failed requests are kept, and are
    only replaced by a later request with the same requestId. *)
Theorem entries_stay_until_reset (rt : runtime) (es : list event) (w : world)
    (x : value) :
  (Forall (fun e => resets e = false) es ->
   tracked x w -> tracked x (deliver_all rt es w))
  /\ (Forall (fun e => e <> ClearPending) es ->
      x ∈ map fst (pendingRequests w) ->
      x ∈ map fst (pendingRequests (deliver_all rt es w))).
Proof.
  split.
  - intros Hes. revert w. induction Hes as [|e es He Hes IH]; intros w Hw;
      [done|].
    cbn [deliver_all]. apply IH. by apply keeps_tracked_deliver.
  - intros Hes. revert w. induction Hes as [|e es He Hes IH]; intros w Hw;
      [done|].
    cbn [deliver_all]. apply IH. by apply (keeps_pending_keys_deliver rt e x).
Qed.

(** ** Without a session *)

Lemma no_session_handleRequest s uuid createdAt request w :
  no_session s w ->
  RecordingManager.handleRequest uuid createdAt request w = (Ret tt, w).
Proof.
  intros (Hs & _ & _). unfold RecordingManager.handleRequest.
  rewrite (bind_Ret _ _ _ _ _ (get_state_eq w)). by rewrite Hs.
Qed.

Lemma untracked_handlers rt requestId arg w :
  map_get requestId (requestMap w) = VUndefined ->
  RecordingManager.handleResponse rt requestId arg w = (Ret tt, w)
  /\ RecordingManager.handleRequestComplete rt requestId arg w = (Ret tt, w)
  /\ RecordingManager.handleRequestFailed requestId arg w = (Ret tt, w).
Proof.
  intros Hu.
  unfold RecordingManager.handleResponse, RecordingManager.handleRequestComplete,
    RecordingManager.handleRequestFailed.
  rewrite !(bind_Ret _ _ _ _ _ (get_state_eq w)). by rewrite Hu.
Qed.

Ltac no_session_side :=
  intros; match goal with H : no_session _ _ |- _ => destruct H as (? & ? & ?) end;
  by repeat split.

Lemma keeps_no_session_exec s rt c :
  starts_session (Coordinator c) = false -> keeps (no_session s) (exec rt c).
Proof.
  intros Hc.
  destruct c; cbn [exec starts_session] in *.
  - unfold RecordingManager.setSession. repeat keeps_step no_session_side.
  - unfold RecordingManager.setFilters. repeat keeps_step no_session_side.
  - intros w Hw. by rewrite (no_session_handleRequest s).
  - intros w Hw.
    destruct (untracked_handlers rt requestId response w) as (-> & _ & _); [|done].
    destruct Hw as (_ & -> & _). done.
  - intros w Hw.
    destruct (untracked_handlers rt requestId bodyData w) as (_ & -> & _); [|done].
    destruct Hw as (_ & -> & _). done.
  - intros w Hw.
    destruct (untracked_handlers rt requestId error w) as (_ & _ & ->); [|done].
    destruct Hw as (_ & -> & _). done.
  - unfold RecordingManager.clear. repeat keeps_step no_session_side.
Qed.

Lemma keeps_no_session_deliver s rt e :
  starts_session e = false -> keeps (no_session s) (deliver rt e).
Proof.
  intros He.
  pose proof (fun c H => keeps_no_session_exec s rt c H) as Hexec.
  destruct e as [now uuid createdAt params|now params|params|params| |c];
    cbn [deliver]; [..|by apply Hexec].
  - pose proof (fun request =>
                  Hexec (HandleRequest uuid createdAt request) eq_refl) as H1.
    cbn [exec] in H1.
    unfold EventHandler.handleRequestWillBeSent,
      EventHandler.findOriginalRequest.
    repeat keeps_step no_session_side.
  - pose proof (fun requestId response =>
                  Hexec (HandleResponse requestId response) eq_refl) as H1.
    cbn [exec] in H1.
    unfold EventHandler.handleResponseReceived.
    repeat keeps_step no_session_side.
  - pose proof (fun requestId bodyData =>
                  Hexec (HandleRequestComplete requestId bodyData) eq_refl) as H1.
    cbn [exec] in H1.
    unfold EventHandler.handleLoadingFinished.
    repeat keeps_step no_session_side.
  - pose proof (fun requestId error =>
                  Hexec (HandleRequestFailed requestId error) eq_refl) as H1.
    cbn [exec] in H1.
    unfold EventHandler.handleLoadingFailed.
    repeat keeps_step no_session_side.
  - unfold EventHandler.clear. repeat keeps_step no_session_side.
Qed.

(** X13: without a session nothing is recorded.  From a state without
    a session and with an empty request map, as long as no [setSession] with
    a session id is called, whatever network events and calls arrive, the
    recording manager tracks no request and hands nothing to storage. *)
Theorem no_session_nothing_recorded (rt : runtime) (es : list event)
    (w : world) :
  truthy (currentSessionId w) = false ->
  requestMap w = [] ->
  Forall (fun e => starts_session e = false) es ->
  let w' := deliver_all rt es w in
  saved w' = saved w /\ requestMap w' = []
  /\ truthy (currentSessionId w') = false.
Proof.
  intros Hs Hm Hes w'.
  assert (Hall : forall s w0, no_session s w0 ->
                           no_session s (deliver_all rt es w0)).
  { clear w w' Hs Hm. induction Hes as [|e es He Hes IH]; intros s w Hw; [done|].
    cbn [deliver_all]. apply IH. by apply keeps_no_session_deliver. }
  destruct (Hall (saved w) w) as (? & ? & ?); by repeat split.
Qed.

(** ** The records handed to storage *)

Lemma fields_kept_object K h h' v :
  fields_kept K h h' -> is_object h v ->
  is_object h' v /\ forall k, k ∈ K -> prop h' v k = prop h v k.
Proof.
  intros Hk (l & fs & -> & Hl). destruct (Hk l fs Hl) as (fs' & Hl' & Hf).
  split; [by exists l, fs'|]. intros k Hin. unfold prop.
  by rewrite Hl, Hl', Hf.
Qed.

Lemma sessionId_identity : "sessionId" ∈ identity_fields.
Proof. apply list_elem_of_In. cbn. tauto. Qed.

Lemma quiet_ret {A} (a : A) : quiet (ret a).
Proof. intros w. split; [apply fields_kept_refl|done]. Qed.

Lemma quiet_throw {A} e : quiet (throw e : M world A).
Proof. intros w. split; [apply fields_kept_refl|done]. Qed.

Lemma quiet_get_state : quiet get_state.
Proof. intros w. split; [apply fields_kept_refl|done]. Qed.

Lemma quiet_bind {A B} (m : M world A) (k : A -> M world B) :
  quiet m -> (forall a, quiet (k a)) -> quiet (bind m k).
Proof.
  intros Hm Hk w. unfold bind. destruct (Hm w) as (Hf & Hr & Hs & Hc).
  destruct (m w) as [[a|e] w1]; cbn [snd] in *; [|done].
  destruct (Hk a w1) as (Hf' & Hr' & Hs' & Hc').
  split; [by eapply fields_kept_trans|]. split; [congruence|].
  split; congruence.
Qed.

Lemma quiet_lift {A} (m : M heap A) :
  keeps_fields identity_fields m -> quiet (lift m).
Proof.
  intros Hm w. unfold lift. specialize (Hm (mem w)).
  by destruct (m (mem w)) as [o h].
Qed.

Lemma quiet_modify (f : world -> world) :
  (forall w, mem (f w) = mem w) ->
  (forall w, requestMap (f w) = requestMap w) ->
  (forall w, saved (f w) = saved w) ->
  (forall w, currentSessionId (f w) = currentSessionId w) ->
  quiet (modify f).
Proof.
  intros H1 H2 H3 H4 w. unfold modify. cbn [snd]. rewrite H1.
  split; [apply fields_kept_refl|done].
Qed.

Ltac quiet_step :=
  match goal with
  | |- forall _, _ => intro
  | |- quiet (ret _) => apply quiet_ret
  | |- quiet (throw _) => apply quiet_throw
  | |- quiet get_state => apply quiet_get_state
  | |- quiet (bind _ _) => apply quiet_bind
  | |- quiet (lift _) => apply quiet_lift
  | |- quiet (modify _) => by apply quiet_modify
  | |- quiet (if ?b then _ else _) => destruct b
  | |- quiet (match ?d with _ => _ end) => destruct d
  | |- quiet _ => solve [auto]
  | |- keeps_fields _ _ => fields_step
  end.

Lemma quiet_inv {A} (m : M world A) w :
  quiet m -> session_inv w -> session_inv (snd (m w)).
Proof.
  intros Hm [Hmap Hsaved]. destruct (Hm w) as (Hf & Hr & Hs & Hc).
  split.
  - intros k v Hin. rewrite Hr in Hin. destruct (Hmap k v Hin) as (Ho & Hsid & Ht).
    destruct (fields_kept_object _ _ _ v Hf Ho) as [Ho' Hp].
    split; [done|]. rewrite Hc. split; [|done].
    rewrite Hp by apply sessionId_identity. done.
  - intros r h Hin. rewrite Hs in Hin. by apply Hsaved.
Qed.

Lemma hands_over_spec_quiet {A} (m : M world A) :
  quiet m -> hands_over_spec m.
Proof.
  intros Hm w Hw. split; [by apply quiet_inv|].
  left. by destruct (Hm w) as (_ & _ & ? & _).
Qed.

Lemma hands_over_spec_bind {A B} (m : M world A) (k : A -> M world B) :
  quiet m -> (forall a, hands_over_spec (k a)) -> hands_over_spec (bind m k).
Proof.
  intros Hm Hk w Hw. pose proof (quiet_inv m w Hm Hw) as Hw1.
  destruct (Hm w) as (_ & Hr & Hs & Hc). unfold bind.
  destruct (m w) as [[a|e] w1]; cbn [snd] in *.
  - destruct (Hk a w1 Hw1) as [Hinv Hover]. split; [done|].
    destruct Hover as [Hsame|(k0 & record & Hin & Hsaved & Hsid)].
    + left. congruence.
    + right. exists k0, record. rewrite <- Hr, <- Hs, <- Hc. done.
  - split; [done|]. by left.
Qed.

(** The end of a terminal handler. *)
Lemma save_with_status record s :
  s = "completed" \/ s = "failed" ->
  forall w, session_inv w -> (exists k, (k, record) ∈ requestMap w) ->
    let w' := snd ((lift (setprop record "status" (VStr s)) ;;;
                    RecordingManager.saveRequestResponse record) w) in
    session_inv w' /\ hands_over w w'.
Proof.
  intros Hs w [Hmap Hsaved] (k & Hin).
  destruct (Hmap k record Hin) as (Ho & Hsid & Ht).
  destruct (setprop_object (mem w) record "status" (VStr s) Ho)
    as (h' & He & Hk & _ & Hp & Hf).
  rewrite (bind_Ret _ _ _ _ _ (lift_Ret _ _ _ _ He)).
  unfold RecordingManager.saveRequestResponse. rewrite modify_eq.
  cbn [snd mem saved set_saved set_mem].
  assert (Hsid' : prop h' record "sessionId" = currentSessionId w).
  { rewrite Hf by (right; done). done. }
  split; [split|].
  - cbn [requestMap mem currentSessionId set_saved set_mem].
    intros k0 v0 Hin0. destruct (Hmap k0 v0 Hin0) as (Ho0 & Hsid0 & _).
    split; [by apply Hk|]. split; [|done].
    rewrite Hf by (right; done). done.
  - cbn [saved set_saved]. intros r h [Hold|Hnew]%elem_of_app.
    + by apply Hsaved.
    + apply list_elem_of_singleton in Hnew as [= -> ->].
      split; [by apply Hk|]. split.
      * rewrite Hp. destruct Hs as [->| ->]; [by left|by right].
      * by rewrite Hsid', Ht.
  - right. exists k, record. by cbn [saved mem set_saved set_mem].
Qed.

Lemma hands_over_after_quiet {A B} (m : M world A) (k : A -> M world B)
    record w :
  quiet m ->
  (forall a w1, session_inv w1 -> (exists j, (j, record) ∈ requestMap w1) ->
     session_inv (snd (k a w1)) /\ hands_over w1 (snd (k a w1))) ->
  session_inv w -> (exists j, (j, record) ∈ requestMap w) ->
  session_inv (snd (bind m k w)) /\ hands_over w (snd (bind m k w)).
Proof.
  intros Hm Hk Hw Hin. pose proof (quiet_inv m w Hm Hw) as Hw1.
  destruct (Hm w) as (_ & Hr & Hs & Hc). unfold bind.
  destruct (m w) as [[a|e] w1]; cbn [snd] in *.
  - rewrite <- Hr in Hin. destruct (Hk a w1 Hw1 Hin) as [Hinv Hover].
    split; [done|].
    destruct Hover as [Hsame|(k0 & r0 & Hin0 & Hsaved & Hsid)].
    + left. congruence.
    + right. exists k0, r0. rewrite <- Hr, <- Hs, <- Hc. done.
  - split; [done|]. by left.
Qed.

Lemma spec_handleRequestFailed requestId error :
  hands_over_spec (RecordingManager.handleRequestFailed requestId error).
Proof.
  intros w Hw. unfold RecordingManager.handleRequestFailed.
  rewrite (bind_Ret _ _ _ _ _ (get_state_eq w)).
  destruct (map_get_elem requestId (requestMap w)) as [Hu|Hin].
  { rewrite Hu. cbn. split; [done|by left]. }
  destruct (truthy (map_get requestId (requestMap w))); cbn [negb];
    [|split; [done|by left]].
  apply hands_over_after_quiet
    with (record := map_get requestId (requestMap w));
    [repeat quiet_step| |done|by eexists].
  intros _ w1 Hw1 Hin1. apply save_with_status; [by right|done..].
Qed.

Lemma spec_handleRequestComplete rt requestId bodyData :
  hands_over_spec (RecordingManager.handleRequestComplete rt requestId bodyData).
Proof.
  intros w Hw. unfold RecordingManager.handleRequestComplete.
  rewrite (bind_Ret _ _ _ _ _ (get_state_eq w)).
  destruct (map_get_elem requestId (requestMap w)) as [Hu|Hin].
  { rewrite Hu. cbn. split; [done|by left]. }
  destruct (truthy (map_get requestId (requestMap w))); cbn [negb];
    [|split; [done|by left]].
  apply hands_over_after_quiet
    with (record := map_get requestId (requestMap w));
    [repeat quiet_step| |done|by eexists].
  intros r w1 Hw1 Hin1.
  apply hands_over_after_quiet
    with (record := map_get requestId (requestMap w));
    [|intros _ w2 Hw2 Hin2|done..].
  - pose proof (keeps_identity_applyToResponse rt). repeat quiet_step.
  - apply save_with_status; [by left|done..].
Qed.

Lemma quiet_handleResponse rt requestId response :
  quiet (RecordingManager.handleResponse rt requestId response).
Proof.
  pose proof (keeps_identity_applyToResponse rt).
  unfold RecordingManager.handleResponse. repeat quiet_step.
Qed.

Lemma session_inv_app w t :
  session_inv w -> session_inv (set_mem (mem w ++ t) w).
Proof.
  intros [Hmap Hsaved]. split; [|done].
  intros k v Hin. cbn [requestMap set_mem] in Hin.
  destruct (Hmap k v Hin) as (Ho & Hsid & Ht). cbn [mem set_mem currentSessionId].
  split; [by apply objects_kept_app|]. split; [|done].
  rewrite prop_app by by apply is_object_valid. done.
Qed.

Lemma spec_handleRequest uuid createdAt request :
  hands_over_spec (RecordingManager.handleRequest uuid createdAt request).
Proof.
  intros w Hw. unfold RecordingManager.handleRequest.
  rewrite (bind_Ret _ _ _ _ _ (get_state_eq w)).
  destruct (truthy (currentSessionId w)) eqn:Hs; cbn [negb];
    [|split; [done|by left]].
  destruct (applyToRequest_appends (filters w) request (mem w))
    as (v & t & Ha & Hv).
  w_step Ha. set (w1 := set_mem (mem w ++ t) w).
  assert (Hw1 : session_inv w1) by by apply session_inv_app.
  destruct (nullish request) eqn:Hn.
  - rewrite bind_Throw with (e := TypeError) (s' := w1);
      [split; [done|by left]|].
    apply lift_Throw_same. by destruct request.
  - w_step (getprop_prop request "requestId" (mem w ++ t) Hn).
    w_step (getprop_prop request "requestId" (mem w ++ t) Hn).
    erewrite bind_Ret by (apply lift_Ret; apply alloc_eq).
    rewrite modify_eq. cbn [snd mem set_mem requestMap set_requestMap].
    split; [|by left]. destruct Hw1 as [Hmap1 Hsaved1]. split; [|done].
    intros k0 v0 Hin.
    cbn [mem set_mem requestMap set_requestMap currentSessionId] in *.
    apply map_set_elem in Hin as [->|Hin].
    + split; [eexists _, _; split; [done|]; by apply list_lookup_middle|].
      split; [|done]. by rewrite prop_here.
    + destruct (Hmap1 k0 v0 Hin) as (Ho & Hsid & Ht).
      cbn [mem set_mem w1 currentSessionId] in *.
      split; [by apply objects_kept_app|]. split; [|done].
      rewrite prop_app by by apply is_object_valid. done.
Qed.

Lemma spec_exec rt c : hands_over_spec (exec rt c).
Proof.
  destruct c; cbn [exec].
  - intros w [Hmap Hsaved].
    assert (Hs : same saved (RecordingManager.setSession sessionId filterOptions)).
    { unfold RecordingManager.setSession. same_all. }
    split; [split|left; apply Hs].
    + intros k v Hin. rewrite setSession_requestMap in Hin.
      by apply elem_of_nil in Hin.
    + intros r h Hin. rewrite Hs in Hin. by apply Hsaved.
  - apply hands_over_spec_quiet. unfold RecordingManager.setFilters.
    repeat quiet_step.
  - apply spec_handleRequest.
  - apply hands_over_spec_quiet, quiet_handleResponse.
  - apply spec_handleRequestComplete.
  - apply spec_handleRequestFailed.
  - intros w [Hmap Hsaved]. split; [split|by left].
    + intros k v Hin. by apply elem_of_nil in Hin.
    + done.
Qed.

Ltac spec_step :=
  match goal with
  | |- forall _, _ => intro
  | |- hands_over_spec (bind _ _) =>
      apply hands_over_spec_bind; [solve [repeat quiet_step]|]
  | |- hands_over_spec (if ?b then _ else _) => destruct b
  | |- hands_over_spec _ => solve [auto]
  | |- hands_over_spec _ => apply hands_over_spec_quiet; solve [repeat quiet_step]
  end.

Lemma quiet_findOriginalRequest requestId :
  quiet (EventHandler.findOriginalRequest requestId).
Proof.
  unfold EventHandler.findOriginalRequest. repeat quiet_step.
Qed.

Lemma spec_deliver rt e : hands_over_spec (deliver rt e).
Proof.
  pose proof spec_handleRequest. pose proof (quiet_handleResponse rt).
  pose proof (spec_handleRequestComplete rt). pose proof spec_handleRequestFailed.
  pose proof quiet_findOriginalRequest.
  destruct e as [now uuid createdAt params|now params|params|params| |c];
    cbn [deliver]; [..|apply spec_exec].
  - unfold EventHandler.handleRequestWillBeSent,
      EventHandler.extractQueryString. repeat spec_step.
  - unfold EventHandler.handleResponseReceived. repeat spec_step.
  - unfold EventHandler.handleLoadingFinished. repeat spec_step.
  - unfold EventHandler.handleLoadingFailed. repeat spec_step.
  - unfold EventHandler.clear. repeat spec_step.
Qed.

Lemma session_inv_deliver_all rt es w :
  session_inv w -> session_inv (deliver_all rt es w).
Proof.
  revert w. induction es as [|e es IH]; intros w Hw; [done|].
  cbn [deliver_all]. apply IH. by apply spec_deliver.
Qed.

Lemma session_inv_fresh w : requestMap w = [] -> saved w = [] -> session_inv w.
Proof.
  intros Hm Hs. split.
  - intros k v Hin. rewrite Hm in Hin. by apply elem_of_nil in Hin.
  - intros r h Hin. rewrite Hs in Hin. by apply elem_of_nil in Hin.
Qed.

(** X14: whatever events are delivered to a new pipeline, every record
    that is handed to storage is, at the moment it is handed over, an object
    whose [status] is "completed" or "failed" and whose [sessionId] is
    set: storage never sees a pending record, nor one captured outside a
    session. *)
Theorem stored_records_are_terminal (rt : runtime) (es : list event)
    (w0 : world) (r : value) (h : list cell) :
  requestMap w0 = [] -> saved w0 = [] ->
  (r, h) ∈ saved (deliver_all rt es w0) ->
  good_record h r.
Proof.
  intros Hm Hs Hin.
  destruct (session_inv_deliver_all rt es w0 (session_inv_fresh w0 Hm Hs))
    as [_ Hsaved].
  by apply Hsaved.
Qed.

(** X15: what one event hands over.  In every state a new pipeline can
    reach, an event hands nothing to storage or exactly one record: the one
    the request map holds for some requestId, with the heap as the handler
    leaves it, and with the id of the session that is current; the current
    session is an active one. *)
Theorem handed_over_in_current_session (rt : runtime) (es : list event)
    (e : event) (w0 : world) :
  requestMap w0 = [] -> saved w0 = [] ->
  let w := deliver_all rt es w0 in
  let w' := snd (deliver rt e w) in
  saved w' = saved w
  \/ exists requestId record,
       (requestId, record) ∈ requestMap w
       /\ saved w' = saved w ++ [(record, mem w')]
       /\ prop (mem w') record "sessionId" = currentSessionId w
       /\ truthy (currentSessionId w) = true.
Proof.
  intros Hm Hs w w'.
  pose proof (session_inv_deliver_all rt es w0 (session_inv_fresh w0 Hm Hs))
    as Hw.
  destruct (spec_deliver rt e _ Hw) as [_ [Hsame|(k & record & Hin & Hsv & Hsid)]].
  - by left.
  - right. exists k, record. split; [done|]. split; [done|]. split; [done|].
    destruct Hw as [Hmap _]. by destruct (Hmap k record Hin) as (_ & _ & ?).
Qed.

Lemma stored_records_are_terminal_witness :
  let w := deliver_all example_runtime redirect_event_list
             (set_mem redirect_events scenario_world) in
  exists r h, saved w = [(r, h)] /\ good_record h r.
Proof.
  intros w. eexists _, _. split; [by vm_compute|].
  apply (stored_records_are_terminal example_runtime redirect_event_list
           (set_mem redirect_events scenario_world)); [done..|].
  apply list_elem_of_In. vm_compute. by left.
Defined.

Lemma handed_over_in_current_session_witness :
  let w := deliver_all example_runtime (take 3 redirect_event_list)
             (set_mem redirect_events scenario_world) in
  let w' := snd (deliver example_runtime (LoadingFinished (VRef 7)) w) in
  saved w = [] /\ length (saved w') = 1
  /\ (saved w' = saved w
      \/ exists requestId record,
           (requestId, record) ∈ requestMap w
           /\ saved w' = saved w ++ [(record, mem w')]
           /\ prop (mem w') record "sessionId" = currentSessionId w
           /\ truthy (currentSessionId w) = true).
Proof.
  intros w w'. split; [by vm_compute|]. split; [by vm_compute|].
  apply (handed_over_in_current_session example_runtime
           (take 3 redirect_event_list) (LoadingFinished (VRef 7))
           (set_mem redirect_events scenario_world)); done.
Defined.

Lemma no_session_nothing_recorded_witness :
  let w := set_mem redirect_events RecordingManager.constructor in
  let w' := deliver_all example_runtime redirect_event_list w in
  length (pendingRequests w') = 2
  /\ saved w' = [] /\ requestMap w' = [].
Proof.
  intros w w'. split; [by vm_compute|].
  destruct (no_session_nothing_recorded example_runtime redirect_event_list w)
    as (Hs & Hm & _); [done|done| |by split].
  unfold redirect_event_list. by repeat constructor.
Defined.

Lemma entries_stay_until_reset_witness :
  let w := deliver_all example_runtime (take 1 redirect_event_list)
             (set_mem redirect_events scenario_world) in
  let w' := deliver_all example_runtime (drop 1 redirect_event_list) w in
  length (saved w') = 1
  /\ tracked (VStr "1") w'
  /\ VStr "1" ∈ map fst (pendingRequests w').
Proof.
  intros w w'. split; [by vm_compute|].
  destruct (entries_stay_until_reset example_runtime
              (drop 1 redirect_event_list) w (VStr "1")) as [Hr Hp].
  split.
  - apply Hr.
    + cbn. by repeat constructor.
    + apply list_elem_of_In. vm_compute. by left.
  - apply Hp.
    + cbn. by repeat constructor.
    + apply list_elem_of_In. vm_compute. by left.
Defined.

(** ** What no handler assigns *)

(** X16: the identity of a record, and a request snapshot, are never
    reassigned.  Whatever events are delivered, every object of the heap
    keeps its [id], [sessionId], [requestId], [request], [createdAt] and
    [timing], and its [url], [method], [queryString], [referrer],
    [initiator], [resourceType], [frameId], [timestamp] and [redirectChain]:
    the handlers only ever assign the response, status, error and body
    properties. *)
Theorem identity_fields_immutable (rt : runtime) (es : list event) (w : world)
    (v : value) (k : string) :
  is_object (mem w) v -> k ∈ identity_fields ->
  let w' := deliver_all rt es w in
  is_object (mem w') v /\ prop (mem w') v k = prop (mem w) v k.
Proof.
  intros Ho Hk w'.
  assert (Hf : fields_kept identity_fields (mem w) (mem w')).
  { unfold w'. clear. revert w. induction es as [|e es IH]; intros w.
    - apply fields_kept_refl.
    - cbn [deliver_all]. eapply fields_kept_trans; [|apply IH].
      apply keeps_identity_deliver. }
  destruct (fields_kept_object _ _ _ v Hf Ho) as [Ho' Hp]. by split; [|apply Hp].
Qed.

Lemma identity_fields_immutable_witness :
  let w := deliver_all example_runtime (take 1 redirect_event_list)
             (set_mem redirect_events scenario_world) in
  let w' := deliver_all example_runtime (drop 1 redirect_event_list) w in
  let record := map_get (VStr "1") (requestMap w) in
  prop (mem w) record "status" = VStr "pending"
  /\ prop (mem w') record "status" = VStr "completed"
  /\ prop (mem w') record "id" = VStr "id-1"
  /\ prop (mem w') record "request" = prop (mem w) record "request".
Proof.
  intros w w' record. split; [by vm_compute|]. split; [by vm_compute|].
  assert (Ho : is_object (mem w) record).
  { eexists _, _. split; by vm_compute. }
  split.
  - transitivity (prop (mem w) record "id"); [|by vm_compute].
    apply (identity_fields_immutable example_runtime
             (drop 1 redirect_event_list) w record "id" Ho).
    apply list_elem_of_In. cbn. tauto.
  - apply (identity_fields_immutable example_runtime
             (drop 1 redirect_event_list) w record "request" Ho).
    apply list_elem_of_In. cbn. tauto.
Defined.

(** ** The recording manager: sessions and lookups *)

Lemma setSession_eq sessionId filterOptions w :
  RecordingManager.setSession sessionId filterOptions w
  = (if truthy (if decide (filterOptions = VUndefined) then VNull
                else filterOptions)
     then f <- lift (DataFilters.constructor filterOptions) ;;
          modify (set_filters f)
     else ret tt)
      (set_requestMap [] (set_currentSessionId sessionId w)).
Proof. done. Qed.

(** X17: [setSession] starts afresh.  It installs the session id and
    empties the request map without touching what storage holds, so that
    the response, completion or failure of a request captured before it
    finds no record and is dropped, and [getRequest] answers [null];
    called without filter options (or with [null]) it keeps the filters of
    the previous session. *)
Theorem setSession_starts_afresh (rt : runtime) (w : world)
    (sessionId filterOptions requestId argument : value) :
  let w1 := snd (RecordingManager.setSession sessionId filterOptions w) in
  currentSessionId w1 = sessionId
  /\ requestMap w1 = []
  /\ saved w1 = saved w
  /\ (if truthy filterOptions then True
      else RecordingManager.setSession sessionId filterOptions w
           = (Ret tt, set_requestMap [] (set_currentSessionId sessionId w))
           /\ filters w1 = filters w)
  /\ RecordingManager.getRequest requestId w1 = (Ret VNull, w1)
  /\ RecordingManager.handleResponse rt requestId argument w1 = (Ret tt, w1)
  /\ RecordingManager.handleRequestComplete rt requestId argument w1
     = (Ret tt, w1)
  /\ RecordingManager.handleRequestFailed requestId argument w1 = (Ret tt, w1).
Proof.
  intros w1.
  assert (Hm : requestMap w1 = []) by apply setSession_requestMap.
  assert (Hs : currentSessionId w1 = sessionId /\ saved w1 = saved w).
  { unfold w1. rewrite setSession_eq.
    match goal with |- currentSessionId (snd (?m ?w0)) = _ /\ _ =>
      assert (H1 : same currentSessionId m) by repeat same_step;
      assert (H2 : same saved m) by repeat same_step;
      by rewrite H1, H2 end. }
  destruct Hs as [Hc Hsv]. split; [done|]. split; [done|]. split; [done|].
  split.
  { destruct (truthy filterOptions) eqn:Hf; [done|].
    unfold w1. rewrite setSession_eq.
    assert (Hf' : truthy (if decide (filterOptions = VUndefined) then VNull
                          else filterOptions) = false).
    { by destruct (decide (filterOptions = VUndefined)). }
    rewrite Hf'. done. }
  assert (Hu : map_get requestId (requestMap w1) = VUndefined) by by rewrite Hm.
  unfold RecordingManager.getRequest, RecordingManager.handleResponse,
    RecordingManager.handleRequestComplete, RecordingManager.handleRequestFailed.
  rewrite !(bind_Ret _ _ _ _ _ (get_state_eq w1)). by rewrite Hu.
Qed.

(** X18: [handleRequest] without a request.  While a session is active a
    [null] or [undefined] request makes [handleRequest] throw a TypeError
    (the filter returns [null], reading [request.requestId] throws) and
    nothing is tracked; without a session the same call returns
    normally. *)
Theorem handleRequest_without_request (uuid createdAt : string) (w : world) :
  let outcome := if truthy (currentSessionId w)
                 then (Throw TypeError, w) else (Ret tt, w) in
  RecordingManager.handleRequest uuid createdAt VNull w = outcome
  /\ RecordingManager.handleRequest uuid createdAt VUndefined w = outcome.
Proof.
  unfold RecordingManager.handleRequest.
  rewrite !(bind_Ret _ _ _ _ _ (get_state_eq w)).
  destruct (truthy (currentSessionId w)); cbn [negb]; [|done].
  split.
  - rewrite bind_Ret with (a := VNull) (s' := w) by by apply lift_Ret_same.
    apply bind_Throw. by apply lift_Throw_same.
  - rewrite bind_Ret with (a := VNull) (s' := w) by by apply lift_Ret_same.
    apply bind_Throw. by apply lift_Throw_same.
Qed.

(** X19: a request that is handled can be looked up.  While a session is
    active, [handleRequest] on a request object returns normally; then
    [getRequest] with the request's id returns a new record with the nine
    record properties: the given uuid and creation time, the current session
    id, the request's id, status "pending", no response, timing or error,
    and as [request] the snapshot [applyToRequest] made (not the request
    object itself).  Looking up any other id gives what it gave before, the
    objects already in the heap are untouched, and nothing is handed to
    storage. *)
Theorem handleRequest_then_getRequest (uuid createdAt : string)
    (request : value) (w : world) :
  truthy (currentSessionId w) = true ->
  truthy request = true -> valid (mem w) request ->
  let requestId := prop (mem w) request "requestId" in
  exists w' record,
    RecordingManager.handleRequest uuid createdAt request w = (Ret tt, w')
    /\ RecordingManager.getRequest requestId w' = (Ret record, w')
    /\ own_keys (mem w') record = record_fields
    /\ prop (mem w') record "id" = VStr uuid
    /\ prop (mem w') record "sessionId" = currentSessionId w
    /\ prop (mem w') record "requestId" = requestId
    /\ prop (mem w') record "request" = VRef (length (mem w))
    /\ prop (mem w') record "request" <> request
    /\ prop (mem w') record "response" = VNull
    /\ prop (mem w') record "timing" = VNull
    /\ prop (mem w') record "error" = VNull
    /\ prop (mem w') record "status" = VStr "pending"
    /\ prop (mem w') record "createdAt" = VStr createdAt
    /\ (forall other, other <> requestId ->
          RecordingManager.getRequest other w'
          = (Ret (js_or (map_get other (requestMap w)) VNull), w'))
    /\ preserved (mem w) (mem w')
    /\ saved w' = saved w.
Proof.
  intros Hs Ht Hv requestId. pose proof (truthy_not_nullish _ Ht) as Hn.
  unfold RecordingManager.handleRequest.
  rewrite (bind_Ret _ _ _ _ _ (get_state_eq w)). rewrite Hs. cbn [negb].
  w_step (applyToRequest_denotes (filters w) request (mem w) Ht Hv).
  set (h1 := mem w ++ filtered_request (filters w) (mem w) request).
  assert (Hk : getprop request "requestId" h1 = (Ret requestId, h1)).
  { rewrite getprop_prop by done. unfold h1. by rewrite prop_app. }
  w_step Hk. cbn [mem set_mem]. w_step Hk. cbn [mem set_mem].
  erewrite bind_Ret by (apply lift_Ret; apply alloc_eq).
  rewrite modify_eq. cbn [mem set_mem requestMap set_requestMap].
  eexists _, (VRef (length h1)). split; [reflexivity|].
  cbn [mem set_mem set_requestMap saved].
  split.
  { unfold RecordingManager.getRequest.
    erewrite bind_Ret by apply get_state_eq.
    cbn [requestMap set_requestMap]. by rewrite map_get_set. }
  rewrite own_keys_here, !prop_last by done.
  split; [done|]. do 4 (split; [done|]). split.
  { cbn. intros <-. unfold valid in Hv. lia. }
  do 5 (split; [done|]). split; [|split; [|done]].
  - intros other Hne. unfold RecordingManager.getRequest.
    erewrite bind_Ret by apply get_state_eq.
    cbn [requestMap set_requestMap]. by rewrite map_get_set_ne.
  - eapply preserved_trans; apply preserved_app.
Qed.

Lemma handleRequest_then_getRequest_witness :
  let w := set_mem one_request_heap
             (snd (RecordingManager.setSession (VStr "S1") VUndefined
                     RecordingManager.constructor)) in
  exists w' record,
    RecordingManager.handleRequest "id-1" "2024-01-01T00:00:00.000Z" (VRef 0) w
    = (Ret tt, w')
    /\ RecordingManager.getRequest (VStr "1") w' = (Ret record, w')
    /\ prop (mem w') record "sessionId" = VStr "S1"
    /\ prop (mem w') record "status" = VStr "pending".
Proof.
  intros w.
  destruct (handleRequest_then_getRequest "id-1" "2024-01-01T00:00:00.000Z"
              (VRef 0) w eq_refl eq_refl ltac:(vm_compute; lia))
    as (w' & record & He & Hg & _ & _ & Hsid & _ & _ & _ & _ & _ & _ & Hst & _).
  exists w', record. split; [exact He|]. split; [exact Hg|].
  split; [exact Hsid|exact Hst].
Defined.



(** ** The event handler *)

(** X21: events for a request the event handler does not know.  A
    [responseReceived], [loadingFinished] or [loadingFailed] event whose
    requestId has no pending entry returns normally and changes nothing: the
    recording manager is not called.  An event without parameters ([null]
    or [undefined]) throws a TypeError, and changes nothing either. *)
Theorem unknown_request_events_ignored (rt : runtime) (now : Z)
    (uuid createdAt : string) (w : world) (params : value) :
  (nullish params = false ->
   truthy (map_get (prop (mem w) params "requestId") (pendingRequests w))
   = false ->
   EventHandler.handleResponseReceived rt now params w = (Ret tt, w)
   /\ EventHandler.handleLoadingFinished rt params w = (Ret tt, w)
   /\ EventHandler.handleLoadingFailed params w = (Ret tt, w))
  /\ (nullish params = true ->
      EventHandler.handleRequestWillBeSent rt now uuid createdAt params w
      = (Throw TypeError, w)
      /\ EventHandler.handleResponseReceived rt now params w
         = (Throw TypeError, w)
      /\ EventHandler.handleLoadingFinished rt params w = (Throw TypeError, w)
      /\ EventHandler.handleLoadingFailed params w = (Throw TypeError, w)).
Proof.
  split.
  - intros Hn Hu.
    assert (Hg : forall k, lift (getprop params k) w
                           = (Ret (prop (mem w) params k), w)).
    { intros k. apply lift_Ret_same. by apply getprop_prop. }
    unfold EventHandler.handleResponseReceived,
      EventHandler.handleLoadingFinished, EventHandler.handleLoadingFailed.
    rewrite ?bind_assoc.
    repeat (rewrite (bind_Ret _ _ _ _ _ (Hg _))).
    rewrite !(bind_Ret _ _ _ _ _ (get_state_eq w)). by rewrite Hu.
  - intros Hn.
    assert (Hg : forall k, lift (getprop params k) w = (Throw TypeError, w)).
    { intros k. apply lift_Throw_same. by destruct params. }
    unfold EventHandler.handleRequestWillBeSent,
      EventHandler.handleResponseReceived,
      EventHandler.handleLoadingFinished, EventHandler.handleLoadingFailed.
    by rewrite !(bind_Throw _ _ _ _ _ (Hg _)).
Qed.

Lemma unknown_request_events_ignored_witness :
  let w := set_mem redirect_events scenario_world in
  EventHandler.handleResponseReceived example_runtime 3 (VRef 5) w = (Ret tt, w)
  /\ EventHandler.handleLoadingFinished example_runtime (VRef 7) w = (Ret tt, w)
  /\ EventHandler.handleLoadingFailed VNull w = (Throw TypeError, w).
Proof.
  intros w.
  destruct (unknown_request_events_ignored example_runtime 3 "" "" w (VRef 5))
    as [H5 _].
  destruct (unknown_request_events_ignored example_runtime 3 "" "" w (VRef 7))
    as [H7 _].
  destruct (unknown_request_events_ignored example_runtime 3 "" "" w VNull)
    as [_ H0].
  destruct (H5 eq_refl eq_refl) as (Hr & _).
  destruct (H7 eq_refl eq_refl) as (_ & Hf & _).
  destruct (H0 eq_refl) as (_ & _ & _ & Hl).
  by repeat split.
Defined.

Lemma array_includes_items h chain x items :
  array_items h chain = Some items ->
  array_includes chain x h = (Ret (bool_decide (x ∈ items)), h).
Proof.
  unfold array_items, array_includes. destruct chain as [| | | | |l]; try done.
  destruct (h !! l) as [[fs|its]|]; try done. by intros [= ->].
Qed.

(** X22: what [findOriginalRequest] finds.  On pending entries that all
    have a request with a redirect chain, the search reads the heap without
    changing it and does not throw; it returns the request of the first
    pending entry, in insertion order, whose chain contains the given
    requestId, and [null] exactly when no chain contains it. *)
Theorem findOriginalRequest_first_match (x : value) (w : world) :
  (forall k p, (k, p) ∈ pendingRequests w -> pending_wf (mem w) p) ->
  exists r,
    EventHandler.findOriginalRequest x w = (Ret r, w)
    /\ ((r = VNull
         /\ forall k p items, (k, p) ∈ pendingRequests w ->
              chain_of (mem w) p = Some items -> x ∉ items)
        \/ (exists before k p after items,
              pendingRequests w = before ++ (k, p) :: after
              /\ r = prop (mem w) p "request" /\ r <> VNull
              /\ chain_of (mem w) p = Some items /\ x ∈ items
              /\ forall k' p' items', (k', p') ∈ before ->
                   chain_of (mem w) p' = Some items' -> x ∉ items')).
Proof.
  intros Hwf. unfold EventHandler.findOriginalRequest.
  rewrite (bind_Ret _ _ _ _ _ (get_state_eq w)).
  assert (Hloop : forall entries,
    (forall k p, (k, p) ∈ entries -> pending_wf (mem w) p) ->
    exists r,
      EventHandler.findOriginalRequest_loop x entries (mem w) = (Ret r, mem w)
      /\ ((r = VNull
           /\ forall k p items, (k, p) ∈ entries ->
                chain_of (mem w) p = Some items -> x ∉ items)
          \/ (exists before k p after items,
                entries = before ++ (k, p) :: after
                /\ r = prop (mem w) p "request" /\ r <> VNull
                /\ chain_of (mem w) p = Some items /\ x ∈ items
                /\ forall k' p' items', (k', p') ∈ before ->
                     chain_of (mem w) p' = Some items' -> x ∉ items'))).
  { clear Hwf. induction entries as [|[k p] entries IH]; intros Hall.
    - exists VNull. split; [done|]. left. split; [done|].
      intros k p items Hin. by apply elem_of_nil in Hin.
    - destruct (Hall k p) as (Hp & Hr & [items Hc]).
      { apply elem_of_cons. by left. }
      cbn [EventHandler.findOriginalRequest_loop].
      rewrite (bind_Ret _ _ _ _ _ (getprop_prop p "request" (mem w) Hp)).
      rewrite (bind_Ret _ _ _ _ _
                 (getprop_prop _ "redirectChain" (mem w) Hr)).
      rewrite (bind_Ret _ _ _ _ _ (array_includes_items _ _ x items Hc)).
      destruct (bool_decide (x ∈ items)) eqn:Hx.
      + apply bool_decide_eq_true in Hx.
        exists (prop (mem w) p "request"). split; [by apply getprop_prop|].
        right. exists [], k, p, entries, items. split; [done|].
        split; [done|]. split; [by destruct (prop (mem w) p "request")|].
        split; [done|]. split; [done|].
        intros k' p' items' Hin. by apply elem_of_nil in Hin.
      + apply bool_decide_eq_false in Hx.
        destruct IH as (r & He & Hcase).
        { intros k' p' Hin. apply (Hall k' p'), elem_of_cons. by right. }
        exists r. split; [done|].
        destruct Hcase as [[-> Hnone]|(before & k1 & p1 & after & items1 & -> & Hrest)].
        * left. split; [done|]. intros k' p' items' [[= -> ->]|Hin]%elem_of_cons.
          -- intros Hc'. rewrite Hc in Hc'. by injection Hc' as <-.
          -- by apply (Hnone k' p').
        * right. exists ((k, p) :: before), k1, p1, after, items1.
          split; [done|]. destruct Hrest as (? & ? & ? & ? & Hbefore).
          do 4 (split; [done|]).
          intros k' p' items' [[= -> ->]|Hin]%elem_of_cons.
          -- intros Hc'. rewrite Hc in Hc'. by injection Hc' as <-.
          -- by apply (Hbefore k' p'). }
  destruct (Hloop (pendingRequests w) Hwf) as (r & He & Hcase).
  exists r. split; [by apply lift_Ret_same|done].
Qed.

Lemma findOriginalRequest_first_match_witness :
  let w := set_pendingRequests [(VStr "1", VRef 0)]
             (set_mem chained_heap RecordingManager.constructor) in
  EventHandler.findOriginalRequest (VStr "2") w = (Ret (VRef 1), w)
  /\ EventHandler.findOriginalRequest (VStr "3") w = (Ret VNull, w).
Proof.
  intros w.
  assert (Hwf : forall k p, (k, p) ∈ pendingRequests w -> pending_wf (mem w) p).
  { intros k p [[= -> ->]|[]%elem_of_nil]%elem_of_cons.
    split; [done|]. split; [done|]. by eexists. }
  destruct (findOriginalRequest_first_match (VStr "2") w Hwf) as (r2 & He2 & _).
  destruct (findOriginalRequest_first_match (VStr "3") w Hwf) as (r3 & He3 & _).
  split.
  - rewrite He2. vm_compute in He2. by injection He2 as <-.
  - rewrite He3. vm_compute in He3. by injection He3 as <-.
Defined.

Ltac w_get :=
  rewrite ?bind_assoc;
  erewrite bind_Ret
    by (apply lift_Ret_same; cbn [mem set_mem]; apply getprop_prop; done).
Ltac w_alloc :=
  rewrite ?bind_assoc; erewrite bind_Ret by (apply lift_Ret; apply alloc_eq).

(** X23: an initiation event that cannot be read.  When the event has no
    [request], or when its [url] is neither a string nor an array and the
    URL parser rejects it, the fallback [request.url.indexOf('?')] of the
    [catch] block throws itself: [handleRequestWillBeSent] throws a
    TypeError, and neither the pending requests nor the recording manager
    nor the heap are changed. *)
Theorem requestWillBeSent_unreadable (rt : runtime) (now : Z)
    (uuid createdAt : string) (params : value) (w : world) :
  nullish params = false ->
  let request := prop (mem w) params "request" in
  let url := prop (mem w) request "url" in
  nullish request = true
  \/ (URL_search rt (mem w) url = None
      /\ (forall s, url <> VStr s) /\ array_items (mem w) url = None) ->
  EventHandler.handleRequestWillBeSent rt now uuid createdAt params w
  = (Throw TypeError, w).
Proof.
  intros Hp request url Hbad.
  unfold EventHandler.handleRequestWillBeSent. do 5 w_get.
  fold request. apply bind_Throw, lift_Throw_same.
  unfold EventHandler.extractQueryString.
  destruct (nullish request) eqn:Hn.
  - rewrite try_catch_Throw with (e := TypeError) (s' := mem w).
    + apply bind_Throw. by destruct request.
    + apply bind_Throw. by destruct request.
  - destruct Hbad as [Hbad|(Hu & Hs & Ha)]; [done|].
    assert (Hg : getprop request "url" (mem w) = (Ret url, mem w)).
    { by apply getprop_prop. }
    assert (Hi : js_indexOf_question url (mem w) = (Throw TypeError, mem w)).
    { unfold js_indexOf_question. fold url in Ha, Hs.
      destruct url as [| | | |s|l]; try done.
      - by destruct (Hs s).
      - unfold array_items in Ha. by destruct (mem w !! l) as [[?|?]|]. }
    rewrite try_catch_Throw with (e := TypeError) (s' := mem w).
    + rewrite (bind_Ret _ _ _ _ _ Hg). by apply bind_Throw.
    + rewrite (bind_Ret _ _ _ _ _ Hg). apply bind_Throw.
      unfold js_URL_search. by rewrite Hu.
Qed.

Lemma requestWillBeSent_unreadable_witness :
  let w := set_mem [Obj [("requestId", VStr "R3"); ("type", VStr "XHR")]]
             scenario_world in
  EventHandler.handleRequestWillBeSent example_runtime 0 "id" "t" (VRef 0) w
  = (Throw TypeError, w).
Proof.
  intros w.
  apply (requestWillBeSent_unreadable example_runtime 0 "id" "t" (VRef 0) w
           eq_refl).
  by left.
Defined.

(** The query string of a request with a string URL: the handler's
    [try]/[catch] returns. *)
Lemma extractQueryString_returns rt request h url :
  nullish request = false ->
  prop h request "url" = VStr url ->
  exists q, EventHandler.extractQueryString rt request h = (Ret q, h).
Proof.
  intros Hn Hurl. unfold EventHandler.extractQueryString.
  assert (Hg : getprop request "url" h = (Ret (VStr url), h)).
  { rewrite getprop_prop by done. by rewrite Hurl. }
  destruct (URL_search rt h (VStr url)) as [search|] eqn:Hs.
  - eexists. apply try_catch_Ret. rewrite (bind_Ret _ _ _ _ _ Hg).
    erewrite bind_Ret by (unfold js_URL_search; by rewrite Hs).
    reflexivity.
  - rewrite try_catch_Throw with (e := TypeError) (s' := h); cycle 1.
    { rewrite (bind_Ret _ _ _ _ _ Hg). apply bind_Throw.
      unfold js_URL_search. by rewrite Hs. }
    rewrite (bind_Ret _ _ _ _ _ Hg).
    rewrite bind_Ret with (a := str_indexOf_question url) (s' := h) by done.
    destruct (str_indexOf_question url) as [i|]; [|by eexists].
    rewrite (bind_Ret _ _ _ _ _ Hg). by eexists.
Qed.

(** [handleRequest] on a request object: it returns, and what it adds to
    the heap comes after what was there. *)
Lemma handleRequest_appends uuid createdAt request w :
  truthy request = true -> valid (mem w) request ->
  exists t m,
    RecordingManager.handleRequest uuid createdAt request w
    = (Ret tt, set_requestMap m (set_mem (mem w ++ t) w))
    /\ (if truthy (currentSessionId w)
        then prop (mem w) request "requestId" ∈ map fst m
        else m = requestMap w).
Proof.
  intros Ht Hv. destruct (truthy (currentSessionId w)) eqn:Hs.
  - destruct (handleRequest_step uuid createdAt request w Hs Ht Hv)
      as (h' & record & He & _).
    pose proof (truthy_not_nullish _ Ht) as Hn.
    clear He. unfold RecordingManager.handleRequest.
    rewrite (bind_Ret _ _ _ _ _ (get_state_eq w)). rewrite Hs. cbn [negb].
    w_step (applyToRequest_denotes (filters w) request (mem w) Ht Hv).
    set (h1 := mem w ++ filtered_request (filters w) (mem w) request).
    assert (Hk : getprop request "requestId" h1
                 = (Ret (prop (mem w) request "requestId"), h1)).
    { rewrite getprop_prop by done. unfold h1. by rewrite prop_app. }
    w_step Hk. cbn [mem set_mem]. w_step Hk. cbn [mem set_mem].
    w_alloc. rewrite modify_eq.
    cbn [mem set_mem requestMap set_requestMap]. unfold h1.
    rewrite <- app_assoc. eexists _, _. split; [reflexivity|].
    apply map_set_keys. by left.
  - exists [], (requestMap w). split; [|done].
    unfold RecordingManager.handleRequest.
    rewrite (bind_Ret _ _ _ _ _ (get_state_eq w)). rewrite Hs. cbn [negb].
    rewrite app_nil_r. by destruct w.
Qed.

(** X24: an initiation event registers the request.  On an event whose
    request carries a string URL, in a state where no redirect chain has an
    item (every state a new event handler reaches), [handleRequestWillBeSent]
    returns normally; afterwards [getPendingRequest] with the event's
    requestId returns a new entry with status "pending" and no response,
    whose request has the event's requestId, URL, method and type, the
    extracted query string, the time of the call as timestamp and an empty
    redirect chain.  The heap that was there is untouched, nothing is handed
    to storage, and while a session is active the recording manager tracks
    the requestId, too. *)
Theorem requestWillBeSent_registers (rt : runtime) (now : Z)
    (uuid createdAt : string) (params : value) (w : world) (url : string) :
  nullish params = false -> valid (mem w) params ->
  let request := prop (mem w) params "request" in
  let requestId := prop (mem w) params "requestId" in
  truthy request = true -> valid (mem w) request ->
  prop (mem w) request "url" = VStr url ->
  chains_empty w ->
  exists w' pending q,
    EventHandler.handleRequestWillBeSent rt now uuid createdAt params w
    = (Ret tt, w')
    /\ EventHandler.getPendingRequest requestId w' = (Ret pending, w')
    /\ is_object (mem w') pending
    /\ prop (mem w') pending "status" = VStr "pending"
    /\ prop (mem w') pending "response" = VNull
    /\ (let r := prop (mem w') pending "request" in
        prop (mem w') r "requestId" = requestId
        /\ prop (mem w') r "url" = VStr url
        /\ prop (mem w') r "method" = prop (mem w) request "method"
        /\ prop (mem w') r "resourceType" = prop (mem w) params "type"
        /\ EventHandler.extractQueryString rt request (mem w) = (Ret q, mem w)
        /\ prop (mem w') r "queryString" = q
        /\ prop (mem w') r "timestamp" = VNum now
        /\ array_items (mem w') (prop (mem w') r "redirectChain") = Some [])
    /\ preserved (mem w) (mem w')
    /\ saved w' = saved w
    /\ (if truthy (currentSessionId w) then tracked requestId w'
        else requestMap w' = requestMap w).
Proof.
  intros Hp Hvp request requestId Ht Hv Hurl Hce.
  pose proof (truthy_not_nullish _ Ht) as Hn.
  destruct (extractQueryString_returns rt request (mem w) url Hn Hurl)
    as (q & Hq).
  unfold EventHandler.handleRequestWillBeSent. do 5 w_get.
  fold request requestId.
  rewrite ?bind_assoc.
  erewrite bind_Ret by (apply lift_Ret_same; exact Hq).
  do 3 w_get.
  set (hd := prop (mem w) request "headers").
  set (hs := if truthy hd then [] else [Obj []]).
  set (headers := if truthy hd then hd else VRef (length (mem w))).
  assert (Hh : (if truthy hd then ret hd else lift (alloc (Obj []))) w
               = (Ret headers, set_mem (mem w ++ hs) w)).
  { unfold headers, hs. destruct (truthy hd).
    - rewrite app_nil_r, set_mem_mem. done.
    - by apply lift_Ret. }
  rewrite ?bind_assoc. rewrite (bind_Ret _ _ _ _ _ Hh).
  set (h1 := mem w ++ hs).
  assert (Hr1 : forall k, prop h1 request k = prop (mem w) request k).
  { intros k. by apply prop_app. }
  assert (Hp1 : forall k, prop h1 params k = prop (mem w) params k).
  { intros k. by apply prop_app. }
  do 3 w_get. cbn [mem set_mem]. rewrite !Hr1, Hp1.
  w_alloc. w_alloc. cbn [mem set_mem].
  match goal with
  | |- context [set_mem ((h1 ++ [Arr []]) ++ [?c]) _] => set (requestRecord := c)
  end.
  set (h2 := (h1 ++ [Arr []]) ++ [requestRecord]).
  set (w2 := set_mem h2 (set_mem (h1 ++ [Arr []]) (set_mem h1 w))).
  assert (Hce2 : chains_empty w2).
  { apply (chains_empty_kept w); [|done|done]. cbn [mem w2 set_mem].
    unfold h2, h1. rewrite <- !app_assoc. apply chains_kept_app. }
  assert (Hbranch :
    (if truthy (prop (mem w) params "redirectResponse")
     then originalRequest <- EventHandler.findOriginalRequest requestId ;;
          (if truthy originalRequest
           then chain <- lift (getprop originalRequest "redirectChain") ;;
                lift (array_push chain requestId)
           else ret tt)
     else ret tt) w2 = (Ret tt, w2)).
  { destruct (truthy (prop (mem w) params "redirectResponse")); [|done].
    by rewrite (bind_Ret _ _ _ _ _ (findOriginalRequest_null requestId w2 Hce2)). }
  rewrite ?bind_assoc. rewrite (bind_Ret _ _ _ _ _ Hbranch).
  w_alloc. cbn [mem set_mem w2].
  match goal with
  | |- context [set_mem (h2 ++ [?c]) _] => set (pendingCell := c)
  end.
  set (h3 := h2 ++ [pendingCell]).
  erewrite bind_Ret by apply modify_eq.
  set (w3 := set_pendingRequests _ _).
  assert (Hlen1 : length (h1 ++ [Arr []]) = S (length h1)).
  { rewrite length_app. cbn. lia. }
  assert (Hlen2 : length h2 = S (S (length h1))).
  { unfold h2. rewrite length_app, Hlen1. cbn. lia. }
  assert (Hv3 : valid (mem w3) (VRef (length (h1 ++ [Arr []])))).
  { unfold w3. cbn [valid mem set_pendingRequests set_mem]. unfold h3, h2.
    rewrite !length_app. cbn. lia. }
  destruct (handleRequest_appends uuid createdAt
              (VRef (length (h1 ++ [Arr []]))) w3 eq_refl Hv3)
    as (t & m & He & Hm).
  rewrite He. unfold w3 in *. cbn [mem set_pendingRequests set_mem] in *.
  eexists _, (VRef (length h2)), q.
  split; [reflexivity|].
  cbn [mem set_requestMap set_mem saved set_pendingRequests w2].
  assert (Hpend : h3 !! length h2 = Some pendingCell).
  { unfold h3. by rewrite lookup_app_here. }
  assert (Hreq : h3 !! length (h1 ++ [Arr []]) = Some requestRecord).
  { unfold h3, h2. rewrite <- app_assoc. by rewrite lookup_app_here. }
  assert (Harr : h3 !! length h1 = Some (Arr [])).
  { unfold h3, h2. rewrite <- !app_assoc. by rewrite lookup_app_here. }
  assert (Hpp : forall k, prop (h3 ++ t) (VRef (length h2)) k
                          = default VUndefined
                              (assoc k [("request", VRef (length (h1 ++ [Arr []])));
                                        ("response", VNull); ("timing", VNull);
                                        ("error", VNull);
                                        ("status", VStr "pending")])).
  { intros k. unfold prop. rewrite lookup_app_l_Some with (x := pendingCell);
      done. }
  split.
  { unfold EventHandler.getPendingRequest.
    erewrite bind_Ret by apply get_state_eq.
    cbn [pendingRequests set_requestMap set_mem set_pendingRequests].
    by rewrite map_get_set. }
  split.
  { eexists _, _. split; [done|]. by apply lookup_app_l_Some. }
  rewrite !Hpp. cbn [assoc String.eqb Ascii.eqb Bool.eqb default from_option id].
  split; [done|]. split; [done|].
  assert (Hrp : forall k, prop (h3 ++ t) (VRef (length (h1 ++ [Arr []]))) k
                          = match requestRecord with
                            | Obj fs => default VUndefined (assoc k fs)
                            | Arr _ => VUndefined
                            end).
  { intros k. unfold prop.
    rewrite lookup_app_l_Some with (x := requestRecord); done. }
  split.
  { rewrite !Hrp. unfold requestRecord.
    cbn [assoc String.eqb Ascii.eqb Bool.eqb default from_option id].
    do 7 (split; [done|]).
    unfold array_items. rewrite lookup_app_l_Some with (x := Arr []); done. }
  split.
  { unfold h3, h2, h1. rewrite <- !app_assoc. apply preserved_app. }
  split; [done|].
  cbn [currentSessionId set_pendingRequests set_mem w2] in Hm.
  destruct (truthy (currentSessionId w)).
  - unfold tracked. cbn [requestMap set_requestMap].
    replace requestId
      with (prop h3 (VRef (length (h1 ++ [Arr []]))) "requestId"); [done|].
    unfold prop. by rewrite Hreq.
  - cbn [requestMap set_requestMap]. by rewrite Hm.
Qed.

Lemma requestWillBeSent_registers_witness :
  let w := set_mem malformed_url_event scenario_world in
  exists w' pending,
    EventHandler.handleRequestWillBeSent example_runtime 0 "id-2"
      "2024-01-01T00:00:00.000Z" (VRef 0) w = (Ret tt, w')
    /\ EventHandler.getPendingRequest (VStr "R2") w' = (Ret pending, w')
    /\ prop (mem w') pending "status" = VStr "pending"
    /\ prop (mem w') (prop (mem w') pending "request") "url"
       = VStr "bad-url-no-scheme?q=5"
    /\ tracked (VStr "R2") w'.
Proof.
  intros w.
  destruct (requestWillBeSent_registers example_runtime 0 "id-2"
              "2024-01-01T00:00:00.000Z" (VRef 0) w "bad-url-no-scheme?q=5"
              eq_refl ltac:(vm_compute; lia) eq_refl ltac:(vm_compute; lia)
              eq_refl)
    as (w' & pending & q & He & Hg & _ & Hst & _ & (_ & Hurl & _) & _ & _ & Ht).
  { intros k p Hin. by apply elem_of_nil in Hin. }
  exists w', pending. split; [exact He|]. split; [exact Hg|].
  split; [exact Hst|]. split; [exact Hurl|exact Ht].
Defined.





(** X27: a response.  For a request the event handler knows,
    [handleResponseReceived] on an event with a response returns normally:
    the pending entry gets a new response object (status and status text as
    in the event, [mimeType], [protocol], [remoteIPAddress] and
    [remotePort] defaulting to [null], the two cache flags to [false], the
    time of the call as timestamp) and status "response_received"; when the
    recording manager tracks the request, its record gets status
    "response_received" and a response snapshot of its own; nothing is
    handed to storage. *)
Theorem responseReceived_attaches (rt : runtime) (now : Z) (params : value)
    (w : world) :
  nullish params = false ->
  let requestId := prop (mem w) params "requestId" in
  let response := prop (mem w) params "response" in
  let pending := map_get requestId (pendingRequests w) in
  let record := map_get requestId (requestMap w) in
  truthy response = true -> valid (mem w) response ->
  is_object (mem w) pending ->
  record = VUndefined \/ (is_object (mem w) record /\ record <> pending) ->
  exists w' rr,
    EventHandler.handleResponseReceived rt now params w = (Ret tt, w')
    /\ prop (mem w') pending "response" = rr
    /\ is_object (mem w') rr
    /\ prop (mem w') pending "status" = VStr "response_received"
    /\ prop (mem w') rr "status" = prop (mem w) response "status"
    /\ prop (mem w') rr "statusText" = prop (mem w) response "statusText"
    /\ prop (mem w') rr "mimeType"
       = js_or (prop (mem w) response "mimeType") VNull
    /\ prop (mem w') rr "fromCache"
       = js_or (prop (mem w) response "fromCache") (VBool false)
    /\ prop (mem w') rr "timestamp" = VNum now
    /\ saved w' = saved w
    /\ (record <> VUndefined ->
        prop (mem w') record "status" = VStr "response_received"
        /\ is_object (mem w') (prop (mem w') record "response")).
Proof.
  intros Hp requestId response pending record Ht Hv Hpo Hro.
  pose proof (truthy_not_nullish _ Ht) as Hn.
  unfold EventHandler.handleResponseReceived. do 2 w_get.
  rewrite ?bind_assoc. erewrite bind_Ret by apply get_state_eq.
  fold requestId pending response. rewrite (is_object_truthy _ _ Hpo).
  cbn [negb]. do 3 w_get.
  set (hd := prop (mem w) response "headers").
  set (hs := if truthy hd then [] else [Obj []]).
  set (headers := if truthy hd then hd else VRef (length (mem w))).
  assert (Hh : (if truthy hd then ret hd else lift (alloc (Obj []))) w
               = (Ret headers, set_mem (mem w ++ hs) w)).
  { unfold headers, hs. destruct (truthy hd).
    - rewrite app_nil_r, set_mem_mem. done.
    - by apply lift_Ret. }
  rewrite ?bind_assoc. rewrite (bind_Ret _ _ _ _ _ Hh).
  set (h1 := mem w ++ hs).
  assert (Hr1 : forall k, prop h1 response k = prop (mem w) response k).
  { intros k. by apply prop_app. }
  do 6 w_get. cbn [mem set_mem]. rewrite !Hr1. w_alloc. cbn [mem set_mem].
  match goal with
  | |- context [set_mem (h1 ++ [?c]) _] => set (rrCell := c)
  end.
  set (rr := VRef (length h1)). set (h2 := h1 ++ [rrCell]).
  assert (Hk2 : objects_kept (mem w) h2).
  { unfold h2, h1. rewrite <- app_assoc. apply objects_kept_app. }
  assert (Hfresh : forall v, is_object (mem w) v -> rr <> v).
  { intros v (l & fs & -> & Hl) [= <-]. apply lookup_lt_Some in Hl.
    unfold h1 in Hl. rewrite length_app in Hl. lia. }
  assert (Hrr2 : forall k, prop h2 rr k
                           = match rrCell with
                             | Obj fs => default VUndefined (assoc k fs)
                             | Arr _ => VUndefined
                             end).
  { intros k. unfold h2, rr, rrCell. by rewrite prop_here. }
  assert (Hrro : is_object h2 rr).
  { eexists _, _. split; [done|]. unfold h2, rrCell. by rewrite lookup_app_here. }
  destruct (setprop_object h2 pending "response" rr (Hk2 _ Hpo))
    as (h3 & Hs3 & Hk3 & Hl3 & Hp3 & Hf3).
  w_step Hs3. cbn [mem set_mem].
  destruct (setprop_object h3 pending "status" (VStr "response_received")
              (Hk3 _ (Hk2 _ Hpo)))
    as (h4 & Hs4 & Hk4 & Hl4 & Hp4 & Hf4).
  w_step Hs4. cbn [mem set_mem].
  set (w4 := set_mem h4 _).
  assert (Hmap : map_get requestId (requestMap w4) = record) by done.
  assert (Hrr4 : forall k, prop h4 rr k = prop h2 rr k).
  { intros k. rewrite Hf4, Hf3; [done|left..]; by apply Hfresh. }
  assert (Hpr4 : prop h4 pending "response" = rr).
  { rewrite Hf4 by (right; done). done. }
  destruct Hro as [Hu|[Hro Hne]].
  - exists w4, rr. split.
    + unfold RecordingManager.handleResponse.
      rewrite (bind_Ret _ _ _ _ _ (get_state_eq w4)). by rewrite Hmap, Hu.
    + cbn [mem w4 set_mem saved]. split; [done|].
      split; [by apply Hk4, Hk3|]. split; [done|].
      rewrite !Hrr4, !Hrr2. unfold rrCell.
      cbn [assoc String.eqb Ascii.eqb Bool.eqb default from_option id].
      do 6 (split; [done|]). by intros Hne.
  - assert (Ho4 : is_object (mem w4) (map_get requestId (requestMap w4))).
    { rewrite Hmap. by apply Hk4, Hk3, Hk2. }
    destruct (handleResponse_step rt requestId rr w4 Ho4)
      as (h5 & He5 & Hk5 & Hst5 & Hresp5 & Hf5).
    rewrite Hmap in *. cbn [mem w4 set_mem truthy rr] in Hf5, Hresp5.
    exists (set_mem h5 w4), rr. split; [exact He5|].
    cbn [mem w4 set_mem saved].
    assert (Hvp : valid h4 pending) by by apply is_object_valid, Hk4, Hk3, Hk2.
    assert (Hvr : valid h4 rr) by by apply is_object_valid, Hk4, Hk3.
    split. { rewrite Hf5; [done|done|left; congruence]. }
    split; [by apply Hk5, Hk4, Hk3|].
    split. { rewrite Hf5; [done|done|left; congruence]. }
    assert (Hrr5 : forall k, prop h5 rr k = prop h2 rr k).
    { intros k. rewrite Hf5; [apply Hrr4|done|].
      left. intros Heq. by apply (Hfresh record). }
    rewrite !Hrr5, !Hrr2. unfold rrCell.
    cbn [assoc String.eqb Ascii.eqb Bool.eqb default from_option id].
    do 6 (split; [done|]). done.
Qed.



Lemma responseReceived_attaches_witness :
  let w := deliver_all example_runtime (take 2 redirect_event_list)
             (set_mem redirect_events scenario_world) in
  exists w' rr,
    EventHandler.handleResponseReceived example_runtime 3 (VRef 5) w
    = (Ret tt, w')
    /\ prop (mem w') (map_get (VStr "1") (pendingRequests w)) "response" = rr
    /\ prop (mem w') rr "status" = VNum 302
    /\ prop (mem w') rr "fromCache" = VBool false
    /\ saved w' = [].
Proof.
  intros w.
  destruct (responseReceived_attaches example_runtime 3 (VRef 5) w eq_refl
              eq_refl ltac:(vm_compute; lia))
    as (w' & rr & He & Hr & _ & _ & Hst & _ & _ & Hc & _ & Hsaved & _).
  { eexists _, _. split; by vm_compute. }
  { right. split; [eexists _, _; split; by vm_compute|by vm_compute]. }
  exists w', rr. split; [exact He|]. split; [exact Hr|].
  split; [exact Hst|]. split; [exact Hc|]. rewrite Hsaved. reflexivity.
Defined.

Lemma redirect_chains_always_empty_witness :
  let w := deliver_all example_runtime redirect_event_list
             (set_mem redirect_events scenario_world) in
  length (pendingRequests w) = 2
  /\ EventHandler.findOriginalRequest (VStr "2") w = (Ret VNull, w).
Proof.
  intros w. split; [by vm_compute|].
  apply (redirect_chains_always_empty example_runtime redirect_event_list
           (set_mem redirect_events scenario_world) eq_refl).
Defined.
